(** * Membership club bot: code allocator, screening engine, invitation codes

    A shallow embedding of the bot's JavaScript sources.  The repository holds
    one stand-alone fragment ([server.js]) and three complete bot programs:
    the screening bot (members, questions, sessions, answers), the code-format
    bot (members only) and the invitation-code bot (membership codes).

    - JavaScript strings are sequences of UTF-16 code units.
    - [crypto.randomInt] reads a random source that is threaded explicitly.
    - The PostgreSQL tables are lists of rows; a statement that PostgreSQL
      rejects (unique or foreign key violation, integer out of range) throws.
    - A handler is a computation over the world (tables, the in-process
      [awaitingText] map, the messages sent so far) that may throw. *)

From Stdlib Require Import ZArith Lia.
From stdpp Require Import base option list sorting strings gmap.

Local Open Scope Z_scope.

(** ** JavaScript strings *)

Module Js.

(** A string is the list of its UTF-16 code units. *)
Definition jsstring := list Z.

(** [String.fromCharCode(n)], for an integer [n]. *)
Definition fromCharCode (n : Z) : jsstring := [n `mod` 65536].

(** Decimal digits of a non-negative integer, most significant first. *)
Fixpoint dec_digits (fuel : nat) (n : Z) (acc : jsstring) : jsstring :=
  match fuel with
  | O => acc
  | S fuel' =>
      let acc' := (48 + n `mod` 10) :: acc in
      if n `div` 10 =? 0 then acc' else dec_digits fuel' (n `div` 10) acc'
  end.

(** [String(n)] for an integer [n], as used by [s += n]. *)
Definition toString (n : Z) : jsstring :=
  if n <? 0 then 45 :: dec_digits (S (Z.to_nat (- n))) (- n) []
  else dec_digits (S (Z.to_nat n)) n [].

(** [s.slice(start, end)]; [None] is an omitted [end]. *)
Definition slice (s : jsstring) (start : Z) (end_ : option Z) : jsstring :=
  let len := Z.of_nat (length s) in
  let clamp i := if i <? 0 then Z.max (len + i) 0 else Z.min i len in
  let from := clamp start in
  let to := match end_ with None => len | Some e => clamp e end in
  take (Z.to_nat (Z.max (to - from) 0)) (drop (Z.to_nat from) s).

Definition is_upper (c : Z) : bool := (65 <=? c) && (c <=? 90).
Definition is_digit (c : Z) : bool := (48 <=? c) && (c <=? 57).

(** A string of decimal digits. *)
Definition all_digits (s : jsstring) : Prop := forallb is_digit s = true.

(** [/^[A-Z][0-9]{6}$/.test(s)] *)
Definition CODE_REGEX_test (s : jsstring) : bool :=
  match s with
  | [] => false
  | c :: ds => is_upper c && (length ds =? 6)%nat && forallb is_digit ds
  end.

(** String constants of the source, from their ASCII spelling. *)
Definition js (s : string) : jsstring :=
  (fun a => Z.of_nat (Ascii.nat_of_ascii a)) <$> String.list_ascii_of_string s.

(** A JavaScript string is truthy when it is not empty. *)
Definition truthy (s : jsstring) : bool := negb (bool_decide (s = [])).

(** [x || null] on an optional string *)
Definition or_null (x : option jsstring) : option jsstring :=
  match x with
  | Some s => if truthy s then Some s else None
  | None => None
  end.

(** The two halves of a surrogate pair. *)
Definition is_high_surrogate (c : Z) : bool := (55296 <=? c) && (c <=? 56319).
Definition is_low_surrogate (c : Z) : bool := (56320 <=? c) && (c <=? 57343).

(** The string that comes back from its UTF-8 encoding, which is how a
    string leaves the process ([Buffer.from(s, 'utf8')]): a surrogate that
    is not part of a pair is replaced by U+FFFD. *)
Fixpoint toWellFormed (s : jsstring) : jsstring :=
  match s with
  | [] => []
  | c :: s' =>
      if is_high_surrogate c then
        match s' with
        | d :: s'' =>
            if is_low_surrogate d then c :: d :: toWellFormed s''
            else 65533 :: toWellFormed s'
        | [] => [65533]
        end
      else if is_low_surrogate c then 65533 :: toWellFormed s'
      else c :: toWellFormed s'
  end.

(** [s.isWellFormed()]: no surrogate without its other half. *)
Fixpoint isWellFormed (s : jsstring) : bool :=
  match s with
  | [] => true
  | c :: s' =>
      if is_high_surrogate c then
        match s' with
        | d :: s'' => is_low_surrogate d && isWellFormed s''
        | [] => false
        end
      else negb (is_low_surrogate c) && isWellFormed s'
  end.

(** A [Date] object; [new Date(t)] is an Invalid Date when [t] is more than
    8.64e15 milliseconds away from the epoch. *)
Inductive date :=
| Date (t : Z)
| InvalidDate.

Definition new_Date (t : Z) : date :=
  if Z.abs t <=? 8640000000000000 then Date t else InvalidDate.

End Js.
Export Js.

(** ** The random source *)

Module Random.

(** The source is an unbounded tape of raw draws and a read position. *)
Record Rand := mkRand { tape : nat -> Z; pos : nat }.

(** [crypto.randomInt(max)]: an integer in [0, max). *)
Definition randomInt (max : Z) (r : Rand) : Z * Rand :=
  (tape r (pos r) `mod` max, mkRand (tape r) (S (pos r))).

End Random.
Export Random.

(** ** Code generation *)

Module CodeGen.

Definition randomLetterAZ (r : Rand) : jsstring * Rand :=
  let (n, r1) := randomInt 26 r in (fromCharCode (65 + n), r1).

(** [let s = ''; for (let i = 0; i < n; i++) s += crypto.randomInt(10)] *)
Fixpoint randomDigits_loop (n : nat) (s : jsstring) (r : Rand) : jsstring * Rand :=
  match n with
  | O => (s, r)
  | S n' => let (d, r1) := randomInt 10 r in randomDigits_loop n' (s ++ toString d) r1
  end.

Definition randomDigits (n : nat) (r : Rand) : jsstring * Rand :=
  randomDigits_loop n [] r.

(** [Array.from({length:n}, () => crypto.randomInt(10))] *)
Fixpoint array_from_randomInt10 (n : nat) (r : Rand) : list Z * Rand :=
  match n with
  | O => ([], r)
  | S n' =>
      let (d, r1) := randomInt 10 r in
      let (ds, r2) := array_from_randomInt10 n' r1 in (d :: ds, r2)
  end.

(** [arr.join('')] on an array of numbers *)
Definition join_empty (arr : list Z) : jsstring := concat (toString <$> arr).

(** The screening bot's [randomDigits]. *)
Definition randomDigits_join (n : nat) (r : Rand) : jsstring * Rand :=
  let (arr, r1) := array_from_randomInt10 n r in (join_empty arr, r1).

Section Allocator.
(** The members table, as far as the allocator reads it. *)
Context {member : Type} (my_code : member -> option jsstring).
(** The variant's [randomDigits]. *)
Variable digits : nat -> Rand -> jsstring * Rand.

Definition randomCodeAZ6 (r : Rand) : jsstring * Rand :=
  let (l, r1) := randomLetterAZ r in
  let (ds, r2) := digits 6%nat r1 in (l ++ ds, r2).

(** [SELECT 1 FROM members WHERE my_code = $1] *)
Definition select_by_code (members : list member) (c : jsstring) : list member :=
  filter (fun m => my_code m = Some c) members.

Definition code_taken (members : list member) (c : jsstring) : bool :=
  negb (bool_decide (select_by_code members c = [])).

(** [for (let i = 0; i < 6; i++) { ... if (!rows.length) return c; }],
    with [n] iterations left, followed by the variant's last statement. *)
Fixpoint generate_loop (fallback : Rand -> jsstring * Rand)
    (members : list member) (n : nat) (r : Rand) : jsstring * Rand :=
  match n with
  | O => fallback r
  | S n' =>
      let (c, r1) := randomCodeAZ6 r in
      if code_taken members c then generate_loop fallback members n' r1
      else (c, r1)
  end.

(** The candidates the loop would draw in [n] iterations that all collide. *)
Fixpoint attempts (n : nat) (r : Rand) : list jsstring :=
  match n with
  | O => []
  | S n' => let (c, r1) := randomCodeAZ6 r in c :: attempts n' r1
  end.

(** The random source after [n] candidates. *)
Fixpoint after_attempts (n : nat) (r : Rand) : Rand :=
  match n with
  | O => r
  | S n' => after_attempts n' (snd (randomCodeAZ6 r))
  end.
End Allocator.

(** The six candidates of one call, when each of the first five collides. *)
Definition candidates (r : Rand) : list jsstring := attempts randomDigits 6%nat r.

(** [server.js]: the last statement draws seven digits and drops the first. *)
Module ServerJs.
Definition fallback (r : Rand) : jsstring * Rand :=
  let (l, r1) := randomLetterAZ r in
  let (ds, r2) := randomDigits 7%nat r1 in (l ++ slice ds 1 None, r2).
Definition generateUniqueCode {member} (my_code : member -> option jsstring)
    (members : list member) (r : Rand) : jsstring * Rand :=
  generate_loop my_code randomDigits fallback members 6%nat r.
End ServerJs.

(** The screening bot: the last statement is [return randomCodeAZ6()]. *)
Module Screening.
Definition fallback (r : Rand) : jsstring * Rand := randomCodeAZ6 randomDigits_join r.
Definition generateUniqueCode {member} (my_code : member -> option jsstring)
    (members : list member) (r : Rand) : jsstring * Rand :=
  generate_loop my_code randomDigits_join fallback members 6%nat r.
End Screening.

(** The code-format bot: [return randomLetterAZ() + randomDigits(6)]. *)
Module CodeFormat.
Definition fallback (r : Rand) : jsstring * Rand :=
  let (l, r1) := randomLetterAZ r in
  let (ds, r2) := randomDigits 6%nat r1 in (l ++ ds, r2).
Definition generateUniqueCode {member} (my_code : member -> option jsstring)
    (members : list member) (r : Rand) : jsstring * Rand :=
  generate_loop my_code randomDigits fallback members 6%nat r.
End CodeFormat.

End CodeGen.


(** ** PostgreSQL values and errors *)

Module Sql.

(** What the handlers can throw: the SQLSTATE classes of the statements the
    bots run, and the [RangeError] of [toISOString] on an Invalid Date. *)
Inductive exn :=
| unique_violation
| foreign_key_violation
| numeric_value_out_of_range
| invalid_text_representation
| character_not_in_repertoire
| invalid_datetime_format
| datetime_field_overflow
| RangeError.

Inductive outcome (A : Type) :=
| Ok (a : A)
| Throw (e : exn).
Arguments Ok {A} a.
Arguments Throw {A} e.

(** The range of the [INT] column type. *)
Definition int4 (z : Z) : bool := (-2147483648 <=? z) && (z <=? 2147483647).

(** [x + 1] on a nullable [INT] column: NULL stays NULL, overflow is an error. *)
Definition int4_succ (x : option Z) : outcome (option Z) :=
  match x with
  | None => Ok None
  | Some i => if int4 (i + 1) then Ok (Some (i + 1)) else Throw numeric_value_out_of_range
  end.

(** [SUM(...)] over nullable integers: NULLs are skipped, and the sum of no
    non-NULL value is NULL. *)
Fixpoint sum_agg (l : list (option Z)) : option Z :=
  match l with
  | [] => None
  | None :: l' => sum_agg l'
  | Some x :: l' => Some (x + default 0 (sum_agg l'))
  end.

Definition coalesce (x : option Z) (d : Z) : Z := default d x.

(** [x::int] *)
Definition cast_int (x : Z) : outcome Z :=
  if int4 x then Ok x else Throw numeric_value_out_of_range.

(** Evaluate a nullable integer expression on every selected row. *)
Fixpoint eval_rows {A} (f : A -> outcome (option Z)) (rows : list A)
    : outcome (list (option Z)) :=
  match rows with
  | [] => Ok []
  | a :: rows' =>
      match f a with
      | Throw e => Throw e
      | Ok v =>
          match eval_rows f rows' with
          | Throw e => Throw e
          | Ok vs => Ok (v :: vs)
          end
      end
  end.

(** A string parameter of a statement, as stored in a [TEXT] column: the
    driver sends its UTF-8 encoding, and PostgreSQL refuses the character
    U+0000. *)
Definition text_param (s : jsstring) : outcome jsstring :=
  if bool_decide (0 ∈ s) then Throw character_not_in_repertoire
  else Ok (toWellFormed s).

(** The range of [TIMESTAMPTZ], 4713 BC to 294276 AD, in milliseconds from
    the Unix epoch. *)
Definition timestamptz (t : Z) : bool :=
  (-210866803200000 <=? t) && (t <? 9224318016000000).

(** A [Date] parameter, as stored in a [TIMESTAMPTZ] column; the driver
    writes an Invalid Date as a text that is no timestamp. *)
Definition date_param (d : date) : outcome Z :=
  match d with
  | InvalidDate => Throw invalid_datetime_format
  | Date t => if timestamptz t then Ok t else Throw datetime_field_overflow
  end.

End Sql.
Export Sql.


(** ** Computations: state, with exceptions that keep the state *)

Module Comp.

Definition M (W A : Type) : Type := W -> outcome A * W.

Definition ret {W A} (a : A) : M W A := fun w => (Ok a, w).

Definition bind {W A B} (m : M W A) (k : A -> M W B) : M W B :=
  fun w =>
    match m w with
    | (Ok a, w1) => k a w1
    | (Throw e, w1) => (Throw e, w1)
    end.

Definition throw {W A} (e : exn) : M W A := fun w => (Throw e, w).

(** [try { body } catch (e) { handler }] *)
Definition try_catch {W A} (body : M W A) (handler : exn -> M W A) : M W A :=
  fun w =>
    match body w with
    | (Ok a, w1) => (Ok a, w1)
    | (Throw e, w1) => handler e w1
    end.

Definition query {W A} (f : W -> A) : M W A := fun w => (Ok (f w), w).
Definition modify {W} (f : W -> W) : M W unit := fun w => (Ok tt, f w).

(** The world a computation leaves is related by [R] to the one it found,
    whether it returns or throws. *)
Definition preserves {W A} (R : relation W) (m : M W A) : Prop :=
  forall w, R w (snd (m w)).

Notation "'let*' x ':=' c1 'in' c2" := (bind c1 (fun x => c2))
  (at level 10, x name, c1 at level 100, c2 at level 200).
Notation "c1 ';;' c2" := (bind c1 (fun _ => c2))
  (at level 100, c2 at level 200, right associativity).

End Comp.
Export Comp.


(** ** What the handlers see of an update *)

Module Telegraf.

(** [ctx.from] *)
Record sender := mkSender {
  from_id : Z;
  from_username : option jsstring;
  from_first_name : option jsstring;
  from_last_name : option jsstring
}.

End Telegraf.
Export Telegraf.


(** ** The screening bot *)

Module ScreeningBot.

(** *** Tables *)

Record member := mkMember {
  tg_id : Z;
  username : option jsstring;
  first_name : option jsstring;
  last_name : option jsstring;
  joined_at : Z;
  my_code : option jsstring;
  screening_status : jsstring
}.

(** [q_type TEXT NOT NULL CHECK (q_type IN ('mcq','text'))] *)
Inductive question_type := mcq | text.

Record question := mkQuestion {
  q_id : Z;
  q_text : jsstring;
  q_type : question_type;
  options : option (list jsstring);
  correct_index : option Z
}.

Record session := mkSession {
  s_id : Z;
  s_tg_id : Z;
  started_at : Z;
  finished_at : option Z;
  score : Z;
  result : option jsstring
}.

Record answer := mkAnswer {
  a_id : Z;
  session_id : Z;
  question_id : Z;
  answer_text : option jsstring;
  chosen_index : option Z;
  is_correct : option bool
}.

(** *** Messages *)

(** The payload of an inline button, [ans:<question id>:<option index>], in
    parsed form: [CbAns qid idx] when both fields read as integers,
    [CbAnsInvalid] when the text starts with [ans:] and a field does not,
    [CbOther] when it does not start with [ans:]. *)
Inductive callback_data :=
| CbAns (qid chosen : Z)
| CbAnsInvalid
| CbOther.

Inductive keyboard :=
| no_keyboard
| startKeyboard
| memberKeyboard
| inlineKeyboard (buttons : list (jsstring * callback_data)).

(** The four interpretations shown with a grade. *)
Inductive interp := interp_excellent | interp_good | interp_growing | interp_basics.

(** The texts the bot sends, with the values interpolated into them. *)
Inductive text_out :=
| TAlreadyMember (code : option jsstring)
| TRegistered (code : jsstring)
| TRegisterError
| TRegisterFirst
| TYourCode (code : jsstring)
| TResult (score_shown max_shown : Z) (grade : jsstring) (i : interp)
| TQuestion (q : jsstring)
| TQuestionShortAnswer (q : jsstring)
| TAlreadyPassed
| TRejected
| TSendYourCode
| TCodeMismatch
| TNoQuestions
| TMember (code : option jsstring)
| TWelcome.

Inductive cb_text := CbRecorded | CbError.

Inductive outgoing :=
| Reply (t : text_out) (kb : keyboard)
| AnswerCbQuery (t : option cb_text).

(** The value of an [awaitingText] entry. *)
Record awaiting := mkAwaiting { sessionId : Z; questionId : Z }.

(** *** The world *)

Record World := mkWorld {
  members : list member;
  screening_questions : list question;
  screening_sessions : list session;
  screening_answers : list answer;
  (** next values of the two [BIGSERIAL] sequences *)
  sessions_id_seq : Z;
  answers_id_seq : Z;
  awaitingText : gmap Z awaiting;
  rng : Rand;
  (** [NOW()] *)
  clock : Z;
  (** messages sent, oldest first *)
  sent : list outgoing
}.

Definition set_members (f : list member -> list member) (w : World) : World :=
  mkWorld (f (members w)) (screening_questions w) (screening_sessions w)
    (screening_answers w) (sessions_id_seq w) (answers_id_seq w)
    (awaitingText w) (rng w) (clock w) (sent w).

Definition set_sessions (f : list session -> list session) (w : World) : World :=
  mkWorld (members w) (screening_questions w) (f (screening_sessions w))
    (screening_answers w) (sessions_id_seq w) (answers_id_seq w)
    (awaitingText w) (rng w) (clock w) (sent w).

Definition set_answers (f : list answer -> list answer) (w : World) : World :=
  mkWorld (members w) (screening_questions w) (screening_sessions w)
    (f (screening_answers w)) (sessions_id_seq w) (answers_id_seq w)
    (awaitingText w) (rng w) (clock w) (sent w).

Definition set_sessions_id_seq (z : Z) (w : World) : World :=
  mkWorld (members w) (screening_questions w) (screening_sessions w)
    (screening_answers w) z (answers_id_seq w)
    (awaitingText w) (rng w) (clock w) (sent w).

Definition set_answers_id_seq (z : Z) (w : World) : World :=
  mkWorld (members w) (screening_questions w) (screening_sessions w)
    (screening_answers w) (sessions_id_seq w) z
    (awaitingText w) (rng w) (clock w) (sent w).

Definition set_awaitingText (f : gmap Z awaiting -> gmap Z awaiting) (w : World) : World :=
  mkWorld (members w) (screening_questions w) (screening_sessions w)
    (screening_answers w) (sessions_id_seq w) (answers_id_seq w)
    (f (awaitingText w)) (rng w) (clock w) (sent w).

Definition set_rng (r : Rand) (w : World) : World :=
  mkWorld (members w) (screening_questions w) (screening_sessions w)
    (screening_answers w) (sessions_id_seq w) (answers_id_seq w)
    (awaitingText w) r (clock w) (sent w).

Definition set_sent (f : list outgoing -> list outgoing) (w : World) : World :=
  mkWorld (members w) (screening_questions w) (screening_sessions w)
    (screening_answers w) (sessions_id_seq w) (answers_id_seq w)
    (awaitingText w) (rng w) (clock w) (f (sent w)).

(** The world after one more reply. *)
Definition replied (t : text_out) (kb : keyboard) (w : World) : World :=
  set_sent (fun l => l ++ [Reply t kb]) w.

(** [ctx.reply(text, keyboard)] and [ctx.answerCbQuery(text)] *)
Definition reply (t : text_out) (kb : keyboard) : M World unit :=
  modify (replied t kb).
Definition answerCbQuery (t : option cb_text) : M World unit :=
  modify (set_sent (fun l => l ++ [AnswerCbQuery t])).

(** *** Code allocation *)

Definition generateUniqueCode : M World jsstring :=
  fun w =>
    let (c, r) := CodeGen.Screening.generateUniqueCode my_code (members w) (rng w) in
    (Ok c, set_rng r w).

(** [SELECT ... FROM members WHERE tg_id = $1] *)
Definition select_member (tgId : Z) (w : World) : list member :=
  filter (fun m => tg_id m = tgId) (members w).

Definition with_code (c : jsstring) (m : member) : member :=
  mkMember (tg_id m) (username m) (first_name m) (last_name m) (joined_at m)
    (Some c) (screening_status m).

Definition with_status (s : jsstring) (m : member) : member :=
  mkMember (tg_id m) (username m) (first_name m) (last_name m) (joined_at m)
    (my_code m) s.

(** [UPDATE members SET my_code = $1 WHERE tg_id = $2]; [my_code] is UNIQUE. *)
Definition update_my_code (c : jsstring) (tgId : Z) : M World unit :=
  fun w =>
    if bool_decide (select_member tgId w <> [])
       && bool_decide (filter (fun m => my_code m = Some c /\ tg_id m <> tgId) (members w) <> [])
    then (Throw unique_violation, w)
    else (Ok tt, set_members (fmap (fun m => if bool_decide (tg_id m = tgId) then with_code c m else m)) w).

Definition ensureCodeFormat (tgId : Z) : M World (option jsstring) :=
  let* rows := query (select_member tgId) in
  match rows with
  | [] => ret None
  | row :: _ =>
      let regenerate :=
        let* newCode := generateUniqueCode in
        update_my_code newCode tgId ;;
        ret (Some newCode) in
      match my_code row with
      | Some current =>
          if truthy current && CODE_REGEX_test current then ret (Some current)
          else regenerate
      | None => regenerate
      end
  end.

(** *** Registration *)

(** [INSERT INTO members(tg_id,username,first_name,last_name,my_code)];
    [tg_id] is the primary key and [my_code] is UNIQUE. *)
Definition insert_member (c : sender) (code : jsstring) : M World unit :=
  fun w =>
    if bool_decide (select_member (from_id c) w <> [])
       || CodeGen.code_taken my_code (members w) code
    then (Throw unique_violation, w)
    else (Ok tt,
          set_members (fun l => l ++
            [mkMember (from_id c) (or_null (from_username c))
               (or_null (from_first_name c)) (or_null (from_last_name c))
               (clock w) (Some code) (js "pending")]) w).

Definition handleRegister (c : sender) : M World unit :=
  let* exist := query (select_member (from_id c)) in
  match exist with
  | _ :: _ =>
      let* code := ensureCodeFormat (from_id c) in
      reply (TAlreadyMember code) memberKeyboard
  | [] =>
      try_catch
        (let* code := generateUniqueCode in
         insert_member c code ;;
         reply (TRegistered code) memberKeyboard)
        (fun _ => reply TRegisterError no_keyboard)
  end.

Definition handleMyCode (c : sender) : M World unit :=
  let* code := ensureCodeFormat (from_id c) in
  match code with
  | None => reply TRegisterFirst startKeyboard
  | Some code => reply (TYourCode code) memberKeyboard
  end.

(** *** Screening *)

(** [SELECT id FROM screening_sessions WHERE tg_id = $1] *)
Definition select_session (tgId : Z) (w : World) : list session :=
  filter (fun s => s_tg_id s = tgId) (screening_sessions w).

(** [INSERT INTO screening_sessions(tg_id) VALUES($1) RETURNING id]: the id
    comes from the sequence, [tg_id] references [members] and is UNIQUE. *)
Definition insert_session (tgId : Z) : M World Z :=
  fun w =>
    let id := sessions_id_seq w in
    let w1 := set_sessions_id_seq (id + 1) w in
    if bool_decide (filter (fun s => s_id s = id) (screening_sessions w) <> [])
       || bool_decide (select_session tgId w <> [])
    then (Throw unique_violation, w1)
    else if bool_decide (select_member tgId w = [])
    then (Throw foreign_key_violation, w1)
    else (Ok id, set_sessions (fun l => l ++ [mkSession id tgId (clock w) None 0 None]) w1).

Definition getOrCreateSession (tgId : Z) : M World Z :=
  let* rows := query (select_session tgId) in
  match rows with
  | row :: _ => ret (s_id row)
  | [] => insert_session tgId
  end.

(** [SELECT question_id FROM screening_answers WHERE session_id = $1] *)
Definition select_answers (sid : Z) (w : World) : list answer :=
  filter (fun a => session_id a = sid) (screening_answers w).

(** The order of [ORDER BY id ASC]. *)
Definition id_le (a b : question) : Prop := q_id a <= q_id b.

#[global] Instance id_le_dec : RelDecision id_le :=
  fun a b => decide (q_id a <= q_id b).

(** [SELECT * FROM screening_questions ORDER BY id ASC] *)
Definition questions_by_id (w : World) : list question :=
  merge_sort id_le (screening_questions w).

(** Session [sid] holds an answer row for question [qid]. *)
Definition answered_in (w : World) (sid qid : Z) : Prop :=
  exists a, a ∈ screening_answers w /\ session_id a = sid /\ question_id a = qid.

Definition nextQuestion (sid : Z) : M World (option question) :=
  let* ans := query (select_answers sid) in
  let ansSet : gset Z := list_to_set (question_id <$> ans) in
  let* qs := query questions_by_id in
  ret (List.find (fun q => negb (bool_decide (q_id q ∈ ansSet))) qs).

(** [SELECT COALESCE(SUM(chosen_index+1),0)::int AS score
     FROM screening_answers WHERE session_id = $1] *)
Definition score_query (sid : Z) (w : World) : outcome Z :=
  match eval_rows (fun a => int4_succ (chosen_index a)) (select_answers sid w) with
  | Throw e => Throw e
  | Ok terms => cast_int (coalesce (sum_agg terms) 0)
  end.

(** What one answer row adds to the score: the chosen index plus one, and
    nothing for a row without a chosen index. *)
Definition points (a : answer) : Z :=
  match chosen_index a with
  | Some i => i + 1
  | None => 0
  end.

(** The score as the specification words it: the sum of the points. *)
Definition spec_score (rows : list answer) : Z :=
  foldr (fun a acc => points a + acc) 0 rows.

(** The grade and its interpretation, from the score. *)
Definition grade_of (score : Z) : jsstring * interp :=
  if score >=? 40 then (js "A", interp_excellent)
  else if score >=? 32 then (js "B", interp_good)
  else if score >=? 25 then (js "C", interp_growing)
  else (js "D", interp_basics).

(** A session row once finished. *)
Definition finished_row (now sc : Z) (grade : jsstring) (s : session) : session :=
  mkSession (s_id s) (s_tg_id s) (started_at s) (Some now) sc (Some grade).

(** [UPDATE screening_sessions SET finished_at=NOW(),score=$1,result=$2 WHERE id=$3] *)
Definition finish_session (sc : Z) (grade : jsstring) (sid : Z) : M World unit :=
  fun w =>
    (Ok tt,
     set_sessions (fmap (fun s =>
       if bool_decide (s_id s = sid) then finished_row (clock w) sc grade s else s)) w).

(** [UPDATE members SET screening_status=$1 WHERE tg_id=$2] *)
Definition update_status (grade : jsstring) (tgId : Z) : M World unit :=
  modify (set_members (fmap (fun m =>
    if bool_decide (tg_id m = tgId) then with_status grade m else m))).

(** One inline button per option, carrying [ans:<q.id>:<idx>]. *)
Definition buttons_of (q : question) : list (jsstring * callback_data) :=
  imap (fun idx opt => (opt, CbAns (q_id q) (Z.of_nat idx))) (default [] (options q)).

Definition askQuestion (c : sender) (sid : Z) (q : option question) : M World unit :=
  match q with
  | None =>
      let* sc := (fun w => (score_query sid w, w)) in
      let* totalQ := query (fun w => Z.of_nat (length (screening_questions w))) in
      let (grade, i) := grade_of sc in
      finish_session sc grade sid ;;
      update_status grade (from_id c) ;;
      reply (TResult sc (totalQ * 5) grade i) memberKeyboard
  | Some q =>
      match q_type q with
      | mcq => reply (TQuestion (q_text q)) (inlineKeyboard (buttons_of q))
      | text =>
          modify (set_awaitingText (insert (from_id c) (mkAwaiting sid (q_id q)))) ;;
          reply (TQuestionShortAnswer (q_text q)) no_keyboard
      end
  end.

Definition startScreeningWithCode (c : sender) : M World unit :=
  let* rows := query (select_member (from_id c)) in
  match rows with
  | [] => reply TRegisterFirst startKeyboard
  | row :: _ =>
      if bool_decide (screening_status row = js "passed")
      then reply TAlreadyPassed memberKeyboard
      else if bool_decide (screening_status row = js "failed")
      then reply TRejected memberKeyboard
      else reply TSendYourCode no_keyboard
  end.

Definition verifyCodeAndBegin (c : sender) (codeText : jsstring) : M World unit :=
  let* rows := query (select_member (from_id c)) in
  match rows with
  | [] => reply TRegisterFirst no_keyboard
  | row :: _ =>
      if bool_decide (my_code row <> Some codeText) then reply TCodeMismatch no_keyboard
      else
        let* qcount := query (fun w => length (screening_questions w)) in
        if bool_decide (qcount = 0%nat) then reply TNoQuestions memberKeyboard
        else
          let* sid := getOrCreateSession (from_id c) in
          let* q := nextQuestion sid in
          askQuestion c sid q
  end.

(** *** Handlers *)

(** [bot.hears(CODE_REGEX, ...)]: the text matches the pattern, so trimming
    and upper-casing leave it as it is. *)
Definition on_code (c : sender) (msg : jsstring) : M World unit :=
  let* waiting := query (fun w => awaitingText w !! from_id c) in
  match waiting with
  | Some _ => ret tt
  | None => verifyCodeAndBegin c msg
  end.

(** [INSERT INTO screening_answers(session_id,question_id,chosen_index,is_correct)
     VALUES($1,$2,$3,NULL) ON CONFLICT DO NOTHING]: the id comes from the
    sequence; the table's only unique index is its primary key [id]. *)
Definition insert_choice (sid qid chosen : Z) : M World unit :=
  fun w =>
    let id := answers_id_seq w in
    let w1 := set_answers_id_seq (id + 1) w in
    if negb (int4 qid && int4 chosen) then (Throw numeric_value_out_of_range, w)
    else if bool_decide (filter (fun a => a_id a = id) (screening_answers w) <> [])
    then (Ok tt, w1)
    else if bool_decide (filter (fun s => s_id s = sid) (screening_sessions w) = [])
            || bool_decide (filter (fun q => q_id q = qid) (screening_questions w) = [])
    then (Throw foreign_key_violation, w1)
    else (Ok tt, set_answers (fun l => l ++ [mkAnswer id sid qid None (Some chosen) None]) w1).

(** [INSERT INTO screening_answers(session_id,question_id,answer_text,is_correct)
     VALUES($1,$2,$3,NULL)]: the text is refused or stored as [text_param]
    says, before a value of the sequence is drawn. *)
Definition insert_text (sid qid : Z) (t : jsstring) : M World unit :=
  fun w =>
    match text_param t with
    | Throw e => (Throw e, w)
    | Ok stored =>
        let id := answers_id_seq w in
        let w1 := set_answers_id_seq (id + 1) w in
        if bool_decide (filter (fun a => a_id a = id) (screening_answers w) <> [])
        then (Throw unique_violation, w1)
        else if bool_decide (filter (fun s => s_id s = sid) (screening_sessions w) = [])
                || bool_decide (filter (fun q => q_id q = qid) (screening_questions w) = [])
        then (Throw foreign_key_violation, w1)
        else (Ok tt,
              set_answers (fun l => l ++ [mkAnswer id sid qid (Some stored) None None]) w1)
    end.

(** [bot.on('callback_query', ...)] *)
Definition on_callback_query (c : sender) (d : callback_data) : M World unit :=
  try_catch
    (match d with
     | CbOther => answerCbQuery None
     | CbAnsInvalid =>
         let* sid := getOrCreateSession (from_id c) in
         throw invalid_text_representation
     | CbAns qid chosen =>
         let* sid := getOrCreateSession (from_id c) in
         insert_choice sid qid chosen ;;
         answerCbQuery (Some CbRecorded) ;;
         let* q := nextQuestion sid in
         askQuestion c sid q
     end)
    (fun _ => answerCbQuery (Some CbError)).

(** [bot.on('text', ...)] *)
Definition on_text (c : sender) (msg : jsstring) : M World unit :=
  let* st := query (fun w => awaitingText w !! from_id c) in
  match st with
  | None => ret tt
  | Some st =>
      modify (set_awaitingText (delete (from_id c))) ;;
      insert_text (sessionId st) (questionId st) (slice msg 0 (Some 2000)) ;;
      let* q := nextQuestion (sessionId st) in
      askQuestion c (sessionId st) q
  end.

(** [bot.start(...)] *)
Definition on_start (c : sender) : M World unit :=
  let* rows := query (select_member (from_id c)) in
  match rows with
  | _ :: _ =>
      let* code := ensureCodeFormat (from_id c) in
      reply (TMember code) memberKeyboard
  | [] => reply TWelcome startKeyboard
  end.

(** The labels of the three reply-keyboard buttons, which [bot.hears]
    compares with the text of a message: a memo, a key and a target emoji,
    each followed by its Persian caption. *)
Definition label_register : jsstring :=
  [55357; 56541; 32; 1579; 1576; 1578; 8204; 1606; 1575; 1605].
Definition label_mycode : jsstring :=
  [55357; 56593; 32; 1705; 1615; 1583; 32; 1605; 1606].
Definition label_start_screening : jsstring :=
  [55356; 57263; 32; 1588; 1585; 1608; 1593; 32; 1711; 1586; 1740; 1606; 1588].

(** What a user can send.  A text message comes with or without a command:
    Telegraf's [start] and [command] look at the [bot_command] entity that
    Telegram puts at offset 0 of a message, and [cmd] is the command that
    entity names ([/start], [/findcode], ...); [hears] and [on('text')] look
    at the text.  A press on an inline button brings its payload. *)
Inductive update :=
| UCommand (cmd : jsstring) (msg : jsstring)
| UMessage (msg : jsstring)
| UCallbackQuery (d : callback_data).

(** The updates that the three buttons send. *)
Definition URegister : update := UMessage label_register.
Definition UMyCode : update := UMessage label_mycode.
Definition UStartScreening : update := UMessage label_start_screening.

(** The middlewares that look at the text, in the order in which they are
    registered: the three [hears] of the labels, [hears(CODE_REGEX)], then
    [on('text')].  A handler that ran does not pass the update on, and
    [on('text')] takes every text message: [command('members')] and
    [command('findcode')], registered after it, are never reached. *)
Definition on_message (c : sender) (msg : jsstring) : M World unit :=
  if bool_decide (msg = label_register) then handleRegister c
  else if bool_decide (msg = label_mycode) then handleMyCode c
  else if bool_decide (msg = label_start_screening) then startScreeningWithCode c
  else if CODE_REGEX_test msg then on_code c msg
  else on_text c msg.

(** The middleware chain: [start], [command('register')] and
    [command('mycode')] come first, then the middlewares on the text, and
    [on('callback_query')] takes the button presses. *)
Definition handle (c : sender) (u : update) : M World unit :=
  match u with
  | UCommand cmd msg =>
      if bool_decide (cmd = js "/start") then on_start c
      else if bool_decide (cmd = js "/register") then handleRegister c
      else if bool_decide (cmd = js "/mycode") then handleMyCode c
      else on_message c msg
  | UMessage msg => on_message c msg
  | UCallbackQuery d => on_callback_query c d
  end.

(** Handle a sequence of updates, each with its sender; a handler that
    throws leaves the world as it was when it threw. *)
Fixpoint run (us : list (sender * update)) (w : World) : World :=
  match us with
  | [] => w
  | (c, u) :: us' => run us' (snd (handle c u w))
  end.

(** The answer rows of [w] are still there in [w'], in front. *)
Definition answers_grow (w w' : World) : Prop :=
  screening_answers w `prefix_of` screening_answers w'.

(** *** Start-up repair of the codes *)

(** [my_code IS NULL OR my_code !~ '^[A-Z][0-9]{6}$'] *)
Definition needs_fix (m : member) : bool :=
  match my_code m with
  | None => true
  | Some c => negb (CODE_REGEX_test c)
  end.

(** [for (const r of needFix) { code = await generateUniqueCode();
     UPDATE members SET my_code=$1 WHERE tg_id=$2 }] *)
Fixpoint backfill (needFix : list member) : M World unit :=
  match needFix with
  | [] => ret tt
  | r :: rest =>
      let* code := generateUniqueCode in
      update_my_code code (tg_id r) ;;
      backfill rest
  end.

(** [initDb]: the [CREATE TABLE IF NOT EXISTS] statements leave existing
    tables as they are; then every member without a well-formed code gets a
    new one. *)
Definition initDb : M World unit :=
  let* needFix := query (fun w => filter (fun m => needs_fix m = true) (members w)) in
  backfill needFix.

(** *** What the tables satisfy *)

(** The computation keeps [I], whether it returns or throws, and what it
    returns satisfies [Q]. *)
Definition maintains {A} (I : World -> Prop) (m : M World A) (Q : A -> Prop) : Prop :=
  forall w, I w ->
    I (snd (m w)) /\ match fst (m w) with Ok a => Q a | Throw _ => True end.

(** Members: distinct Telegram ids, distinct codes, every code well formed. *)
Definition codes_ok (w : World) : Prop :=
  NoDup (tg_id <$> members w)
  /\ NoDup (my_code <$> members w)
  /\ Forall (fun m => needs_fix m = false) (members w).

(** Sessions and answers: one session per member, each owned by a member;
    distinct ids; each answer in a session of the table and for a question
    of the catalog. *)
Definition links_ok (w : World) : Prop :=
  NoDup (s_tg_id <$> screening_sessions w)
  /\ NoDup (s_id <$> screening_sessions w)
  /\ NoDup (a_id <$> screening_answers w)
  /\ (forall s, s ∈ screening_sessions w -> s_tg_id s ∈ tg_id <$> members w)
  /\ (forall a, a ∈ screening_answers w ->
        session_id a ∈ s_id <$> screening_sessions w
        /\ question_id a ∈ q_id <$> screening_questions w).

(** User [x] has the same member row and the same awaited answer in [w']
    as in [w]. *)
Definition untouched (x : Z) (w w' : World) : Prop :=
  select_member x w' = select_member x w
  /\ awaitingText w' !! x = awaitingText w !! x.

End ScreeningBot.


(** ** The code-format bot *)

Module CodeFormatBot.

Record member := mkMember {
  tg_id : Z;
  username : option jsstring;
  first_name : option jsstring;
  last_name : option jsstring;
  joined_at : Z;
  my_code : option jsstring
}.

Record World := mkWorld {
  members : list member;
  rng : Rand
}.

Definition generateUniqueCode : M World jsstring :=
  fun w =>
    let (c, r) := CodeGen.CodeFormat.generateUniqueCode my_code (members w) (rng w) in
    (Ok c, mkWorld (members w) r).

(** [SELECT my_code FROM members WHERE tg_id = $1] *)
Definition select_member (tgId : Z) (w : World) : list member :=
  filter (fun m => tg_id m = tgId) (members w).

Definition with_code (c : jsstring) (m : member) : member :=
  mkMember (tg_id m) (username m) (first_name m) (last_name m) (joined_at m) (Some c).

(** [UPDATE members SET my_code = $1 WHERE tg_id = $2]; [my_code] is UNIQUE. *)
Definition update_my_code (c : jsstring) (tgId : Z) : M World unit :=
  fun w =>
    if bool_decide (select_member tgId w <> [])
       && bool_decide (filter (fun m => my_code m = Some c /\ tg_id m <> tgId) (members w) <> [])
    then (Throw unique_violation, w)
    else (Ok tt,
          mkWorld ((fun m => if bool_decide (tg_id m = tgId) then with_code c m else m)
                     <$> members w) (rng w)).

Definition ensureCodeFormat (tgId : Z) : M World (option jsstring) :=
  let* rows := query (select_member tgId) in
  match rows with
  | [] => ret None
  | row :: _ =>
      let regenerate :=
        let* newCode := generateUniqueCode in
        update_my_code newCode tgId ;;
        ret (Some newCode) in
      match my_code row with
      | Some current =>
          if truthy current && CODE_REGEX_test current then ret (Some current)
          else regenerate
      | None => regenerate
      end
  end.

End CodeFormatBot.


(** ** The invitation-code bot *)

Module InviteBot.

Record membership_code := mkCode {
  code : jsstring;
  allowed_uses : Z;
  used_count : Z;
  expires_at : option Z;
  note : option jsstring;
  created_by : option Z;
  created_at : Z;
  active : bool
}.

Record member := mkMember {
  tg_id : Z;
  username : option jsstring;
  first_name : option jsstring;
  last_name : option jsstring;
  joined_at : Z;
  code_used : option jsstring
}.

Record Db := mkDb {
  membership_codes : list membership_code;
  members : list member
}.

Inductive text_out :=
| TRegisterFormat
| TAlreadyMember
| TInvalidCode
| TInactiveCode
| TExpiredCode
| TCodeFull
| TRegistered
| TRegisterError
| TCodeCreated (c : jsstring) (uses : Z) (expires : option Z) (n : option jsstring)
| TRevokeFormat
| TRevoked
| TNoSuchCode.

Record World := mkWorld {
  db : Db;
  (** the tables as they were at [BEGIN], while a transaction is open *)
  txn : option Db;
  ADMIN_SET : gset jsstring;
  rng : Rand;
  (** [NOW()], [new Date()], [Date.now()], in milliseconds *)
  clock : Z;
  sent : list text_out
}.

Definition set_db (d : Db) (w : World) : World :=
  mkWorld d (txn w) (ADMIN_SET w) (rng w) (clock w) (sent w).
Definition set_txn (t : option Db) (w : World) : World :=
  mkWorld (db w) t (ADMIN_SET w) (rng w) (clock w) (sent w).
Definition set_rng (r : Rand) (w : World) : World :=
  mkWorld (db w) (txn w) (ADMIN_SET w) r (clock w) (sent w).
Definition set_clock (now : Z) (w : World) : World :=
  mkWorld (db w) (txn w) (ADMIN_SET w) (rng w) now (sent w).
Definition set_sent (l : list text_out) (w : World) : World :=
  mkWorld (db w) (txn w) (ADMIN_SET w) (rng w) (clock w) l.

Definition reply (t : text_out) : M World unit :=
  modify (fun w => set_sent (sent w ++ [t]) w).

(** [client.query('BEGIN')], [('ROLLBACK')] and [('COMMIT')] *)
Definition BEGIN : M World unit :=
  modify (fun w => set_txn (Some (db w)) w).
Definition ROLLBACK : M World unit :=
  modify (fun w => match txn w with
                   | Some d => set_txn None (set_db d w)
                   | None => w
                   end).
Definition COMMIT : M World unit :=
  modify (set_txn None).

Definition isAdmin (c : sender) : M World bool :=
  query (fun w => bool_decide (toString (from_id c) ∈ ADMIN_SET w)).

(** [SELECT tg_id FROM members WHERE tg_id = $1] *)
Definition select_member (tgId : Z) (w : World) : list member :=
  filter (fun m => tg_id m = tgId) (members (db w)).

(** [SELECT ... FROM membership_codes WHERE code = $1 FOR UPDATE] *)
Definition select_code (c : jsstring) (w : World) : list membership_code :=
  filter (fun r => code r = c) (membership_codes (db w)).

(** The row of a sender who registers with code [cd] at time [now]. *)
Definition new_member (c : sender) (cd : jsstring) (now : Z) : member :=
  mkMember (from_id c) (or_null (from_username c)) (or_null (from_first_name c))
    (or_null (from_last_name c)) now (Some cd).

(** [INSERT INTO members (tg_id, username, first_name, last_name, code_used)];
    [tg_id] is the primary key and [code_used] references [membership_codes]. *)
Definition insert_member (c : sender) (cd : jsstring) : M World unit :=
  fun w =>
    if bool_decide (select_member (from_id c) w <> [])
    then (Throw unique_violation, w)
    else if bool_decide (select_code cd w = [])
    then (Throw foreign_key_violation, w)
    else (Ok tt,
          set_db (mkDb (membership_codes (db w))
                    (members (db w) ++ [new_member c cd (clock w)])) w).

Definition bump (r : membership_code) : membership_code :=
  mkCode (code r) (allowed_uses r) (used_count r + 1) (expires_at r) (note r)
    (created_by r) (created_at r) (active r).

(** [UPDATE membership_codes SET used_count = used_count + 1 WHERE code = $1];
    the handler reaches it only below [allowed_uses], itself an [INT]. *)
Definition increment_used (cd : jsstring) : M World unit :=
  modify (fun w =>
    set_db (mkDb ((fun r => if bool_decide (code r = cd) then bump r else r)
                    <$> membership_codes (db w))
              (members (db w))) w).

(** The world after a redemption that was refused with message [t]: the
    tables are as they were. *)
Definition refused (t : text_out) (w : World) : World :=
  mkWorld (db w) None (ADMIN_SET w) (rng w) (clock w) (sent w ++ [t]).

(** The world after sender [c] redeemed code [cd]. *)
Definition redeemed (c : sender) (cd : jsstring) (w : World) : World :=
  mkWorld
    (mkDb ((fun r => if bool_decide (code r = cd) then bump r else r)
             <$> membership_codes (db w))
       (members (db w) ++ [new_member c cd (clock w)]))
    None (ADMIN_SET w) (rng w) (clock w) (sent w ++ [TRegistered]).

(** [row.expires_at && new Date(row.expires_at) < new Date()] *)
Definition expired (r : membership_code) (now : Z) : bool :=
  match expires_at r with
  | None => false
  | Some e => e <? now
  end.

(** [bot.command('register', ...)]; [cd] is [parts[1]?.toUpperCase()]. *)
Definition register (c : sender) (cd : option jsstring) : M World unit :=
  match or_null cd with
  | None => reply TRegisterFormat
  | Some cd =>
      try_catch
        (BEGIN ;;
         let* me := query (select_member (from_id c)) in
         match me with
         | _ :: _ => ROLLBACK ;; reply TAlreadyMember
         | [] =>
             let* q := query (select_code cd) in
             match q with
             | [] => ROLLBACK ;; reply TInvalidCode
             | row :: _ =>
                 let* now := query clock in
                 if negb (active row) then ROLLBACK ;; reply TInactiveCode
                 else if expired row now then ROLLBACK ;; reply TExpiredCode
                 else if used_count row >=? allowed_uses row then ROLLBACK ;; reply TCodeFull
                 else
                   insert_member c cd ;;
                   increment_used cd ;;
                   COMMIT ;;
                   reply TRegistered
             end
         end)
        (fun _ => ROLLBACK ;; reply TRegisterError)
  end.

(** [genCode(len)]: [len] letters of the 32-letter alphabet, one random index each. *)
Definition abc : jsstring := js "ABCDEFGHJKLMNPQRSTUVWXYZ23456789".

Fixpoint genCode_loop (len : nat) (out : jsstring) (r : Rand) : jsstring * Rand :=
  match len with
  | O => (out, r)
  | S len' =>
      let (i, r1) := randomInt 32 r in
      genCode_loop len' (out ++ [nth (Z.to_nat i) abc 0]) r1
  end.

Definition genCode (len : nat) : M World jsstring :=
  fun w => let (c, r) := genCode_loop len [] (rng w) in (Ok c, set_rng r w).

(** [parseInt(arg || dflt, 10) || dflt], for [dflt] 0 or 1; [None] is an
    argument that is absent or does not parse. *)
Definition int_or (arg : option Z) (dflt : Z) : Z :=
  match arg with
  | None => dflt
  | Some n => if n =? 0 then dflt else n
  end.

(** A parameter that may be [null]. *)
Definition nullable {A B} (f : A -> outcome B) (x : option A) : outcome (option B) :=
  match x with
  | None => Ok None
  | Some a => match f a with Ok b => Ok (Some b) | Throw e => Throw e end
  end.

(** [INSERT INTO membership_codes(code, allowed_uses, expires_at, note, created_by)]:
    the parameters are read in their order ([allowed_uses] is an [INT],
    [expires_at] a [TIMESTAMPTZ], [note] a [TEXT]); [code] is the primary
    key, the other columns take their defaults. *)
Definition insert_code (cd : jsstring) (uses : Z) (expires : option date)
    (n : option jsstring) (by_ : Z) : M World unit :=
  fun w =>
    if negb (int4 uses) then (Throw numeric_value_out_of_range, w)
    else
      match nullable date_param expires with
      | Throw e => (Throw e, w)
      | Ok expires_at =>
          match nullable text_param n with
          | Throw e => (Throw e, w)
          | Ok note =>
              if bool_decide (select_code cd w <> []) then (Throw unique_violation, w)
              else (Ok tt,
                    set_db (mkDb (membership_codes (db w) ++
                                    [mkCode cd uses 0 expires_at note (Some by_)
                                       (clock w) true])
                              (members (db w))) w)
          end
      end.

(** [d.toISOString()], as the time it prints. *)
Definition toISOString (d : date) : M World Z :=
  match d with
  | Date t => ret t
  | InvalidDate => throw RangeError
  end.

(** [bot.command('gencode', ...)] *)
Definition gencode (c : sender) (uses_arg mins_arg : option Z)
    (note_arg : option jsstring) : M World unit :=
  let* admin := isAdmin c in
  if negb admin then ret tt
  else
    let uses := Z.max 1 (int_or uses_arg 1) in
    let mins := Z.max 0 (int_or mins_arg 0) in
    let n := or_null note_arg in
    let* cd := genCode 10 in
    let* now := query clock in
    let expires_at := if mins =? 0 then None else Some (new_Date (now + mins * 60 * 1000)) in
    insert_code cd uses expires_at n (from_id c) ;;
    let* shown :=
      match expires_at with
      | Some d => let* t := toISOString d in ret (Some t)
      | None => ret None
      end in
    reply (TCodeCreated cd uses shown n).

Definition deactivate (r : membership_code) : membership_code :=
  mkCode (code r) (allowed_uses r) (used_count r) (expires_at r) (note r)
    (created_by r) (created_at r) false.

(** [bot.command('revoke', ...)] *)
Definition revoke (c : sender) (cd : option jsstring) : M World unit :=
  let* admin := isAdmin c in
  if negb admin then ret tt
  else
    match or_null cd with
    | None => reply TRevokeFormat
    | Some cd =>
        let* rowCount := query (fun w => length (select_code cd w)) in
        modify (fun w =>
          set_db (mkDb ((fun r => if bool_decide (code r = cd) then deactivate r else r)
                          <$> membership_codes (db w))
                    (members (db w))) w) ;;
        reply (if bool_decide (rowCount = 0%nat) then TNoSuchCode else TRevoked)
    end.

(** The commands that read or write the two tables. *)
Inductive update :=
| URegister (cd : option jsstring)
| UGencode (uses_arg mins_arg : option Z) (note_arg : option jsstring)
| URevoke (cd : option jsstring).

Definition handle (c : sender) (u : update) : M World unit :=
  match u with
  | URegister cd => register c cd
  | UGencode u m n => gencode c u m n
  | URevoke cd => revoke c cd
  end.

(** The world after the bot handled update [u] of sender [c] at time [now]. *)
Definition deliver (now : Z) (c : sender) (u : update) (w : World) : World :=
  snd (handle c u (set_clock now w)).

(** The worlds the bot can be in: it starts on the empty tables that
    [initDb] creates, and handles one update after the other. *)
Inductive reachable : World -> Prop :=
| reachable_init admins r now :
    reachable (mkWorld (mkDb [] []) None admins r now [])
| reachable_step w now c u :
    reachable w -> reachable (deliver now c u w).

(** The number of members that registered with code [cd]. *)
Definition members_using (cd : jsstring) (d : Db) : nat :=
  length (filter (fun m => code_used m = Some cd) (members d)).

(** What the tables satisfy between two updates: codes are distinct, every
    member's code is in the codes table, and each code's [used_count] is the
    number of members that registered with it and is at most [allowed_uses]. *)
Definition consistent (d : Db) : Prop :=
  NoDup (code <$> membership_codes d)
  /\ (forall m cd, m ∈ members d -> code_used m = Some cd ->
                   cd ∈ code <$> membership_codes d)
  /\ (forall r, r ∈ membership_codes d ->
                used_count r = Z.of_nat (members_using (code r) d)
                /\ used_count r <= allowed_uses r).

(** Handle a sequence of updates, each with its time and its sender. *)
Fixpoint run (us : list (Z * sender * update)) (w : World) : World :=
  match us with
  | [] => w
  | (now, c, u) :: us' => run us' (deliver now c u w)
  end.

(** What an admin decides about a code: its text, capacity, expiry and
    whether it is active. *)
Definition code_policy (r : membership_code)
    : jsstring * Z * option Z * bool :=
  (code r, allowed_uses r, expires_at r, active r).

(** The row that [gencode] inserts for admin [c] in world [w], when
    PostgreSQL accepts it. *)
Definition minted (c : sender) (uses_arg mins_arg : option Z)
    (note_arg : option jsstring) (w : World) : membership_code :=
  let mins := Z.max 0 (int_or mins_arg 0) in
  mkCode (fst (genCode_loop 10 [] (rng w)))
    (Z.max 1 (int_or uses_arg 1))
    0
    (if mins =? 0 then None else Some (clock w + mins * 60 * 1000))
    (toWellFormed <$> or_null note_arg) (Some (from_id c)) (clock w) true.

(** The order of [ORDER BY created_at DESC]. *)
Definition newer (a b : membership_code) : Prop := created_at b <= created_at a.

#[global] Instance newer_dec : RelDecision newer :=
  fun a b => decide (created_at b <= created_at a).

(** One line of the [/codes] listing: code, remaining uses, expiry, note. *)
Definition code_line (r : membership_code)
    : jsstring * Z * option Z * option jsstring :=
  (code r, allowed_uses r - used_count r, expires_at r, note r).

(** [bot.command('codes', ...)], as the lines it replies with: [None] when
    it stays silent (the sender is no admin), [Some []] when it replies that
    there is no active code.
    [SELECT ... FROM membership_codes WHERE active = TRUE
     ORDER BY created_at DESC LIMIT 20] *)
Definition codes (c : sender) (w : World)
    : option (list (jsstring * Z * option Z * option jsstring)) :=
  if negb (bool_decide (toString (from_id c) ∈ ADMIN_SET w)) then None
  else
    let rows :=
      take 20 (merge_sort newer
                 (filter (fun r => active r = true) (membership_codes (db w)))) in
    Some (code_line <$> rows).

(** [bot.command('whoami', ...)], as what it reports: the code used and the
    join time of the sender's row, or [None] for "not a member yet". *)
Definition whoami (c : sender) (w : World) : option (option jsstring * Z) :=
  match select_member (from_id c) w with
  | m :: _ => Some (code_used m, joined_at m)
  | [] => None
  end.

End InviteBot.



(** ** Concrete inputs *)

Module Examples.

(** A random source whose every draw is 0: every candidate is [A000000]. *)
Definition zeros : Rand := mkRand (fun _ => 0) 0.

(** A random source that draws 0 seven times and 1 from then on: the first
    candidate is [A000000], the second [B111111]. *)
Definition zeros_then_ones : Rand := mkRand (fun n => if (n <? 7)%nat then 0 else 1) 0.

(** The sender of the examples: the member with [tg_id] 7. *)
Definition member7 : sender := mkSender 7 None None None.

(** One member, who holds the code [A000000]. *)
Definition one_member : list ScreeningBot.member :=
  [ScreeningBot.mkMember 7 None None None 0 (Some (js "A000000")) (js "pending")].

Definition five_options : option (list jsstring) :=
  Some [js "a"; js "b"; js "c"; js "d"; js "e"].

Definition question1 : ScreeningBot.question :=
  ScreeningBot.mkQuestion 1 (js "Q1") ScreeningBot.mcq five_options None.
Definition question2 : ScreeningBot.question :=
  ScreeningBot.mkQuestion 2 (js "Q2") ScreeningBot.mcq five_options None.

(** A catalog of two multiple-choice questions. *)
Definition two_questions : list ScreeningBot.question := [question1; question2].

(** The screening bot with one member, two questions and no session yet. *)
Definition screening_world : ScreeningBot.World :=
  ScreeningBot.mkWorld one_member two_questions [] [] 1 1 ∅ zeros 1000 [].

(** The prompt for the first question of [two_questions]. *)
Definition q1_prompt : ScreeningBot.outgoing :=
  ScreeningBot.Reply (ScreeningBot.TQuestion (js "Q1"))
    (ScreeningBot.inlineKeyboard
       [(js "a", ScreeningBot.CbAns 1 0); (js "b", ScreeningBot.CbAns 1 1);
        (js "c", ScreeningBot.CbAns 1 2); (js "d", ScreeningBot.CbAns 1 3);
        (js "e", ScreeningBot.CbAns 1 4)]).

(** Two multiple-choice questions and a free-text one. *)
Definition three_questions : list ScreeningBot.question :=
  two_questions ++ [ScreeningBot.mkQuestion 3 (js "Q3") ScreeningBot.text None None].

(** Session 1 of member 7 with every question answered: option index 4 for
    question 1, option index 2 for question 2, a text for question 3. *)
Definition all_answered_world : ScreeningBot.World :=
  ScreeningBot.mkWorld one_member three_questions
    [ScreeningBot.mkSession 1 7 900 None 0 None]
    [ScreeningBot.mkAnswer 1 1 1 None (Some 4) None;
     ScreeningBot.mkAnswer 2 1 2 None (Some 2) None;
     ScreeningBot.mkAnswer 3 1 3 (Some (js "hi")) None None]
    2 4 ∅ zeros 1000 [].

(** Member 7 presses the last button of question [qid]. *)
Definition last_option (qid : Z) : sender * ScreeningBot.update :=
  (member7, ScreeningBot.UCallbackQuery (ScreeningBot.CbAns qid 4)).

(** Member 7 sends the code. *)
Definition send_code : sender * ScreeningBot.update :=
  (member7, ScreeningBot.UMessage (js "A000000")).

(** A user sends the command [/start]. *)
Definition start_command (c : sender) : sender * ScreeningBot.update :=
  (c, ScreeningBot.UCommand (js "/start") (js "/start")).

(** Member 7 presses the start-screening button. *)
Definition start_screening : sender * ScreeningBot.update :=
  (member7, ScreeningBot.UStartScreening).

(** The member sends the code twice before answering. *)
Definition code_sent_twice : ScreeningBot.World :=
  ScreeningBot.run [send_code; send_code] screening_world.

(** The member sends the code and presses the last button of question 1. *)
Definition after_first_answer : ScreeningBot.World :=
  ScreeningBot.run [send_code; last_option 1] screening_world.

(** The member sends the code and presses the last button of each question. *)
Definition after_finish : ScreeningBot.World :=
  ScreeningBot.run [send_code; last_option 1; last_option 2] screening_world.

(** The same, with the button of question 1 pressed twice. *)
Definition after_double_press : ScreeningBot.World :=
  ScreeningBot.run [send_code; last_option 1; last_option 1; last_option 2]
    screening_world.

(** The member waits to answer the free-text question 3 of session 1. *)
Definition awaiting_world : ScreeningBot.World :=
  ScreeningBot.mkWorld one_member three_questions
    [ScreeningBot.mkSession 1 7 900 None 0 None]
    [ScreeningBot.mkAnswer 1 1 1 None (Some 4) None;
     ScreeningBot.mkAnswer 2 1 2 None (Some 2) None]
    2 3 {[ 7 := ScreeningBot.mkAwaiting 1 3 ]} zeros 1000 [].

(** A message of 1999 letters [a] and one emoji, which takes two code units. *)
Definition split_pair_message : jsstring := replicate 1999 97 ++ [55357; 56832].

(** The member of [screening_world] with another screening status. *)
Definition world_with_status (st : jsstring) : ScreeningBot.World :=
  ScreeningBot.mkWorld
    [ScreeningBot.mkMember 7 None None None 0 (Some (js "A000000")) st]
    two_questions [] [] 1 1 ∅ zeros 1000 [].
Definition passed_world : ScreeningBot.World := world_with_status (js "passed").
Definition failed_world : ScreeningBot.World := world_with_status (js "failed").

(** Member 7 holds a malformed code, member 9 holds [A000000]; the random
    source draws the candidates [A000000], then [B111111]. *)
Definition malformed_world : ScreeningBot.World :=
  ScreeningBot.mkWorld
    [ScreeningBot.mkMember 7 None None None 0 (Some (js "old-code")) (js "pending");
     ScreeningBot.mkMember 9 None None None 0 (Some (js "A000000")) (js "pending")]
    two_questions [] [] 1 1 ∅ zeros_then_ones 1000 [].

(** A user who never registered. *)
Definition stranger : sender := mkSender 8 None None None.

(** The same member in the code-format bot. *)
Definition codeformat_world : CodeFormatBot.World :=
  CodeFormatBot.mkWorld
    [CodeFormatBot.mkMember 7 None None None 0 (Some (js "A000000"))] zeros.

(** A member of the code-format bot whose code is null. *)
Definition codeformat_malformed : CodeFormatBot.World :=
  CodeFormatBot.mkWorld [CodeFormatBot.mkMember 7 None None None 0 None] zeros.

(** The invitation-code bot on its empty tables, with admin 1. *)
Definition admin1 : sender := mkSender 1 None None None.
Definition invite_start : InviteBot.World :=
  InviteBot.mkWorld (InviteBot.mkDb [] []) None {[ js "1" ]} zeros 0 [].

(** The code that [genCode] draws from [zeros]. *)
Definition code_A : jsstring := js "AAAAAAAAAA".

(** Admin 1 has minted a code for one use; it is now time 20. *)
Definition invite_minted : InviteBot.World :=
  InviteBot.set_clock 20
    (InviteBot.deliver 10 admin1 (InviteBot.UGencode (Some 1) None None) invite_start).

(** Admin 1 mints a code for one use; member 7 and then user 8 redeem it. *)
Definition invite_two_redeemers : InviteBot.World :=
  InviteBot.deliver 30 stranger (InviteBot.URegister (Some code_A))
    (InviteBot.deliver 20 member7 (InviteBot.URegister (Some code_A))
       (InviteBot.deliver 10 admin1 (InviteBot.UGencode (Some 1) None None)
          invite_start)).

End Examples.

(** * Properties *)

(** ** Code generation *)

Module CodeGenFacts.
Import CodeGen.

Lemma randomInt_range max r :
  0 < max -> 0 <= fst (randomInt max r) < max.
Proof. intros Hmax. simpl. apply Z.mod_pos_bound. exact Hmax. Qed.

Lemma toString_digit d : 0 <= d < 10 -> toString d = [48 + d].
Proof.
  intros Hd. unfold toString.
  destruct (Z.ltb_spec d 0) as [Hneg|_]; [lia|].
  simpl. rewrite Z.div_small by lia. rewrite Z.mod_small by lia. reflexivity.
Qed.

Lemma is_digit_of d : 0 <= d < 10 -> is_digit (48 + d) = true.
Proof. intros Hd. unfold is_digit. apply andb_true_intro. split; apply Z.leb_le; lia. Qed.

Lemma all_digits_app s t : all_digits s -> all_digits t -> all_digits (s ++ t).
Proof. unfold all_digits. rewrite forallb_app. intros -> ->. reflexivity. Qed.

Lemma randomInt10_digit r :
  let d := fst (randomInt 10 r) in toString d = [48 + d] /\ is_digit (48 + d) = true.
Proof.
  intros d. pose proof (randomInt_range 10 r ltac:(lia)) as Hd. fold d in Hd.
  split; [apply toString_digit | apply is_digit_of]; exact Hd.
Qed.

Lemma randomDigits_loop_spec n : forall s r,
  all_digits s ->
  all_digits (fst (randomDigits_loop n s r))
  /\ length (fst (randomDigits_loop n s r)) = (length s + n)%nat.
Proof.
  induction n as [|n IH]; intros s r Hs.
  - simpl. split; [exact Hs | lia].
  - cbn [randomDigits_loop].
    destruct (randomInt10_digit r) as [Hstr Hdig].
    destruct (randomInt 10 r) as [d r1] eqn:E. cbn [fst] in Hstr, Hdig.
    assert (Hs' : all_digits (s ++ toString d)).
    { apply all_digits_app; [exact Hs|]. rewrite Hstr. unfold all_digits. simpl.
      rewrite Hdig. reflexivity. }
    destruct (IH (s ++ toString d) r1 Hs') as [IH1 IH2]. split; [exact IH1|].
    rewrite IH2, length_app, Hstr. simpl. lia.
Qed.

Lemma randomDigits_spec n r :
  all_digits (fst (randomDigits n r)) /\ length (fst (randomDigits n r)) = n.
Proof.
  unfold randomDigits. destruct (randomDigits_loop_spec n [] r eq_refl) as [H1 H2].
  split; [exact H1 | exact H2].
Qed.

Lemma array_from_spec n : forall r,
  all_digits (join_empty (fst (array_from_randomInt10 n r)))
  /\ length (join_empty (fst (array_from_randomInt10 n r))) = n.
Proof.
  induction n as [|n IH]; intros r.
  - split; reflexivity.
  - cbn [array_from_randomInt10].
    destruct (randomInt10_digit r) as [Hstr Hdig].
    destruct (randomInt 10 r) as [d r1] eqn:E. cbn [fst] in Hstr, Hdig.
    destruct (IH r1) as [IH1 IH2].
    destruct (array_from_randomInt10 n r1) as [ds r2]. cbn [fst] in *.
    unfold join_empty in *. cbn [fmap list_fmap concat]. rewrite Hstr. cbn [app].
    split.
    + unfold all_digits in *. cbn [forallb]. rewrite Hdig, IH1. reflexivity.
    + cbn [length]. rewrite IH2. reflexivity.
Qed.

Lemma randomDigits_join_spec n r :
  all_digits (fst (randomDigits_join n r)) /\ length (fst (randomDigits_join n r)) = n.
Proof.
  unfold randomDigits_join. pose proof (array_from_spec n r) as H.
  destruct (array_from_randomInt10 n r) as [arr r1]. exact H.
Qed.

(** The two spellings of [randomDigits] read the source alike. *)
Lemma randomDigits_loop_join n : forall s r,
  randomDigits_loop n s r =
  (s ++ fst (randomDigits_join n r), snd (randomDigits_join n r)).
Proof.
  unfold randomDigits_join. induction n as [|n IH]; intros s r.
  - simpl. rewrite app_nil_r. reflexivity.
  - cbn [randomDigits_loop array_from_randomInt10].
    destruct (randomInt 10 r) as [d r1]. rewrite IH.
    destruct (array_from_randomInt10 n r1) as [ds r2]. cbn [fst snd].
    unfold join_empty. cbn [fmap list_fmap concat]. rewrite <- app_assoc. reflexivity.
Qed.

Lemma randomLetterAZ_spec r :
  exists c, fst (randomLetterAZ r) = [c] /\ is_upper c = true.
Proof.
  unfold randomLetterAZ.
  pose proof (randomInt_range 26 r ltac:(lia)) as Hn.
  destruct (randomInt 26 r) as [n r1]. cbn [fst] in *.
  exists (65 + n). unfold fromCharCode. rewrite Z.mod_small by lia.
  split; [reflexivity|]. unfold is_upper. apply andb_true_intro.
  split; apply Z.leb_le; lia.
Qed.

Lemma code_shape c ds :
  is_upper c = true -> all_digits ds -> length ds = 6%nat ->
  CODE_REGEX_test ([c] ++ ds) = true.
Proof.
  intros Hc Hds Hlen. unfold CODE_REGEX_test. cbn [app].
  rewrite Hc, Hlen, Hds. reflexivity.
Qed.

Section Shape.
Context {member : Type} (my_code : member -> option jsstring).
Variable digits : nat -> Rand -> jsstring * Rand.
Hypothesis digits_spec : forall n r,
  all_digits (fst (digits n r)) /\ length (fst (digits n r)) = n.

Lemma randomCodeAZ6_shape r :
  CODE_REGEX_test (fst (randomCodeAZ6 digits r)) = true.
Proof.
  unfold randomCodeAZ6.
  destruct (randomLetterAZ_spec r) as (c & Hc & Hup).
  destruct (randomLetterAZ r) as [l r1]. cbn [fst] in Hc. subst l.
  destruct (digits_spec 6%nat r1) as [Hd Hl].
  destruct (digits 6%nat r1) as [ds r2]. cbn [fst] in *.
  apply code_shape; assumption.
Qed.

Lemma generate_loop_shape fallback members n : forall r,
  (forall r', CODE_REGEX_test (fst (fallback r')) = true) ->
  CODE_REGEX_test (fst (generate_loop my_code digits fallback members n r)) = true.
Proof.
  induction n as [|n IH]; intros r Hfb.
  - simpl. apply Hfb.
  - cbn [generate_loop].
    pose proof (randomCodeAZ6_shape r) as Hc.
    destruct (randomCodeAZ6 digits r) as [c r1]. cbn [fst] in Hc.
    destruct (code_taken my_code members c).
    + apply IH. exact Hfb.
    + exact Hc.
Qed.
End Shape.

Lemma slice_tail (s : jsstring) : slice s 1 None = drop 1 s.
Proof.
  unfold slice. change (1 <? 0) with false. cbv iota.
  destruct s as [|c s]; [reflexivity|].
  assert (Hmin : Z.min 1 (Z.of_nat (length (c :: s))) = 1) by (cbn [length]; lia).
  rewrite Hmin. change (Z.to_nat 1) with 1%nat. cbn [drop].
  replace (Z.to_nat (Z.max (Z.of_nat (length (c :: s)) - 1) 0)) with (length s)
    by (cbn [length]; lia).
  apply firstn_all.
Qed.

Lemma ServerJs_fallback_shape r :
  CODE_REGEX_test (fst (ServerJs.fallback r)) = true.
Proof.
  unfold ServerJs.fallback.
  destruct (randomLetterAZ_spec r) as (c & Hc & Hup).
  destruct (randomLetterAZ r) as [l r1]. cbn [fst] in Hc. subst l.
  destruct (randomDigits_spec 7 r1) as [Hd Hl].
  destruct (randomDigits 7 r1) as [ds r2]. cbn [fst] in *.
  rewrite slice_tail. destruct ds as [|d ds]; [discriminate|].
  change (drop 1 (d :: ds)) with ds. apply code_shape.
  - exact Hup.
  - unfold all_digits in *. cbn [forallb] in Hd.
    apply andb_prop in Hd. apply Hd.
  - cbn [length] in Hl. congruence.
Qed.

Lemma CodeFormat_fallback_shape r :
  CODE_REGEX_test (fst (CodeFormat.fallback r)) = true.
Proof. apply (randomCodeAZ6_shape randomDigits randomDigits_spec). Qed.

Lemma generateUniqueCode_shapes
    {member : Type} (my_code : member -> option jsstring)
    (members : list member) (r : Rand) :
  CODE_REGEX_test (fst (ServerJs.generateUniqueCode my_code members r)) = true
  /\ CODE_REGEX_test (fst (Screening.generateUniqueCode my_code members r)) = true
  /\ CODE_REGEX_test (fst (CodeFormat.generateUniqueCode my_code members r)) = true.
Proof.
  split; [|split].
  - apply generate_loop_shape; [exact randomDigits_spec | exact ServerJs_fallback_shape].
  - apply generate_loop_shape; [exact randomDigits_join_spec |].
    intros r'. apply randomCodeAZ6_shape. exact randomDigits_join_spec.
  - apply generate_loop_shape; [exact randomDigits_spec | exact CodeFormat_fallback_shape].
Qed.

(** C7: every string [generateUniqueCode] returns matches [^[A-Z][0-9]{6}$],
    in [server.js], in the screening bot and in the code-format bot, whether
    it comes from the retry loop or from the statement after the loop, for
    every members table and every random source. *)
Theorem generateUniqueCode_matches_CODE_REGEX
    {member : Type} (my_code : member -> option jsstring)
    (members : list member) (r : Rand) :
  CODE_REGEX_test (fst (ServerJs.generateUniqueCode my_code members r)) = true
  /\ CODE_REGEX_test (fst (Screening.generateUniqueCode my_code members r)) = true
  /\ CODE_REGEX_test (fst (CodeFormat.generateUniqueCode my_code members r)) = true.
Proof.
  split; [|split].
  - apply generate_loop_shape; [exact randomDigits_spec | exact ServerJs_fallback_shape].
  - apply generate_loop_shape; [exact randomDigits_join_spec |].
    intros r'. apply randomCodeAZ6_shape. exact randomDigits_join_spec.
  - apply generate_loop_shape; [exact randomDigits_spec | exact CodeFormat_fallback_shape].
Qed.

Section Freshness.
Context {member : Type} (my_code : member -> option jsstring).
Variable digits : nat -> Rand -> jsstring * Rand.
Variable fallback : Rand -> jsstring * Rand.
Variable members : list member.

Lemma generate_loop_fresh n : forall r,
  Exists (fun c => code_taken my_code members c = false) (attempts digits n r) ->
  code_taken my_code members
    (fst (generate_loop my_code digits fallback members n r)) = false.
Proof.
  induction n as [|n IH]; intros r Hex.
  - simpl in Hex. inversion Hex.
  - cbn [generate_loop attempts] in *.
    destruct (randomCodeAZ6 digits r) as [c r1].
    destruct (code_taken my_code members c) eqn:Htaken.
    + apply IH. inversion Hex as [? ? Hc|? ? Hrest]; subst.
      * congruence.
      * exact Hrest.
    + exact Htaken.
Qed.

Lemma generate_loop_exhausted n : forall r,
  Forall (fun c => code_taken my_code members c = true) (attempts digits n r) ->
  generate_loop my_code digits fallback members n r
  = fallback (after_attempts digits n r).
Proof.
  induction n as [|n IH]; intros r Hall.
  - reflexivity.
  - cbn [generate_loop attempts after_attempts] in *.
    destruct (randomCodeAZ6 digits r) as [c r1]. cbn [snd].
    inversion Hall as [|? ? Hc Hrest]; subst. rewrite Hc. apply IH. exact Hrest.
Qed.
End Freshness.

Lemma randomDigits_join_eq n r : randomDigits_join n r = randomDigits n r.
Proof.
  unfold randomDigits. rewrite randomDigits_loop_join. cbn [app].
  destruct (randomDigits_join n r). reflexivity.
Qed.

Lemma attempts_join n : forall r,
  attempts randomDigits_join n r = attempts randomDigits n r.
Proof.
  induction n as [|n IH]; intros r; [reflexivity|].
  cbn [attempts]. unfold randomCodeAZ6.
  destruct (randomLetterAZ r) as [l r1]. rewrite randomDigits_join_eq.
  destruct (randomDigits 6 r1) as [ds r2]. rewrite IH. reflexivity.
Qed.

(** C3, amended: when at least one of the six candidates of the retry loop
    is not in the members table, [generateUniqueCode] returns a code that is
    not in the table, in each of the three programs.  (After six collisions
    the code returned is not looked up.) *)
Theorem generateUniqueCode_fresh_within_retries
    {member : Type} (my_code : member -> option jsstring)
    (members : list member) (r : Rand) :
  Exists (fun c => code_taken my_code members c = false) (candidates r) ->
  code_taken my_code members
    (fst (ServerJs.generateUniqueCode my_code members r)) = false
  /\ code_taken my_code members
       (fst (Screening.generateUniqueCode my_code members r)) = false
  /\ code_taken my_code members
       (fst (CodeFormat.generateUniqueCode my_code members r)) = false.
Proof.
  unfold candidates. intros Hex. split; [|split].
  - apply generate_loop_fresh. exact Hex.
  - apply generate_loop_fresh. rewrite attempts_join. exact Hex.
  - apply generate_loop_fresh. exact Hex.
Qed.

Lemma generateUniqueCode_fresh_within_retries_witness :
  code_taken ScreeningBot.my_code Examples.one_member
    (fst (ServerJs.generateUniqueCode ScreeningBot.my_code Examples.one_member
            Examples.zeros_then_ones)) = false
  /\ code_taken ScreeningBot.my_code Examples.one_member
       (fst (Screening.generateUniqueCode ScreeningBot.my_code Examples.one_member
               Examples.zeros_then_ones)) = false
  /\ code_taken ScreeningBot.my_code Examples.one_member
       (fst (CodeFormat.generateUniqueCode ScreeningBot.my_code Examples.one_member
               Examples.zeros_then_ones)) = false.
Proof.
  apply (generateUniqueCode_fresh_within_retries ScreeningBot.my_code
           Examples.one_member Examples.zeros_then_ones).
  apply Exists_cons_tl. apply Exists_cons_hd. vm_compute. reflexivity.
Defined.

(** After six collisions the statement after the loop decides alone. *)
Lemma generateUniqueCode_after_six_collisions
    {member : Type} (my_code : member -> option jsstring)
    (members : list member) (r : Rand) :
  Forall (fun c => code_taken my_code members c = true) (candidates r) ->
  Screening.generateUniqueCode my_code members r
  = Screening.fallback (after_attempts randomDigits_join 6 r).
Proof.
  unfold candidates. rewrite <- attempts_join. apply generate_loop_exhausted.
Qed.

(** C3, as stated, fails: with the code [A000000] in the members table and a
    random source that keeps drawing 0, all six candidates collide and the
    code returned is [A000000], which is in the table. *)
Lemma generateUniqueCode_can_return_taken_code :
  fst (Screening.generateUniqueCode ScreeningBot.my_code Examples.one_member
         Examples.zeros) = js "A000000"
  /\ fst (ServerJs.generateUniqueCode ScreeningBot.my_code Examples.one_member
            Examples.zeros) = js "A000000"
  /\ code_taken ScreeningBot.my_code Examples.one_member (js "A000000") = true.
Proof. vm_compute. repeat split. Qed.

(** *** Which candidate is returned *)

Lemma generate_loop_first_free {member : Type} (my_code : member -> option jsstring)
    digits fallback (members : list member) n : forall r c,
  List.find (fun c => negb (code_taken my_code members c)) (attempts digits n r) = Some c ->
  fst (generate_loop my_code digits fallback members n r) = c.
Proof.
  induction n as [|n IH]; intros r c Hfind; [discriminate|].
  cbn [generate_loop attempts] in *.
  destruct (randomCodeAZ6 digits r) as [c0 r1]. cbn [List.find] in Hfind.
  destruct (code_taken my_code members c0); cbn [negb] in Hfind.
  - apply IH. exact Hfind.
  - injection Hfind as <-. reflexivity.
Qed.

Lemma find_none_all {A} (p : A -> bool) (l : list A) :
  List.find p l = None -> Forall (fun x => p x = false) l.
Proof.
  intros H. apply Forall_forall. intros x Hx. apply (find_none _ _ H).
  apply list_elem_of_In. exact Hx.
Qed.

(** Where the random source stands after the draws of a candidate. *)
Lemma randomDigits_loop_rng n : forall s r,
  snd (randomDigits_loop n s r) = mkRand (tape r) (pos r + n).
Proof.
  induction n as [|n IH]; intros s r; cbn [randomDigits_loop].
  - destruct r as [t p]. cbn [snd tape pos]. f_equal. lia.
  - unfold randomInt. rewrite IH. cbn [tape pos]. f_equal. lia.
Qed.

Lemma randomCodeAZ6_join r :
  randomCodeAZ6 randomDigits_join r = randomCodeAZ6 randomDigits r.
Proof.
  unfold randomCodeAZ6. destruct (randomLetterAZ r) as [l r1].
  rewrite randomDigits_join_eq. reflexivity.
Qed.

Lemma randomCodeAZ6_rng r :
  snd (randomCodeAZ6 randomDigits r) = mkRand (tape r) (pos r + 7).
Proof.
  unfold randomCodeAZ6, randomLetterAZ, randomInt.
  pose proof (randomDigits_loop_rng 6 [] (mkRand (tape r) (S (pos r)))) as H.
  unfold randomDigits.
  destruct (randomDigits_loop 6 [] (mkRand (tape r) (S (pos r)))) as [ds r2].
  cbn [snd tape pos] in *. rewrite H. f_equal. lia.
Qed.

Lemma after_attempts_rng n : forall r,
  after_attempts randomDigits n r = mkRand (tape r) (pos r + 7 * n)
  /\ after_attempts randomDigits_join n r = mkRand (tape r) (pos r + 7 * n).
Proof.
  induction n as [|n IH]; intros r; cbn [after_attempts].
  - destruct r as [t p]. cbn [tape pos]. split; f_equal; lia.
  - rewrite randomCodeAZ6_join, randomCodeAZ6_rng.
    destruct (IH (mkRand (tape r) (pos r + 7))) as [-> ->]. cbn [tape pos].
    split; f_equal; lia.
Qed.

(** X24: [generateUniqueCode] returns the first of its six candidates that
    no member holds, in the order in which they are drawn, in each of the
    three programs.  Only when all six are held does it return one more
    code, which is not looked up: a letter and six digits drawn after the 42
    draws of the six candidates; [server.js] draws seven digits there and
    drops the first. *)
Theorem generateUniqueCode_first_free
    {member : Type} (my_code : member -> option jsstring)
    (members : list member) (r : Rand) :
  (forall c,
     List.find (fun c => negb (code_taken my_code members c)) (candidates r) = Some c ->
     fst (ServerJs.generateUniqueCode my_code members r) = c
     /\ fst (Screening.generateUniqueCode my_code members r) = c
     /\ fst (CodeFormat.generateUniqueCode my_code members r) = c)
  /\ (List.find (fun c => negb (code_taken my_code members c)) (candidates r) = None ->
      let letter := randomLetterAZ (mkRand (tape r) (pos r + 42)) in
      ServerJs.generateUniqueCode my_code members r
      = (fst letter ++ slice (fst (randomDigits 7 (snd letter))) 1 None,
         snd (randomDigits 7 (snd letter)))
      /\ Screening.generateUniqueCode my_code members r
         = (fst letter ++ fst (randomDigits 6 (snd letter)),
            snd (randomDigits 6 (snd letter)))
      /\ CodeFormat.generateUniqueCode my_code members r
         = (fst letter ++ fst (randomDigits 6 (snd letter)),
            snd (randomDigits 6 (snd letter)))).
Proof.
  unfold candidates. split.
  - intros c Hfind. split; [|split].
    + apply generate_loop_first_free. exact Hfind.
    + apply generate_loop_first_free. rewrite attempts_join. exact Hfind.
    + apply generate_loop_first_free. exact Hfind.
  - intros Hnone. set (letter := randomLetterAZ (mkRand (tape r) (pos r + 42))).
    assert (Hall : Forall (fun c => code_taken my_code members c = true)
                     (attempts randomDigits 6 r)).
    { eapply Forall_impl; [exact (find_none_all _ _ Hnone)|].
      intros c Hc. apply negb_false_iff. exact Hc. }
    destruct (after_attempts_rng 6 r) as [Hrng Hrng_join].
    change (pos r + 7 * 6)%nat with (pos r + 42)%nat in Hrng, Hrng_join.
    split; [|split].
    + unfold ServerJs.generateUniqueCode.
      rewrite generate_loop_exhausted by exact Hall. rewrite Hrng.
      unfold ServerJs.fallback. fold letter. destruct letter as [l r1]. cbn [fst snd].
      destruct (randomDigits 7 r1). reflexivity.
    + unfold Screening.generateUniqueCode.
      rewrite generate_loop_exhausted by (rewrite attempts_join; exact Hall).
      rewrite Hrng_join. unfold Screening.fallback. rewrite randomCodeAZ6_join.
      unfold randomCodeAZ6. fold letter. destruct letter as [l r1]. cbn [fst snd].
      destruct (randomDigits 6 r1). reflexivity.
    + unfold CodeFormat.generateUniqueCode.
      rewrite generate_loop_exhausted by exact Hall. rewrite Hrng.
      unfold CodeFormat.fallback. fold letter. destruct letter as [l r1]. cbn [fst snd].
      destruct (randomDigits 6 r1). reflexivity.
Qed.

Lemma generateUniqueCode_first_free_witness :
  (fst (ServerJs.generateUniqueCode ScreeningBot.my_code Examples.one_member
          Examples.zeros_then_ones) = js "B111111"
   /\ fst (Screening.generateUniqueCode ScreeningBot.my_code Examples.one_member
             Examples.zeros_then_ones) = js "B111111"
   /\ fst (CodeFormat.generateUniqueCode ScreeningBot.my_code Examples.one_member
             Examples.zeros_then_ones) = js "B111111")
  /\ fst (CodeFormat.generateUniqueCode ScreeningBot.my_code Examples.one_member
            Examples.zeros) = js "A000000".
Proof.
  split.
  - apply (proj1 (generateUniqueCode_first_free ScreeningBot.my_code Examples.one_member
                    Examples.zeros_then_ones)).
    vm_compute. reflexivity.
  - rewrite (proj2 (proj2 (proj2 (generateUniqueCode_first_free ScreeningBot.my_code
                                     Examples.one_member Examples.zeros)
                                  ltac:(vm_compute; reflexivity)))).
    vm_compute. reflexivity.
Defined.

End CodeGenFacts.


(** ** The format repair *)

Module RepairFacts.

Lemma matching_code_truthy (c : jsstring) :
  CODE_REGEX_test c = true -> truthy c && CODE_REGEX_test c = true.
Proof. intros H. rewrite H. destruct c; [discriminate | reflexivity]. Qed.

Lemma screening_ensureCodeFormat_noop w tgId row rest c :
  ScreeningBot.select_member tgId w = row :: rest ->
  ScreeningBot.my_code row = Some c ->
  CODE_REGEX_test c = true ->
  ScreeningBot.ensureCodeFormat tgId w = (Ok (Some c), w).
Proof.
  intros Hrow Hcode Hre.
  unfold ScreeningBot.ensureCodeFormat, bind, query. rewrite Hrow, Hcode.
  rewrite (matching_code_truthy c Hre). reflexivity.
Qed.

Lemma codeformat_ensureCodeFormat_noop w tgId row rest c :
  CodeFormatBot.select_member tgId w = row :: rest ->
  CodeFormatBot.my_code row = Some c ->
  CODE_REGEX_test c = true ->
  CodeFormatBot.ensureCodeFormat tgId w = (Ok (Some c), w).
Proof.
  intros Hrow Hcode Hre.
  unfold CodeFormatBot.ensureCodeFormat, bind, query. rewrite Hrow, Hcode.
  rewrite (matching_code_truthy c Hre). reflexivity.
Qed.

(** C6: for a member whose stored code matches [^[A-Z][0-9]{6}$],
    [ensureCodeFormat] returns that code and leaves the world (tables and
    random source) as it was, and so does a second call after it; in the
    screening bot and in the code-format bot. *)
Theorem ensureCodeFormat_conforming_unchanged (c : jsstring) (tgId : Z) :
  CODE_REGEX_test c = true ->
  (forall w row rest,
     ScreeningBot.select_member tgId w = row :: rest ->
     ScreeningBot.my_code row = Some c ->
     ScreeningBot.ensureCodeFormat tgId w = (Ok (Some c), w)
     /\ (ScreeningBot.ensureCodeFormat tgId ;; ScreeningBot.ensureCodeFormat tgId) w
        = (Ok (Some c), w))
  /\ (forall w row rest,
        CodeFormatBot.select_member tgId w = row :: rest ->
        CodeFormatBot.my_code row = Some c ->
        CodeFormatBot.ensureCodeFormat tgId w = (Ok (Some c), w)
        /\ (CodeFormatBot.ensureCodeFormat tgId ;; CodeFormatBot.ensureCodeFormat tgId) w
           = (Ok (Some c), w)).
Proof.
  intros Hre. split; intros w row rest Hrow Hcode.
  - pose proof (screening_ensureCodeFormat_noop w tgId row rest c Hrow Hcode Hre) as H.
    split; [exact H|]. unfold bind at 1. rewrite H. exact H.
  - pose proof (codeformat_ensureCodeFormat_noop w tgId row rest c Hrow Hcode Hre) as H.
    split; [exact H|]. unfold bind at 1. rewrite H. exact H.
Qed.

Lemma ensureCodeFormat_conforming_unchanged_witness :
  ScreeningBot.ensureCodeFormat 7 Examples.screening_world
  = (Ok (Some (js "A000000")), Examples.screening_world)
  /\ CodeFormatBot.ensureCodeFormat 7 Examples.codeformat_world
     = (Ok (Some (js "A000000")), Examples.codeformat_world).
Proof.
  destruct (ensureCodeFormat_conforming_unchanged (js "A000000") 7 eq_refl) as [H1 H2].
  split.
  - refine (proj1 (H1 Examples.screening_world _ _ _ _)); reflexivity.
  - refine (proj1 (H2 Examples.codeformat_world _ _ _ _)); reflexivity.
Defined.

(** *** The repair in the code-format bot *)

Lemma codeformat_generate_conforms (w : CodeFormatBot.World) :
  exists c r,
    CodeFormatBot.generateUniqueCode w = (Ok c, CodeFormatBot.mkWorld (CodeFormatBot.members w) r)
    /\ CODE_REGEX_test c = true.
Proof.
  unfold CodeFormatBot.generateUniqueCode.
  pose proof (proj2 (proj2 (CodeGenFacts.generateUniqueCode_shapes CodeFormatBot.my_code
                              (CodeFormatBot.members w) (CodeFormatBot.rng w)))) as Hshape.
  destruct (CodeGen.CodeFormat.generateUniqueCode CodeFormatBot.my_code
              (CodeFormatBot.members w) (CodeFormatBot.rng w)) as [c r].
  exists c, r. split; [reflexivity | exact Hshape].
Qed.

Lemma codeformat_select_updated (l : list CodeFormatBot.member) c tgId :
  filter (fun m => CodeFormatBot.tg_id m = tgId)
    ((fun m => if bool_decide (CodeFormatBot.tg_id m = tgId)
               then CodeFormatBot.with_code c m else m) <$> l)
  = CodeFormatBot.with_code c <$> filter (fun m => CodeFormatBot.tg_id m = tgId) l.
Proof.
  induction l as [|a l IH]; [reflexivity|].
  cbn [fmap list_fmap]. rewrite !filter_cons.
  destruct (decide (CodeFormatBot.tg_id a = tgId)) as [Ha|Ha].
  - rewrite (bool_decide_eq_true_2 _ Ha). cbn [CodeFormatBot.tg_id CodeFormatBot.with_code].
    destruct (decide (CodeFormatBot.tg_id a = tgId)); [|contradiction].
    cbn [fmap list_fmap]. rewrite IH. reflexivity.
  - rewrite (bool_decide_eq_false_2 _ Ha).
    destruct (decide (CodeFormatBot.tg_id a = tgId)); [contradiction | exact IH].
Qed.

(** X25: in the code-format bot too, a code that [ensureCodeFormat]
    returns matches [^[A-Z][0-9]{6}$] and is the code stored in the member's
    row afterwards, the table keeps its members, and a second call returns
    the same code and changes nothing; for a user with no row it returns
    null and changes nothing. *)
Theorem codeformat_ensureCodeFormat_returns_stored_code
    (tgId : Z) (w w' : CodeFormatBot.World) :
  (forall c,
     CodeFormatBot.ensureCodeFormat tgId w = (Ok (Some c), w') ->
     CODE_REGEX_test c = true
     /\ (exists row rest,
           CodeFormatBot.select_member tgId w' = row :: rest
           /\ CodeFormatBot.my_code row = Some c)
     /\ CodeFormatBot.tg_id <$> CodeFormatBot.members w'
        = CodeFormatBot.tg_id <$> CodeFormatBot.members w
     /\ CodeFormatBot.ensureCodeFormat tgId w' = (Ok (Some c), w'))
  /\ (CodeFormatBot.select_member tgId w = [] ->
      CodeFormatBot.ensureCodeFormat tgId w = (Ok None, w)).
Proof.
  split.
  - intros c Hrun.
    assert (Hmain : CODE_REGEX_test c = true
              /\ (exists row rest,
                    CodeFormatBot.select_member tgId w' = row :: rest
                    /\ CodeFormatBot.my_code row = Some c)
              /\ CodeFormatBot.tg_id <$> CodeFormatBot.members w'
                 = CodeFormatBot.tg_id <$> CodeFormatBot.members w).
    { unfold CodeFormatBot.ensureCodeFormat, bind, query in Hrun.
      destruct (CodeFormatBot.select_member tgId w) as [|row rest] eqn:Hrow; [discriminate|].
      assert (Hrepair :
        (let (o, w1) := CodeFormatBot.generateUniqueCode w in
         match o with
         | Ok a => let (o0, w2) := CodeFormatBot.update_my_code a tgId w1 in
                   match o0 with
                   | Ok _ => ret (Some a) w2
                   | Throw e => (Throw e, w2)
                   end
         | Throw e => (Throw e, w1)
         end) = (Ok (Some c), w') ->
        CODE_REGEX_test c = true
        /\ (exists row rest,
              CodeFormatBot.select_member tgId w' = row :: rest
              /\ CodeFormatBot.my_code row = Some c)
        /\ CodeFormatBot.tg_id <$> CodeFormatBot.members w'
           = CodeFormatBot.tg_id <$> CodeFormatBot.members w).
      { destruct (codeformat_generate_conforms w) as (c0 & r & -> & Hc0).
        unfold CodeFormatBot.update_my_code.
        destruct (_ && _); [discriminate|]. intros [= <- <-].
        split; [exact Hc0|]. split.
        - unfold CodeFormatBot.select_member in *. cbn [CodeFormatBot.members].
          rewrite codeformat_select_updated, Hrow. cbn [fmap list_fmap].
          eexists _, _. split; reflexivity.
        - cbn [CodeFormatBot.members]. rewrite <- list_fmap_compose.
          apply list_fmap_ext. intros i m _. cbn. case_bool_decide; reflexivity. }
      destruct (CodeFormatBot.my_code row) as [current|] eqn:Hcur; [|exact (Hrepair Hrun)].
      destruct (truthy current && CODE_REGEX_test current) eqn:Hok; [|exact (Hrepair Hrun)].
      injection Hrun as <- <-. apply andb_prop in Hok as [_ Hre].
      split; [exact Hre|]. split; [eauto | reflexivity]. }
    destruct Hmain as (Hre & (row & rest & Hrow & Hcode) & Hids).
    split; [exact Hre|]. split; [eauto|]. split; [exact Hids|].
    exact (codeformat_ensureCodeFormat_noop w' tgId row rest c Hrow Hcode Hre).
  - intros Hnone. unfold CodeFormatBot.ensureCodeFormat, bind, query. rewrite Hnone.
    reflexivity.
Qed.

Lemma codeformat_ensureCodeFormat_returns_stored_code_witness :
  CODE_REGEX_test (js "A000000") = true
  /\ CodeFormatBot.ensureCodeFormat 7
       (snd (CodeFormatBot.ensureCodeFormat 7 Examples.codeformat_malformed))
     = (Ok (Some (js "A000000")),
        snd (CodeFormatBot.ensureCodeFormat 7 Examples.codeformat_malformed)).
Proof.
  destruct (proj1 (codeformat_ensureCodeFormat_returns_stored_code 7
                     Examples.codeformat_malformed
                     (snd (CodeFormatBot.ensureCodeFormat 7 Examples.codeformat_malformed)))
              (js "A000000") ltac:(vm_compute; reflexivity))
    as (Hre & _ & _ & Hagain).
  split; [exact Hre | exact Hagain].
Defined.

End RepairFacts.


(** ** The screening engine *)

Module ScreeningFacts.
Import ScreeningBot.

(** *** The gate of start-screening *)

Lemma startScreeningWithCode_eq c w :
  startScreeningWithCode c w =
  match select_member (from_id c) w with
  | [] => reply TRegisterFirst startKeyboard w
  | row :: _ =>
      if bool_decide (screening_status row = js "passed")
      then reply TAlreadyPassed memberKeyboard w
      else if bool_decide (screening_status row = js "failed")
      then reply TRejected memberKeyboard w
      else reply TSendYourCode no_keyboard w
  end.
Proof.
  unfold startScreeningWithCode, bind, query.
  destruct (select_member (from_id c) w) as [|row rest]; [reflexivity|].
  repeat case_bool_decide; reflexivity.
Qed.

(** *** Question selection *)

Lemma id_le_total : Total id_le.
Proof. intros a b. unfold id_le. lia. Qed.

Lemma id_le_trans : Transitive id_le.
Proof. intros a b d. unfold id_le. lia. Qed.

Lemma questions_by_id_sorted w : StronglySorted id_le (questions_by_id w).
Proof.
  unfold questions_by_id.
  apply (@StronglySorted_merge_sort _ id_le _ id_le_trans id_le_total).
Qed.

Lemma find_sorted_least {A} (R : relation A) (p : A -> bool) (l : list A) x :
  Reflexive R -> StronglySorted R l -> List.find p l = Some x ->
  forall y, y ∈ l -> p y = true -> R x y.
Proof.
  intros Hrefl Hsorted. induction Hsorted as [|a l Hs IH Hall]; intros Hfind y Hy Hp.
  - inversion Hy.
  - cbn [List.find] in Hfind. destruct (p a) eqn:Hpa.
    + injection Hfind as ->. apply elem_of_cons in Hy as [->|Hy]; [apply Hrefl|].
      rewrite Forall_forall in Hall. apply Hall. exact Hy.
    + apply elem_of_cons in Hy as [->|Hy]; [congruence|].
      apply IH; assumption.
Qed.

Lemma answered_in_set w sid qid :
  qid ∈ (list_to_set (question_id <$> select_answers sid w) : gset Z)
  <-> answered_in w sid qid.
Proof.
  rewrite elem_of_list_to_set, list_elem_of_fmap. unfold select_answers, answered_in.
  split.
  - intros (a & -> & Ha). apply list_elem_of_filter in Ha as [Hs Ha]. eauto.
  - intros (a & Ha & Hs & Hq). exists a. split; [congruence|].
    apply list_elem_of_filter. split; assumption.
Qed.

Lemma nextQuestion_eq sid w :
  nextQuestion sid w =
  (Ok (List.find
         (fun q => negb (bool_decide
            (q_id q ∈ (list_to_set (question_id <$> select_answers sid w) : gset Z))))
         (questions_by_id w)), w).
Proof. reflexivity. Qed.

Lemma questions_by_id_elem w q :
  q ∈ questions_by_id w <-> q ∈ screening_questions w.
Proof. unfold questions_by_id. rewrite merge_sort_Permutation. reflexivity. Qed.

(** *** Answer rows are never removed *)

Lemma askQuestion_keeps_answers c sid q w :
  screening_answers (snd (askQuestion c sid q w)) = screening_answers w
  /\ answers_id_seq (snd (askQuestion c sid q w)) = answers_id_seq w.
Proof.
  destruct q as [q|].
  - unfold askQuestion. destruct (q_type q); split; reflexivity.
  - unfold askQuestion, bind, query.
    destruct (score_query sid w) as [sc|e]; [|split; reflexivity].
    destruct (grade_of sc) as [grade i]. split; reflexivity.
Qed.

Lemma ask_next_keeps_answers c sid w :
  screening_answers (snd ((let* q := nextQuestion sid in askQuestion c sid q) w))
  = screening_answers w.
Proof.
  unfold bind. rewrite nextQuestion_eq. 
  match goal with |- context [askQuestion c sid ?q w] =>
    pose proof (askQuestion_keeps_answers c sid q w) as [H _];
    destruct (askQuestion c sid q w) as [[?|?] ?] end; exact H.
Qed.

Section Preserves.
Context {W : Type} (R : relation W) `{!PreOrder R}.

Lemma preserves_ret {A} (a : A) : preserves R (ret a).
Proof. intros w. reflexivity. Qed.

Lemma preserves_throw {A} e : preserves R (@throw W A e).
Proof. intros w. reflexivity. Qed.

Lemma preserves_query {A} (f : W -> A) : preserves R (query f).
Proof. intros w. reflexivity. Qed.

Lemma preserves_bind {A B} (m : M W A) (k : A -> M W B) :
  preserves R m -> (forall a, preserves R (k a)) -> preserves R (bind m k).
Proof.
  intros Hm Hk w. unfold bind. specialize (Hm w).
  destruct (m w) as [[a|e] w1]; cbn [snd] in *; [|exact Hm].
  transitivity w1; [exact Hm | apply Hk].
Qed.

Lemma preserves_try_catch {A} (body : M W A) (handler : exn -> M W A) :
  preserves R body -> (forall e, preserves R (handler e)) ->
  preserves R (try_catch body handler).
Proof.
  intros Hb Hh w. unfold try_catch. specialize (Hb w).
  destruct (body w) as [[a|e] w1]; cbn [snd] in *; [exact Hb|].
  transitivity w1; [exact Hb | apply Hh].
Qed.
End Preserves.

Lemma answers_grow_preorder : PreOrder answers_grow.
Proof.
  split.
  - intros w. unfold answers_grow. reflexivity.
  - intros w1 w2 w3. unfold answers_grow. intros H1 H2. etransitivity; eassumption.
Qed.

Lemma grow_same {A} (m : M World A) :
  (forall w, screening_answers (snd (m w)) = screening_answers w) ->
  preserves answers_grow m.
Proof. intros H w. unfold answers_grow. rewrite H. reflexivity. Qed.

Lemma grow_reply t kb : preserves answers_grow (reply t kb).
Proof. apply grow_same. reflexivity. Qed.

Lemma grow_answerCbQuery t : preserves answers_grow (answerCbQuery t).
Proof. apply grow_same. reflexivity. Qed.

Lemma grow_generateUniqueCode : preserves answers_grow generateUniqueCode.
Proof.
  apply grow_same. intros w. unfold generateUniqueCode.
  destruct (CodeGen.Screening.generateUniqueCode my_code (members w) (rng w)).
  reflexivity.
Qed.

Lemma grow_update_my_code code tgId : preserves answers_grow (update_my_code code tgId).
Proof.
  apply grow_same. intros w. unfold update_my_code.
  destruct (_ && _); reflexivity.
Qed.

Lemma grow_insert_member c code : preserves answers_grow (insert_member c code).
Proof.
  apply grow_same. intros w. unfold insert_member.
  destruct (_ || _); reflexivity.
Qed.

Lemma grow_insert_session tgId : preserves answers_grow (insert_session tgId).
Proof.
  apply grow_same. intros w. unfold insert_session.
  destruct (_ || _); [reflexivity|]. case_bool_decide; reflexivity.
Qed.

Lemma grow_insert_choice sid qid chosen :
  preserves answers_grow (insert_choice sid qid chosen).
Proof.
  intros w. unfold answers_grow, insert_choice.
  destruct (negb _); [reflexivity|].
  case_bool_decide; [reflexivity|].
  destruct (_ || _); [reflexivity|].
  cbn [snd screening_answers set_answers set_answers_id_seq]. apply prefix_app_r. reflexivity.
Qed.

Lemma grow_insert_text sid qid t : preserves answers_grow (insert_text sid qid t).
Proof.
  intros w. unfold answers_grow, insert_text.
  destruct (text_param t) as [stored|e]; [|reflexivity].
  case_bool_decide; [reflexivity|].
  destruct (_ || _); [reflexivity|].
  cbn [snd screening_answers set_answers set_answers_id_seq]. apply prefix_app_r. reflexivity.
Qed.

Lemma grow_askQuestion c sid q : preserves answers_grow (askQuestion c sid q).
Proof. apply grow_same. intros w. apply askQuestion_keeps_answers. Qed.

Lemma grow_nextQuestion sid : preserves answers_grow (nextQuestion sid).
Proof. apply grow_same. reflexivity. Qed.

Lemma grow_modify_awaitingText f :
  preserves answers_grow (modify (set_awaitingText f)).
Proof. apply grow_same. reflexivity. Qed.

Create HintDb grow.

#[local] Hint Resolve grow_reply grow_answerCbQuery grow_generateUniqueCode
  grow_update_my_code grow_insert_member grow_insert_session grow_insert_choice
  grow_insert_text grow_askQuestion grow_nextQuestion grow_modify_awaitingText
  : grow.

(** One step of a proof that a handler keeps the answer rows. *)
Ltac grow_step :=
  first
    [ solve [auto with grow]
    | progress cbv zeta
    | apply (preserves_bind answers_grow (PreOrder0 := answers_grow_preorder)); [|intros ?]
    | apply (preserves_try_catch answers_grow (PreOrder0 := answers_grow_preorder)); [|intros ?]
    | apply (preserves_ret answers_grow (PreOrder0 := answers_grow_preorder))
    | apply (preserves_throw answers_grow (PreOrder0 := answers_grow_preorder))
    | apply (preserves_query answers_grow (PreOrder0 := answers_grow_preorder))
    | match goal with
      | |- preserves _ (match ?x with _ => _ end) => destruct x
      end ].

Lemma grow_ensureCodeFormat tgId : preserves answers_grow (ensureCodeFormat tgId).
Proof. unfold ensureCodeFormat. repeat grow_step. Qed.

Lemma grow_getOrCreateSession tgId : preserves answers_grow (getOrCreateSession tgId).
Proof. unfold getOrCreateSession. repeat grow_step. Qed.

#[local] Hint Resolve grow_ensureCodeFormat grow_getOrCreateSession : grow.

Lemma grow_verifyCodeAndBegin c code : preserves answers_grow (verifyCodeAndBegin c code).
Proof. unfold verifyCodeAndBegin. repeat grow_step. Qed.

#[local] Hint Resolve grow_verifyCodeAndBegin : grow.

Lemma grow_handleRegister c : preserves answers_grow (handleRegister c).
Proof. unfold handleRegister. repeat grow_step. Qed.

Lemma grow_handleMyCode c : preserves answers_grow (handleMyCode c).
Proof. unfold handleMyCode. repeat grow_step. Qed.

Lemma grow_startScreeningWithCode c : preserves answers_grow (startScreeningWithCode c).
Proof. unfold startScreeningWithCode. repeat grow_step. Qed.

Lemma grow_on_start c : preserves answers_grow (on_start c).
Proof. unfold on_start. repeat grow_step. Qed.

Lemma grow_on_code c msg : preserves answers_grow (on_code c msg).
Proof. unfold on_code. repeat grow_step. Qed.

Lemma grow_on_text c msg : preserves answers_grow (on_text c msg).
Proof. unfold on_text. repeat grow_step. Qed.

Lemma grow_on_callback_query c d : preserves answers_grow (on_callback_query c d).
Proof. unfold on_callback_query. repeat grow_step. Qed.

#[local] Hint Resolve grow_handleRegister grow_handleMyCode grow_startScreeningWithCode
  grow_on_start grow_on_code grow_on_text grow_on_callback_query : grow.

Lemma grow_on_message c msg : preserves answers_grow (on_message c msg).
Proof. unfold on_message. repeat grow_step. Qed.

#[local] Hint Resolve grow_on_message : grow.

Lemma grow_handle c u : preserves answers_grow (handle c u).
Proof. destruct u as [cmd msg|msg|d]; cbn [handle]; repeat grow_step. Qed.

Lemma run_answers_grow us : forall w, answers_grow w (run us w).
Proof.
  induction us as [|[c u] us IH]; intros w.
  - apply answers_grow_preorder.
  - cbn [run]. destruct answers_grow_preorder as [_ Htrans].
    apply (Htrans _ (snd (handle c u w))); [apply grow_handle | apply IH].
Qed.

Lemma answered_in_grow w w' sid qid :
  answers_grow w w' -> answered_in w sid qid -> answered_in w' sid qid.
Proof.
  intros [l Hl] (a & Ha & Hs & Hq). exists a. split; [|auto].
  rewrite Hl. apply elem_of_app. left. exact Ha.
Qed.

Lemma nextQuestion_selects (sid : Z) (w : World) :
  exists r,
    nextQuestion sid w = (Ok r, w)
    /\ (forall w',
          screening_questions w' = screening_questions w ->
          select_answers sid w' = select_answers sid w ->
          nextQuestion sid w' = (Ok r, w'))
    /\ match r with
       | Some q =>
           q ∈ screening_questions w
           /\ ~ answered_in w sid (q_id q)
           /\ (forall q', q' ∈ screening_questions w ->
                         ~ answered_in w sid (q_id q') -> q_id q <= q_id q')
       | None =>
           forall q, q ∈ screening_questions w -> answered_in w sid (q_id q)
       end.
Proof.
  rewrite nextQuestion_eq. eexists. split; [reflexivity|]. split.
  - intros w' Hq Ha. rewrite nextQuestion_eq. unfold questions_by_id.
    rewrite Hq, Ha. reflexivity.
  - destruct (List.find _ (questions_by_id w)) as [q|] eqn:Hfind.
    + pose proof (find_some _ _ Hfind) as [Hin Hp].
      apply list_elem_of_In, questions_by_id_elem in Hin.
      apply negb_true_iff, bool_decide_eq_false in Hp.
      rewrite answered_in_set in Hp.
      split; [exact Hin|]. split; [exact Hp|].
      intros q' Hq' Hna.
      refine (find_sorted_least id_le _ (questions_by_id w) q _
                (questions_by_id_sorted w) Hfind q' _ _).
      * intros a. unfold id_le. lia.
      * apply questions_by_id_elem. exact Hq'.
      * apply negb_true_iff, bool_decide_eq_false. rewrite answered_in_set. exact Hna.
    + intros q Hq.
      pose proof (find_none _ _ Hfind q) as Hp.
      apply questions_by_id_elem, list_elem_of_In in Hq.
      specialize (Hp Hq). apply negb_false_iff, bool_decide_eq_true in Hp.
      apply answered_in_set. exact Hp.
Qed.

(** C4, amended: [nextQuestion] is a function of the catalog and of the
    session's answer rows, it never fails and changes nothing; it returns a
    question of the catalog that has no answer row in the session and whose
    identifier is the least among such questions, or null when every question
    of the catalog has an answer row in the session; consequently, once a
    question has an answer row in the session, no later call selects it
    again, whatever updates the bot handles in between. *)
Theorem nextQuestion_first_unanswered (sid : Z) (w : World) :
  (exists r,
     nextQuestion sid w = (Ok r, w)
     /\ (forall w',
           screening_questions w' = screening_questions w ->
           select_answers sid w' = select_answers sid w ->
           nextQuestion sid w' = (Ok r, w'))
     /\ match r with
        | Some q =>
            q ∈ screening_questions w
            /\ ~ answered_in w sid (q_id q)
            /\ (forall q', q' ∈ screening_questions w ->
                          ~ answered_in w sid (q_id q') -> q_id q <= q_id q')
        | None =>
            forall q, q ∈ screening_questions w -> answered_in w sid (q_id q)
        end)
  /\ (forall us qid q,
        answered_in w sid qid ->
        fst (nextQuestion sid (run us w)) = Ok (Some q) ->
        q_id q <> qid).
Proof.
  split; [apply nextQuestion_selects|].
  intros us qid q Hans Hnext Heq.
  destruct (nextQuestion_selects sid (run us w)) as (r & Hr & _ & Hsel).
  rewrite Hr in Hnext. cbn [fst] in Hnext. injection Hnext as ->.
  destruct Hsel as (_ & Hfresh & _). apply Hfresh. rewrite Heq.
  exact (answered_in_grow w (run us w) sid qid (run_answers_grow us w) Hans).
Qed.

Lemma nextQuestion_first_unanswered_witness :
  fst (nextQuestion 1 (run [Examples.send_code] Examples.after_first_answer))
  = Ok (Some Examples.question2)
  /\ q_id Examples.question2 <> 1.
Proof.
  assert (Hnext : fst (nextQuestion 1 (run [Examples.send_code] Examples.after_first_answer))
                  = Ok (Some Examples.question2)) by (vm_compute; reflexivity).
  split; [exact Hnext|].
  refine (proj2 (nextQuestion_first_unanswered 1 Examples.after_first_answer)
            [Examples.send_code] 1 Examples.question2 _ Hnext).
  exists (mkAnswer 1 1 1 None (Some 4) None). vm_compute. repeat split. left.
Defined.

(** C4, as stated, fails in its last part: a member who sends the code twice
    before answering is asked the first question twice, in one session. *)
Lemma same_question_asked_twice :
  sent Examples.code_sent_twice = [Examples.q1_prompt; Examples.q1_prompt]
  /\ s_id <$> screening_sessions Examples.code_sent_twice = [1].
Proof. vm_compute. split; reflexivity. Qed.

(** *** Scoring *)

Lemma eval_rows_points rows :
  Forall (fun a => int4 (points a) = true) rows ->
  eval_rows (fun a => int4_succ (chosen_index a)) rows
  = Ok ((fun a => (fun i => i + 1) <$> chosen_index a) <$> rows).
Proof.
  induction 1 as [|a rows Ha _ IH]; [reflexivity|].
  cbn [eval_rows fmap list_fmap]. rewrite IH. unfold int4_succ. unfold points in Ha.
  destruct (chosen_index a) as [i|]; [rewrite Ha|]; reflexivity.
Qed.

Lemma spec_score_cons a rows : spec_score (a :: rows) = points a + spec_score rows.
Proof. reflexivity. Qed.

Lemma sum_agg_points rows :
  coalesce (sum_agg ((fun a => (fun i => i + 1) <$> chosen_index a) <$> rows)) 0
  = spec_score rows.
Proof.
  unfold coalesce. induction rows as [|a rows IH]; [reflexivity|].
  rewrite spec_score_cons, <- IH. cbn [fmap list_fmap]. unfold points.
  destruct (chosen_index a) as [i|]; reflexivity.
Qed.

Lemma score_query_spec sid w :
  Forall (fun a => int4 (points a) = true) (select_answers sid w) ->
  int4 (spec_score (select_answers sid w)) = true ->
  score_query sid w = Ok (spec_score (select_answers sid w)).
Proof.
  intros Hrows Hsum. unfold score_query, cast_int.
  rewrite (eval_rows_points _ Hrows), sum_agg_points, Hsum. reflexivity.
Qed.

Lemma grade_of_cases sc :
  (40 <= sc -> grade_of sc = (js "A", interp_excellent))
  /\ (32 <= sc < 40 -> grade_of sc = (js "B", interp_good))
  /\ (25 <= sc < 32 -> grade_of sc = (js "C", interp_growing))
  /\ (sc < 25 -> grade_of sc = (js "D", interp_basics)).
Proof.
  unfold grade_of, Z.geb. repeat split; intros H.
  - destruct (Z.compare_spec sc 40); try lia; reflexivity.
  - destruct (Z.compare_spec sc 40); try lia.
    destruct (Z.compare_spec sc 32); try lia; reflexivity.
  - destruct (Z.compare_spec sc 40); try lia.
    destruct (Z.compare_spec sc 32); try lia.
    destruct (Z.compare_spec sc 25); try lia; reflexivity.
  - destruct (Z.compare_spec sc 40); try lia.
    destruct (Z.compare_spec sc 32); try lia.
    destruct (Z.compare_spec sc 25); try lia; reflexivity.
Qed.


(** The world after [askQuestion] found no question left. *)
Lemma askQuestion_none_eq c sid w sc :
  score_query sid w = Ok sc ->
  askQuestion c sid None w =
  (Ok tt,
   replied (TResult sc (Z.of_nat (length (screening_questions w)) * 5)
              (fst (grade_of sc)) (snd (grade_of sc))) memberKeyboard
     (set_members (fmap (fun m =>
        if bool_decide (tg_id m = from_id c) then with_status (fst (grade_of sc)) m else m))
        (set_sessions (fmap (fun s =>
           if bool_decide (s_id s = sid)
           then finished_row (clock w) sc (fst (grade_of sc)) s else s)) w))).
Proof.
  intros Hsc. unfold askQuestion, bind, query. rewrite Hsc.
  destruct (grade_of sc) as [grade i]. reflexivity.
Qed.



(** *** Finishing and the gate *)

Lemma select_member_with_status tgId f w :
  (forall m, tg_id (f m) = tg_id m) ->
  filter (fun m => tg_id m = tgId) (f <$> members w)
  = f <$> select_member tgId w.
Proof.
  intros Hf. unfold select_member. induction (members w) as [|m l IH]; [reflexivity|].
  cbn [fmap list_fmap]. rewrite !filter_cons, Hf.
  destruct (decide (tg_id m = tgId)); cbn [fmap list_fmap]; rewrite IH; reflexivity.
Qed.

Lemma select_member_tg_id tgId w row rest :
  select_member tgId w = row :: rest -> tg_id row = tgId.
Proof.
  intros H. assert (Hin : row ∈ select_member tgId w) by (rewrite H; left).
  apply list_elem_of_filter in Hin. tauto.
Qed.

Lemma grade_is_a_letter sc :
  fst (grade_of sc) ∈ [js "A"; js "B"; js "C"; js "D"].
Proof.
  unfold grade_of.
  destruct (sc >=? 40); [|destruct (sc >=? 32); [|destruct (sc >=? 25)]];
    cbn [fst]; set_solver.
Qed.

Lemma letter_not_terminal g :
  g ∈ [js "A"; js "B"; js "C"; js "D"] -> g <> js "passed" /\ g <> js "failed".
Proof.
  intros Hg. repeat (apply elem_of_cons in Hg as [->|Hg]; [split; discriminate|]).
  inversion Hg.
Qed.

(** C5, amended: finishing a session writes the computed score and grade to
    the session row and writes the grade, one of A, B, C and D, to the
    member's screening status; start-screening refuses only the statuses
    "passed" and "failed", so after finishing, a start-screening request of
    that member is answered with the request for the code, as before. *)
Theorem finish_mirrors_grade_not_gate (c : sender) (sid : Z) (w : World) row rest :
  select_member (from_id c) w = row :: rest ->
  Forall (fun a => int4 (points a) = true) (select_answers sid w) ->
  int4 (spec_score (select_answers sid w)) = true ->
  exists w' grade,
    askQuestion c sid None w = (Ok tt, w')
    /\ grade = fst (grade_of (spec_score (select_answers sid w)))
    /\ grade ∈ [js "A"; js "B"; js "C"; js "D"]
    /\ screening_sessions w' =
       (fun s => if bool_decide (s_id s = sid)
                 then finished_row (clock w) (spec_score (select_answers sid w)) grade s
                 else s) <$> screening_sessions w
    /\ members w' =
       (fun m => if bool_decide (tg_id m = from_id c) then with_status grade m else m)
         <$> members w
    /\ startScreeningWithCode c w' = (Ok tt, replied TSendYourCode no_keyboard w').
Proof.
  intros Hrow Hrows Hsum.
  rewrite (askQuestion_none_eq c sid w _ (score_query_spec sid w Hrows Hsum)).
  set (sc := spec_score (select_answers sid w)).
  eexists. exists (fst (grade_of sc)).
  split; [reflexivity|]. split; [reflexivity|].
  split; [apply grade_is_a_letter|]. split; [reflexivity|]. split; [reflexivity|].
  rewrite startScreeningWithCode_eq. unfold select_member at 1.
  cbn [members replied set_sent set_members set_sessions].
  rewrite select_member_with_status by (intros m; case_bool_decide; reflexivity).
  rewrite Hrow. cbn [fmap list_fmap].
  rewrite (bool_decide_eq_true_2 (tg_id row = from_id c))
    by exact (select_member_tg_id _ _ _ _ Hrow).
  cbn [screening_status with_status].
  destruct (letter_not_terminal _ (grade_is_a_letter sc)) as [Hp Hf].
  rewrite !bool_decide_eq_false_2 by assumption. reflexivity.
Qed.

Lemma finish_mirrors_grade_not_gate_witness :
  exists w',
    askQuestion Examples.member7 1 None Examples.all_answered_world = (Ok tt, w')
    /\ screening_status <$> members w' = [js "D"]
    /\ startScreeningWithCode Examples.member7 w'
       = (Ok tt, replied TSendYourCode no_keyboard w').
Proof.
  destruct (finish_mirrors_grade_not_gate Examples.member7 1 Examples.all_answered_world
              _ _ eq_refl)
    as (w' & grade & Hrun & Hgrade & _ & _ & Hmembers & Hstart).
  - apply Forall_forall. intros a Ha. vm_compute in Ha.
    repeat (apply elem_of_cons in Ha as [->|Ha]; [reflexivity|]). inversion Ha.
  - vm_compute. reflexivity.
  - exists w'. split; [exact Hrun|]. split; [|exact Hstart].
    rewrite Hmembers, Hgrade. vm_compute. reflexivity.
Defined.

(** C5, as stated, fails in its last part: the member of the example
    finishes the session with grade D, and start-screening then asks for the
    code again; on the code the bot runs the screening flow once more and
    finishes the session a second time. *)
Lemma finished_member_starts_again :
  screening_status <$> members Examples.after_finish = [js "D"]
  /\ result <$> screening_sessions Examples.after_finish = [Some (js "D")]
  /\ sent (run [Examples.start_screening] Examples.after_finish)
     = sent Examples.after_finish ++ [Reply TSendYourCode no_keyboard]
  /\ sent (run [Examples.start_screening; Examples.send_code] Examples.after_finish)
     = sent Examples.after_finish ++
       [Reply TSendYourCode no_keyboard;
        Reply (TResult 10 10 (js "D") interp_basics) memberKeyboard].
Proof. vm_compute. repeat split. Qed.

(** *** Recording answers *)

Lemma slice_prefix (s : jsstring) (n : nat) :
  slice s 0 (Some (Z.of_nat n)) = take n s.
Proof.
  unfold slice. change (0 <? 0) with false. cbv iota.
  destruct (Z.ltb_spec (Z.of_nat n) 0) as [Hneg|_]; [lia|].
  replace (Z.to_nat (Z.min 0 (Z.of_nat (length s)))) with 0%nat by lia.
  rewrite drop_0.
  destruct (Nat.le_gt_cases n (length s)) as [Hle|Hgt].
  - f_equal. lia.
  - rewrite (firstn_all2 (n := n)) by lia.
    replace (Z.to_nat _) with (length s) by lia. apply firstn_all.
Qed.

(** What [insert_text] does when PostgreSQL accepts the row. *)
Lemma insert_text_ok sid qid t w :
  0 ∉ t ->
  filter (fun a => a_id a = answers_id_seq w) (screening_answers w) = [] ->
  filter (fun s => s_id s = sid) (screening_sessions w) <> [] ->
  filter (fun q => q_id q = qid) (screening_questions w) <> [] ->
  insert_text sid qid t w =
  (Ok tt,
   set_answers (fun l => l ++
                  [mkAnswer (answers_id_seq w) sid qid (Some (toWellFormed t)) None None])
     (set_answers_id_seq (answers_id_seq w + 1) w)).
Proof.
  intros Ht Hid Hs Hq. unfold insert_text, text_param.
  rewrite (bool_decide_eq_false_2 _ Ht).
  rewrite bool_decide_eq_false_2 by (rewrite Hid; auto).
  rewrite (bool_decide_eq_false_2 _ Hs), (bool_decide_eq_false_2 _ Hq). reflexivity.
Qed.

(** A text with the character U+0000 is refused before anything is written. *)
Lemma insert_text_nul sid qid t w :
  0 ∈ t -> insert_text sid qid t w = (Throw character_not_in_repertoire, w).
Proof.
  intros Ht. unfold insert_text, text_param.
  rewrite (bool_decide_eq_true_2 _ Ht). reflexivity.
Qed.

(** Replacing the unpaired surrogates keeps the length, and changes nothing
    exactly when there is none. *)
Lemma toWellFormed_spec (n : nat) : forall s : jsstring,
  (length s <= n)%nat ->
  length (toWellFormed s) = length s
  /\ (isWellFormed s = true <-> toWellFormed s = s).
Proof.
  induction n as [|n IH]; intros s Hn.
  - destruct s; [|cbn in Hn; lia]. cbn. split; [reflexivity | split; reflexivity].
  - destruct s as [|c s']; [cbn; split; [reflexivity | split; reflexivity]|].
    cbn [length] in Hn.
    destruct (IH s' ltac:(lia)) as [Hlen' Hwf'].
    cbn [toWellFormed isWellFormed].
    destruct (is_high_surrogate c) eqn:Hhigh.
    + destruct s' as [|d s'']; [cbn; split; [reflexivity|]|].
      { split; [discriminate|]. intros [= Hc]. subst c. discriminate Hhigh. }
      cbn [length] in Hn.
      destruct (IH s'' ltac:(lia)) as [Hlen'' Hwf''].
      destruct (is_low_surrogate d) eqn:Hlow.
      * cbn [length andb]. split; [lia|]. rewrite Hwf''.
        split; [intros ->; reflexivity | intros [= Heq]; exact Heq].
      * cbn [length andb]. split; [rewrite Hlen'; reflexivity|].
        split; [discriminate|]. intros [= Hc _]. subst c. discriminate Hhigh.
    + destruct (is_low_surrogate c) eqn:Hlow.
      * cbn [length negb andb]. split; [lia|].
        split; [discriminate|]. intros [= Hc _]. subst c. discriminate Hlow.
      * cbn [length negb andb]. split; [lia|]. rewrite Hwf'.
        split; [intros ->; reflexivity | intros [= Heq]; exact Heq].
Qed.

(** Cutting a well-formed string leaves it well formed, unless the cut
    separates the two halves of a surrogate pair: then the first half is the
    last code unit, and the only one replaced. *)
Lemma toWellFormed_take (m : nat) : forall (s : jsstring) (n : nat),
  (length s <= m)%nat -> isWellFormed s = true ->
  toWellFormed (take n s) = take n s
  \/ (exists p h,
        take n s = p ++ [h] /\ is_high_surrogate h = true
        /\ toWellFormed (take n s) = p ++ [65533]).
Proof.
  induction m as [|m IH]; intros s n Hm Hwf.
  - destruct s; [|cbn in Hm; lia]. rewrite take_nil. left. reflexivity.
  - destruct s as [|c s']; [rewrite take_nil; left; reflexivity|].
    destruct n as [|n]; [left; reflexivity|].
    cbn [length] in Hm. cbn [isWellFormed] in Hwf. cbn [take].
    destruct (is_high_surrogate c) eqn:Hhigh.
    + destruct s' as [|d s'']; [discriminate|].
      apply andb_prop in Hwf as [Hlow Hwf]. cbn [length] in Hm.
      destruct n as [|n].
      * right. exists [], c. cbn [take toWellFormed app]. rewrite Hhigh. auto.
      * cbn [take toWellFormed]. rewrite Hhigh, Hlow.
        destruct (IH s'' n ltac:(lia) Hwf) as [Heq|(p & h & Htake & Hh & Heq)].
        -- left. rewrite Heq. reflexivity.
        -- right. exists (c :: d :: p), h. rewrite Htake, Heq in *. auto.
    + apply andb_prop in Hwf as [Hlow Hwf]. apply negb_true_iff in Hlow.
      cbn [toWellFormed]. rewrite Hhigh, Hlow.
      destruct (IH s' n ltac:(lia) Hwf) as [Heq|(p & h & Htake & Hh & Heq)].
      * left. rewrite Heq. reflexivity.
      * right. exists (c :: p), h. rewrite Htake, Heq in *. auto.
Qed.

(** C10, amended: the text handler stores, for a member whose free-text
    answer is awaited, one answer row whose [answer_text] is the first 2000
    code units of the message (the message itself when it has at most 2000),
    in which a surrogate without its other half has become U+FFFD: it has
    the length of that prefix, and is that prefix exactly when the prefix is
    well formed.  For a well-formed message only the last code unit can
    differ, when the cut at 2000 falls inside a surrogate pair.  When the
    prefix contains U+0000 the insert is refused: the handler throws with
    the awaited marker removed and nothing stored.  (The row is stored when
    PostgreSQL accepts it: fresh id, existing session and question.) *)
Theorem on_text_stores_first_2000 (c : sender) (msg : jsstring) (w : World) st :
  awaitingText w !! from_id c = Some st ->
  filter (fun a => a_id a = answers_id_seq w) (screening_answers w) = [] ->
  filter (fun s => s_id s = sessionId st) (screening_sessions w) <> [] ->
  filter (fun q => q_id q = questionId st) (screening_questions w) <> [] ->
  (0 ∉ take 2000 msg ->
   screening_answers (snd (on_text c msg w))
   = screening_answers w ++
     [mkAnswer (answers_id_seq w) (sessionId st) (questionId st)
        (Some (toWellFormed (take 2000 msg))) None None])
  /\ (0 ∈ take 2000 msg ->
      on_text c msg w
      = (Throw character_not_in_repertoire, set_awaitingText (delete (from_id c)) w))
  /\ length (toWellFormed (take 2000 msg)) = length (take 2000 msg)
  /\ (isWellFormed (take 2000 msg) = true <-> toWellFormed (take 2000 msg) = take 2000 msg)
  /\ (isWellFormed msg = true ->
      toWellFormed (take 2000 msg) = take 2000 msg
      \/ (exists p h,
            take 2000 msg = p ++ [h] /\ is_high_surrogate h = true
            /\ toWellFormed (take 2000 msg) = p ++ [65533]))
  /\ ((length msg <= 2000)%nat -> take 2000 msg = msg)
  /\ ((2000 < length msg)%nat -> length (take 2000 msg) = 2000%nat)
  /\ take 2000 msg `prefix_of` msg.
Proof.
  intros Hst Hid Hs Hq.
  assert (Hslice : slice msg 0 (Some 2000) = take 2000 msg).
  { change 2000 with (Z.of_nat 2000). apply slice_prefix. }
  split; [|split; [|split; [|split; [|split; [|split; [|split]]]]]].
  - intros Hnul. unfold on_text. unfold bind at 1. unfold query at 1. rewrite Hst.
    unfold bind at 1. unfold modify at 1. unfold bind at 1.
    rewrite Hslice, insert_text_ok by assumption.
    rewrite ask_next_keeps_answers. reflexivity.
  - intros Hnul. unfold on_text. unfold bind at 1. unfold query at 1. rewrite Hst.
    unfold bind at 1. unfold modify at 1. unfold bind at 1.
    rewrite Hslice, insert_text_nul by assumption. reflexivity.
  - apply (toWellFormed_spec (length (take 2000 msg))). reflexivity.
  - apply (toWellFormed_spec (length (take 2000 msg))). reflexivity.
  - intros Hwf. apply (toWellFormed_take (length msg)); [reflexivity | exact Hwf].
  - intros Hlen. apply take_ge. exact Hlen.
  - intros Hlen. rewrite length_take. lia.
  - apply prefix_take.
Qed.

Lemma on_text_stores_first_2000_witness :
  screening_answers (snd (on_text Examples.member7 (js "hello") Examples.awaiting_world))
  = screening_answers Examples.awaiting_world ++
    [mkAnswer 3 1 3 (Some (js "hello")) None None]
  /\ on_text Examples.member7 [97; 0; 98] Examples.awaiting_world
     = (Throw character_not_in_repertoire,
        set_awaitingText (delete 7) Examples.awaiting_world).
Proof.
  split.
  - refine (proj1 (on_text_stores_first_2000 Examples.member7 (js "hello")
                     Examples.awaiting_world (mkAwaiting 1 3) _ _ _ _) _).
    + vm_compute. reflexivity.
    + vm_compute. reflexivity.
    + vm_compute. discriminate.
    + vm_compute. discriminate.
    + intros Hin. vm_compute in Hin.
      repeat (apply elem_of_cons in Hin as [Hin|Hin]; [discriminate Hin|]).
      inversion Hin.
  - refine (proj1 (proj2 (on_text_stores_first_2000 Examples.member7 [97; 0; 98]
                            Examples.awaiting_world (mkAwaiting 1 3) _ _ _ _)) _).
    + vm_compute. reflexivity.
    + vm_compute. reflexivity.
    + vm_compute. discriminate.
    + vm_compute. discriminate.
    + apply elem_of_cons. right. apply elem_of_cons. left. reflexivity.
Defined.

(** C10, as stated, fails where the cut goes through a surrogate pair: of a
    message of 1999 letters and one emoji (2001 code units) the first 2000
    code units end with the first half of the emoji, and the answer stored
    ends with U+FFFD instead. *)
Lemma on_text_stores_replacement_character :
  length Examples.split_pair_message = 2001%nat
  /\ take 2000 Examples.split_pair_message = replicate 1999 97 ++ [55357]
  /\ answer_text <$>
       screening_answers
         (snd (on_text Examples.member7 Examples.split_pair_message
                 Examples.awaiting_world))
     = [None; None; Some (replicate 1999 97 ++ [65533])].
Proof. vm_compute. repeat split. Qed.

(** *** Duplicate submissions *)

(** What [insert_choice] does when PostgreSQL accepts the row: the row is
    added whether or not the session already holds an answer for [qid]. *)
Lemma insert_choice_ok sid qid chosen w :
  int4 qid = true -> int4 chosen = true ->
  filter (fun a => a_id a = answers_id_seq w) (screening_answers w) = [] ->
  filter (fun s => s_id s = sid) (screening_sessions w) <> [] ->
  filter (fun q => q_id q = qid) (screening_questions w) <> [] ->
  insert_choice sid qid chosen w =
  (Ok tt,
   set_answers (fun l => l ++ [mkAnswer (answers_id_seq w) sid qid None (Some chosen) None])
     (set_answers_id_seq (answers_id_seq w + 1) w)).
Proof.
  intros Hq4 Hc4 Hid Hs Hq. unfold insert_choice. rewrite Hq4, Hc4. cbn [andb negb].
  rewrite bool_decide_eq_false_2 by (rewrite Hid; auto).
  rewrite (bool_decide_eq_false_2 _ Hs), (bool_decide_eq_false_2 _ Hq). reflexivity.
Qed.

(** A press on an inline button adds an answer row whenever PostgreSQL
    accepts the row, whether or not the session already holds an answer for
    that question: nothing in the handler or in the insert looks at the
    rows of the session. *)
Lemma callback_always_stores c qid chosen w srow srest :
  select_session (from_id c) w = srow :: srest ->
  int4 qid = true -> int4 chosen = true ->
  filter (fun a => a_id a = answers_id_seq w) (screening_answers w) = [] ->
  filter (fun s => s_id s = s_id srow) (screening_sessions w) <> [] ->
  filter (fun q => q_id q = qid) (screening_questions w) <> [] ->
  screening_answers (snd (on_callback_query c (CbAns qid chosen) w))
  = screening_answers w ++
    [mkAnswer (answers_id_seq w) (s_id srow) qid None (Some chosen) None].
Proof.
  intros Hsess Hq4 Hc4 Hid Hs Hq.
  unfold on_callback_query, try_catch.
  unfold bind at 1. unfold getOrCreateSession, bind at 1, query. rewrite Hsess.
  unfold ret at 1. unfold bind at 1.
  rewrite (insert_choice_ok (s_id srow) qid chosen w Hq4 Hc4 Hid Hs Hq).
  unfold bind at 1, answerCbQuery at 1, modify at 1.
  match goal with
  | |- context [bind (nextQuestion ?sid) ?k ?w1] =>
      pose proof (ask_next_keeps_answers c sid w1) as Hkeep;
      destruct (bind (nextQuestion sid) k w1) as [[[]|e] w2]
  end; cbn [snd] in *; exact Hkeep.
Qed.

(** C2 on the code: the member presses the last button of question 1 twice.
    The second press adds a second answer row for session 1 and question 1,
    and the session finishes with score 15 where one press gives 10. *)
Lemma duplicate_choice_is_stored :
  (fun a => (session_id a, question_id a, chosen_index a))
    <$> screening_answers Examples.after_double_press
  = [(1, 1, Some 4); (1, 1, Some 4); (1, 2, Some 4)]
  /\ score <$> screening_sessions Examples.after_double_press = [15]
  /\ score <$> screening_sessions Examples.after_finish = [10].
Proof. vm_compute. repeat split. Qed.

(** C9: for a registered member whose screening status is "passed" or
    "failed", start-screening sends the terminal message of that status and
    nothing else, and for a user who is not registered it asks to register
    first; in each case the tables and the [awaitingText] map stay as they
    were, so no session is created and no question is asked. *)
Theorem startScreening_terminal_gate (c : sender) (w : World) :
  (forall row rest,
     select_member (from_id c) w = row :: rest ->
     screening_status row = js "passed" ->
     startScreeningWithCode c w = (Ok tt, replied TAlreadyPassed memberKeyboard w))
  /\ (forall row rest,
        select_member (from_id c) w = row :: rest ->
        screening_status row = js "failed" ->
        startScreeningWithCode c w = (Ok tt, replied TRejected memberKeyboard w))
  /\ (select_member (from_id c) w = [] ->
      startScreeningWithCode c w = (Ok tt, replied TRegisterFirst startKeyboard w))
  /\ (forall t kb,
        screening_sessions (replied t kb w) = screening_sessions w
        /\ screening_answers (replied t kb w) = screening_answers w
        /\ members (replied t kb w) = members w
        /\ awaitingText (replied t kb w) = awaitingText w
        /\ sent (replied t kb w) = sent w ++ [Reply t kb]).
Proof.
  repeat split.
  - intros row rest Hrow Hst. rewrite startScreeningWithCode_eq, Hrow.
    rewrite bool_decide_eq_true_2 by exact Hst. reflexivity.
  - intros row rest Hrow Hst. rewrite startScreeningWithCode_eq, Hrow.
    rewrite bool_decide_eq_false_2 by (rewrite Hst; discriminate).
    rewrite bool_decide_eq_true_2 by exact Hst. reflexivity.
  - intros Hnone. rewrite startScreeningWithCode_eq, Hnone. reflexivity.
Qed.

Lemma startScreening_terminal_gate_witness :
  startScreeningWithCode Examples.member7 Examples.passed_world
  = (Ok tt, replied TAlreadyPassed memberKeyboard Examples.passed_world)
  /\ startScreeningWithCode Examples.member7 Examples.failed_world
     = (Ok tt, replied TRejected memberKeyboard Examples.failed_world)
  /\ startScreeningWithCode Examples.stranger Examples.screening_world
     = (Ok tt, replied TRegisterFirst startKeyboard Examples.screening_world).
Proof.
  split; [|split].
  - refine (proj1 (startScreening_terminal_gate Examples.member7 Examples.passed_world)
              _ _ _ _); reflexivity.
  - refine (proj1 (proj2 (startScreening_terminal_gate Examples.member7 Examples.failed_world))
              _ _ _ _); reflexivity.
  - refine (proj1 (proj2 (proj2
              (startScreening_terminal_gate Examples.stranger Examples.screening_world))) _).
    reflexivity.
Defined.

(** *** Invariants of the tables *)

Section Maintains.
Context (I : World -> Prop).

Lemma maintains_ret {A} (a : A) (Q : A -> Prop) : Q a -> maintains I (ret a) Q.
Proof. intros Ha w Hw. split; [exact Hw | exact Ha]. Qed.

Lemma maintains_throw {A} e (Q : A -> Prop) : maintains I (throw e) Q.
Proof. intros w Hw. split; [exact Hw | exact Logic.I]. Qed.

Lemma maintains_query {A} (f : World -> A) : maintains I (query f) (fun _ => True).
Proof. intros w Hw. split; [exact Hw | exact Logic.I]. Qed.

Lemma maintains_bind {A B} (m : M World A) (k : A -> M World B) Q Q' :
  maintains I m Q -> (forall a, Q a -> maintains I (k a) Q') ->
  maintains I (bind m k) Q'.
Proof.
  intros Hm Hk w Hw. unfold bind. destruct (Hm w Hw) as [Hw1 Ha].
  destruct (m w) as [[a|e] w1]; cbn [fst snd] in *.
  - exact (Hk a Ha w1 Hw1).
  - split; [exact Hw1 | exact Logic.I].
Qed.

Lemma maintains_try_catch {A} (body : M World A) (handler : exn -> M World A) Q :
  maintains I body Q -> (forall e, maintains I (handler e) Q) ->
  maintains I (try_catch body handler) Q.
Proof.
  intros Hb Hh w Hw. unfold try_catch. destruct (Hb w Hw) as [Hw1 Ha].
  destruct (body w) as [[a|e] w1]; cbn [fst snd] in *.
  - split; assumption.
  - exact (Hh e w1 Hw1).
Qed.

Lemma maintains_weaken {A} (m : M World A) (Q Q' : A -> Prop) :
  maintains I m Q -> (forall a, Q a -> Q' a) -> maintains I m Q'.
Proof.
  intros Hm HQ w Hw. destruct (Hm w Hw) as [Hw1 Ha]. split; [exact Hw1|].
  destruct (fst (m w)); [apply HQ; exact Ha | exact Logic.I].
Qed.

(** A computation whose every outcome keeps [I]. *)
Lemma maintains_step {A} (m : M World A) :
  (forall w, I w -> I (snd (m w))) -> maintains I m (fun _ => True).
Proof.
  intros H w Hw. split; [exact (H w Hw)|]. destruct (fst (m w)); exact Logic.I.
Qed.
End Maintains.

Lemma generateUniqueCode_conforms w :
  exists c r,
    generateUniqueCode w = (Ok c, set_rng r w) /\ CODE_REGEX_test c = true.
Proof.
  unfold generateUniqueCode.
  pose proof (proj1 (proj2 (CodeGenFacts.generateUniqueCode_shapes my_code (members w) (rng w))))
    as Hshape.
  destruct (CodeGen.Screening.generateUniqueCode my_code (members w) (rng w)) as [c r].
  exists c, r. split; [reflexivity | exact Hshape].
Qed.

(** **** Members *)

Lemma codes_ok_same_members w w' :
  members w' = members w -> codes_ok w -> codes_ok w'.
Proof. unfold codes_ok. intros ->. auto. Qed.

Lemma NoDup_update_code (l : list member) c tgId :
  NoDup (tg_id <$> l) -> NoDup (my_code <$> l) ->
  (forall m, m ∈ l -> my_code m = Some c -> tg_id m = tgId) ->
  NoDup (my_code <$>
           ((fun m => if bool_decide (tg_id m = tgId) then with_code c m else m) <$> l)).
Proof.
  set (f := fun m => if bool_decide (tg_id m = tgId) then with_code c m else m).
  induction l as [|a l IH]; intros Hid Hcode Hc; [constructor|].
  cbn [fmap list_fmap] in *.
  apply NoDup_cons in Hid as [Ha_id Hid]. apply NoDup_cons in Hcode as [Ha_code Hcode].
  apply NoDup_cons. split.
  - intros Hin. apply list_elem_of_fmap in Hin as (x & Hx & Hxin).
    apply list_elem_of_fmap in Hxin as (m & -> & Hm).
    unfold f in Hx at 1 2. 
    destruct (decide (tg_id a = tgId)) as [Ha|Ha];
      destruct (decide (tg_id m = tgId)) as [Hm'|Hm'].
    + apply Ha_id. apply list_elem_of_fmap. exists m. split; [congruence | exact Hm].
    + rewrite (bool_decide_eq_true_2 _ Ha), (bool_decide_eq_false_2 _ Hm') in Hx.
      cbn [my_code with_code] in Hx. apply Hm'. apply Hc; [right; exact Hm | congruence].
    + rewrite (bool_decide_eq_false_2 _ Ha), (bool_decide_eq_true_2 _ Hm') in Hx.
      cbn [my_code with_code] in Hx. apply Ha. apply Hc; [left | congruence].
    + rewrite (bool_decide_eq_false_2 _ Ha), (bool_decide_eq_false_2 _ Hm') in Hx.
      apply Ha_code. apply list_elem_of_fmap. exists m. split; [congruence | exact Hm].
  - apply IH; [exact Hid | exact Hcode |]. intros m Hm. apply Hc. right. exact Hm.
Qed.

Lemma update_no_row (l : list member) (g : member -> member) tgId :
  filter (fun m => tg_id m = tgId) l = [] ->
  (fun m => if bool_decide (tg_id m = tgId) then g m else m) <$> l = l.
Proof.
  intros Hnone. induction l as [|a l IH]; [reflexivity|].
  rewrite filter_cons in Hnone. cbn [fmap list_fmap].
  destruct (decide (tg_id a = tgId)) as [Ha|Ha]; [discriminate|].
  rewrite (bool_decide_eq_false_2 _ Ha), (IH Hnone). reflexivity.
Qed.

Lemma codes_ok_update_my_code c tgId :
  CODE_REGEX_test c = true ->
  maintains codes_ok (update_my_code c tgId) (fun _ => True).
Proof.
  intros Hc. apply maintains_step. intros w (Hid & Hcode & Hfix). unfold update_my_code.
  case_bool_decide as Hrow; cbn [andb].
  - case_bool_decide as Hother; [repeat split; assumption|].
    cbn [snd]. unfold codes_ok. cbn [members set_members].
    split; [|split].
    + rewrite <- list_fmap_compose.
      erewrite list_fmap_ext; [exact Hid|]. intros i m _. cbn.
      case_bool_decide; reflexivity.
    + apply NoDup_update_code; [exact Hid | exact Hcode|].
      intros m Hm Hmc. destruct (decide (tg_id m = tgId)) as [|Hne]; [assumption|].
      exfalso.
      assert (Hin : m ∈ filter (fun m => my_code m = Some c /\ tg_id m <> tgId) (members w))
        by (apply list_elem_of_filter; auto).
      rewrite Hother in Hin. inversion Hin.
    + apply Forall_fmap. eapply Forall_impl; [exact Hfix|]. intros m Hm. cbn.
      case_bool_decide; [|exact Hm]. unfold needs_fix. cbn [my_code with_code].
      rewrite Hc. reflexivity.
  - cbn [snd]. unfold codes_ok. cbn [members set_members].
    unfold select_member in Hrow. rewrite (update_no_row _ _ _ Hrow).
    repeat split; assumption.
Qed.

Lemma codes_ok_insert_member c code :
  CODE_REGEX_test code = true ->
  maintains codes_ok (insert_member c code) (fun _ => True).
Proof.
  intros Hc. apply maintains_step. intros w (Hid & Hcode & Hfix). unfold insert_member.
  case_bool_decide as Hrow; cbn [orb]; [repeat split; assumption|].
  destruct (CodeGen.code_taken my_code (members w) code) eqn:Htaken;
    [repeat split; assumption|].
  cbn [snd]. unfold codes_ok. cbn [members set_members]. rewrite !fmap_app.
  cbn [fmap list_fmap tg_id my_code]. split; [|split].
  - apply NoDup_app. split; [exact Hid|]. split; [|apply NoDup_singleton].
    intros x Hx Hx'. apply list_elem_of_singleton in Hx'. subst x.
    apply list_elem_of_fmap in Hx as (m & Hm_id & Hm).
    assert (Hin : m ∈ select_member (from_id c) w)
      by (apply list_elem_of_filter; split; [congruence | exact Hm]).
    rewrite Hrow in Hin. inversion Hin.
  - apply NoDup_app. split; [exact Hcode|]. split; [|apply NoDup_singleton].
    intros x Hx Hx'. apply list_elem_of_singleton in Hx'. subst x.
    apply list_elem_of_fmap in Hx as (m & Hm_code & Hm).
    unfold CodeGen.code_taken in Htaken. apply negb_false_iff, bool_decide_eq_true in Htaken.
    assert (Hin : m ∈ CodeGen.select_by_code my_code (members w) code)
      by (apply list_elem_of_filter; split; [congruence | exact Hm]).
    rewrite Htaken in Hin. inversion Hin.
  - apply Forall_app. split; [exact Hfix|]. apply Forall_singleton.
    unfold needs_fix. cbn [my_code]. rewrite Hc. reflexivity.
Qed.

Lemma codes_ok_generateUniqueCode :
  maintains codes_ok generateUniqueCode (fun c => CODE_REGEX_test c = true).
Proof.
  intros w Hw. destruct (generateUniqueCode_conforms w) as (c & r & -> & Hc).
  split; [exact (codes_ok_same_members w _ eq_refl Hw) | exact Hc].
Qed.

Lemma codes_ok_update_status grade tgId :
  maintains codes_ok (update_status grade tgId) (fun _ => True).
Proof.
  apply maintains_step. intros w (Hid & Hcode & Hfix).
  unfold update_status, modify, codes_ok. cbn [snd members set_members].
  rewrite <- !list_fmap_compose. split; [|split].
  - erewrite list_fmap_ext; [exact Hid|]. intros i m _. cbn. case_bool_decide; reflexivity.
  - erewrite list_fmap_ext; [exact Hcode|]. intros i m _. cbn. case_bool_decide; reflexivity.
  - apply Forall_fmap. eapply Forall_impl; [exact Hfix|]. intros m Hm. cbn.
    case_bool_decide; exact Hm.
Qed.

(** The computations that leave the members table alone. *)
Lemma codes_ok_untouched {A} (m : M World A) :
  (forall w, members (snd (m w)) = members w) ->
  maintains codes_ok m (fun _ => True).
Proof.
  intros H. apply maintains_step. intros w Hw.
  exact (codes_ok_same_members w _ (H w) Hw).
Qed.

Lemma members_insert_session tgId w : members (snd (insert_session tgId w)) = members w.
Proof.
  unfold insert_session. destruct (_ || _); [reflexivity|]. case_bool_decide; reflexivity.
Qed.

Lemma members_insert_choice sid qid chosen w :
  members (snd (insert_choice sid qid chosen w)) = members w.
Proof.
  unfold insert_choice. destruct (negb _); [reflexivity|].
  case_bool_decide; [reflexivity|]. destruct (_ || _); reflexivity.
Qed.

Lemma members_insert_text sid qid t w :
  members (snd (insert_text sid qid t w)) = members w.
Proof.
  unfold insert_text. destruct (text_param t) as [stored|e]; [|reflexivity].
  case_bool_decide; [reflexivity|]. destruct (_ || _); reflexivity.
Qed.

Create HintDb maint.

#[local] Hint Resolve maintains_query maintains_throw
  codes_ok_generateUniqueCode codes_ok_update_status : maint.
#[local] Hint Extern 1 (maintains codes_ok (update_my_code _ _) _) =>
  apply codes_ok_update_my_code; assumption : maint.
#[local] Hint Extern 1 (maintains codes_ok (insert_member _ _) _) =>
  apply codes_ok_insert_member; assumption : maint.
#[local] Hint Extern 1 (maintains _ (ret _) _) =>
  apply maintains_ret; exact Logic.I : maint.
#[local] Hint Extern 2 (maintains codes_ok _ _) =>
  apply codes_ok_untouched;
  first [ reflexivity | exact (members_insert_session _) | exact (members_insert_choice _ _ _)
        | exact (members_insert_text _ _ _) ] : maint.

(** One step of a proof that a handler keeps an invariant. *)
Ltac maint_step :=
  first
    [ solve [auto with maint]
    | progress cbv zeta
    | eapply maintains_bind; [solve [auto with maint]|intros ? ?]
    | apply maintains_try_catch; [|intros ?]
    | match goal with
      | |- maintains _ (match ?x with _ => _ end) _ => destruct x eqn:?
      end ].

Lemma codes_ok_ensureCodeFormat tgId :
  maintains codes_ok (ensureCodeFormat tgId) (fun _ => True).
Proof. unfold ensureCodeFormat. repeat maint_step. Qed.

Lemma codes_ok_getOrCreateSession tgId :
  maintains codes_ok (getOrCreateSession tgId) (fun _ => True).
Proof. unfold getOrCreateSession. repeat maint_step. Qed.

Lemma codes_ok_askQuestion c sid q :
  maintains codes_ok (askQuestion c sid q) (fun _ => True).
Proof. unfold askQuestion, finish_session. repeat maint_step. Qed.

#[local] Hint Resolve codes_ok_ensureCodeFormat codes_ok_getOrCreateSession
  codes_ok_askQuestion : maint.

Lemma codes_ok_verifyCodeAndBegin c code :
  maintains codes_ok (verifyCodeAndBegin c code) (fun _ => True).
Proof. unfold verifyCodeAndBegin, nextQuestion. repeat maint_step. Qed.

#[local] Hint Resolve codes_ok_verifyCodeAndBegin : maint.

Lemma codes_ok_on_message c msg :
  maintains codes_ok (on_message c msg) (fun _ => True).
Proof.
  unfold on_message, handleRegister, handleMyCode, startScreeningWithCode, on_code,
    on_text, nextQuestion.
  repeat maint_step.
Qed.

#[local] Hint Resolve codes_ok_on_message : maint.

Lemma codes_ok_handle c u : maintains codes_ok (handle c u) (fun _ => True).
Proof.
  destruct u as [cmd msg|msg|d]; cbn [handle].
  - unfold on_start, handleRegister, handleMyCode. repeat maint_step.
  - repeat maint_step.
  - unfold on_callback_query, nextQuestion. repeat maint_step.
Qed.

Lemma codes_ok_run us : forall w, codes_ok w -> codes_ok (run us w).
Proof.
  induction us as [|[c u] us IH]; intros w Hw; [exact Hw|].
  cbn [run]. apply IH. exact (proj1 (codes_ok_handle c u w Hw)).
Qed.

Lemma needs_fix_false m :
  needs_fix m = false <-> exists c, my_code m = Some c /\ CODE_REGEX_test c = true.
Proof.
  unfold needs_fix. destruct (my_code m) as [c|].
  - rewrite negb_false_iff. split; [eauto|]. intros (c' & [= <-] & Hc). exact Hc.
  - split; [discriminate|]. intros (c & Hc & _). discriminate.
Qed.

(** X8: the screening bot keeps its members table well formed: if the
    Telegram ids are distinct, the codes are distinct and every code matches
    [^[A-Z][0-9]{6}$], the same holds after any sequence of updates from any
    users (commands, among them [/start], button labels, codes, other texts
    and button presses), also when handlers fail on the way. *)
Theorem members_stay_well_formed (us : list (sender * update)) (w : World) :
  codes_ok w ->
  NoDup (tg_id <$> members (run us w))
  /\ NoDup (my_code <$> members (run us w))
  /\ (forall m, m ∈ members (run us w) ->
        exists c, my_code m = Some c /\ CODE_REGEX_test c = true).
Proof.
  intros Hw. destruct (codes_ok_run us w Hw) as (Hid & Hcode & Hfix).
  split; [exact Hid|]. split; [exact Hcode|].
  intros m Hm. apply needs_fix_false. rewrite Forall_forall in Hfix. exact (Hfix m Hm).
Qed.

Lemma members_stay_well_formed_witness :
  NoDup (my_code <$> members
           (run [Examples.start_command Examples.stranger; (Examples.stranger, URegister);
                 Examples.start_command Examples.stranger; Examples.send_code;
                 Examples.last_option 1]
              Examples.screening_world)).
Proof.
  refine (proj1 (proj2 (members_stay_well_formed
                          [Examples.start_command Examples.stranger;
                           (Examples.stranger, URegister);
                           Examples.start_command Examples.stranger; Examples.send_code;
                           Examples.last_option 1]
                          Examples.screening_world _))).
  unfold codes_ok. cbn. repeat split.
  - apply NoDup_singleton.
  - apply NoDup_singleton.
  - repeat constructor.
Defined.

(** *** Repairing and allocating codes *)

Lemma update_my_code_ok c tgId w w' :
  update_my_code c tgId w = (Ok tt, w') ->
  w' = set_members (fmap (fun m => if bool_decide (tg_id m = tgId) then with_code c m else m)) w.
Proof.
  unfold update_my_code. destruct (_ && _); [discriminate|]. intros [= <-]. reflexivity.
Qed.

(** X10: when [ensureCodeFormat] returns a code, that code matches
    [^[A-Z][0-9]{6}$] and is the code stored in the member's row afterwards,
    no row was added or removed, and calling it again returns the same code
    and changes nothing; it returns null exactly for a user with no row, and
    then changes nothing. *)
Theorem ensureCodeFormat_returns_stored_code (tgId : Z) (w w' : World) :
  (forall c,
     ensureCodeFormat tgId w = (Ok (Some c), w') ->
     CODE_REGEX_test c = true
     /\ (exists row rest, select_member tgId w' = row :: rest /\ my_code row = Some c)
     /\ tg_id <$> members w' = tg_id <$> members w
     /\ ensureCodeFormat tgId w' = (Ok (Some c), w'))
  /\ (ensureCodeFormat tgId w = (Ok None, w') <-> select_member tgId w = [] /\ w' = w).
Proof.
  split.
  - intros c Hrun.
    assert (Hmain : CODE_REGEX_test c = true
              /\ (exists row rest, select_member tgId w' = row :: rest /\ my_code row = Some c)
              /\ tg_id <$> members w' = tg_id <$> members w).
    { unfold ensureCodeFormat, bind, query in Hrun.
      destruct (select_member tgId w) as [|row rest] eqn:Hrow; [discriminate|].
      assert (Hrepair :
        (let (o, w1) := generateUniqueCode w in
         match o with
         | Ok a => let (o0, w2) := update_my_code a tgId w1 in
                   match o0 with
                   | Ok _ => ret (Some a) w2
                   | Throw e => (Throw e, w2)
                   end
         | Throw e => (Throw e, w1)
         end) = (Ok (Some c), w') ->
        CODE_REGEX_test c = true
        /\ (exists row rest, select_member tgId w' = row :: rest /\ my_code row = Some c)
        /\ tg_id <$> members w' = tg_id <$> members w).
      { destruct (generateUniqueCode_conforms w) as (c0 & r & -> & Hc0).
        destruct (update_my_code c0 tgId (set_rng r w)) as [[[]|e] w2] eqn:Hup; [|discriminate].
        intros [= <- <-]. apply update_my_code_ok in Hup. subst w2.
        split; [exact Hc0|]. split.
        - unfold select_member at 1. cbn [members set_members set_rng].
          rewrite select_member_with_status by (intros m; case_bool_decide; reflexivity).
          rewrite Hrow. cbn [fmap list_fmap]. eexists _, _. split; [reflexivity|].
          rewrite bool_decide_eq_true_2 by exact (select_member_tg_id _ _ _ _ Hrow).
          reflexivity.
        - cbn [members set_members set_rng]. rewrite <- list_fmap_compose.
          apply list_fmap_ext. intros i m _. cbn. case_bool_decide; reflexivity. }
      destruct (my_code row) as [current|] eqn:Hcur; [|exact (Hrepair Hrun)].
      destruct (truthy current && CODE_REGEX_test current) eqn:Hok; [|exact (Hrepair Hrun)].
      injection Hrun as <- <-. apply andb_prop in Hok as [_ Hre].
      split; [exact Hre|]. split; [eauto | reflexivity]. }
    destruct Hmain as (Hre & (row & rest & Hrow & Hcode) & Hids).
    split; [exact Hre|]. split; [eauto|]. split; [exact Hids|].
    exact (RepairFacts.screening_ensureCodeFormat_noop w' tgId row rest c Hrow Hcode Hre).
  - unfold ensureCodeFormat, bind, query. split.
    + destruct (select_member tgId w) as [|row rest] eqn:Hrow;
        [intros [= <-]; split; reflexivity|].
      intros Hrun. exfalso.
      assert (Hrepair : forall x,
        (let (o, w1) := generateUniqueCode w in
         match o with
         | Ok a => let (o0, w2) := update_my_code a tgId w1 in
                   match o0 with
                   | Ok _ => ret (Some a) w2
                   | Throw e => (Throw e, w2)
                   end
         | Throw e => (Throw e, w1)
         end) = (Ok None, x) -> False).
      { intros x. destruct (generateUniqueCode_conforms w) as (c0 & r & -> & _).
        destruct (update_my_code c0 tgId (set_rng r w)) as [[[]|e] w2]; discriminate. }
      destruct (my_code row) as [current|]; [|exact (Hrepair _ Hrun)].
      destruct (truthy current && CODE_REGEX_test current);
        [discriminate | exact (Hrepair _ Hrun)].
    + intros [-> ->]. reflexivity.
Qed.

Lemma ensureCodeFormat_returns_stored_code_witness :
  CODE_REGEX_test (js "B111111") = true
  /\ ensureCodeFormat 7 (snd (ensureCodeFormat 7 Examples.malformed_world))
     = (Ok (Some (js "B111111")), snd (ensureCodeFormat 7 Examples.malformed_world)).
Proof.
  destruct (proj1 (ensureCodeFormat_returns_stored_code 7 Examples.malformed_world
                     (snd (ensureCodeFormat 7 Examples.malformed_world)))
              (js "B111111") ltac:(vm_compute; reflexivity))
    as (Hre & _ & _ & Hagain).
  split; [exact Hre | exact Hagain].
Defined.

(** *** The start-up repair *)

Lemma backfill_spec rows : forall w w',
  backfill rows w = (Ok tt, w') ->
  (forall m, m ∈ members w -> needs_fix m = false \/ tg_id m ∈ tg_id <$> rows) ->
  Forall (fun m => needs_fix m = false) (members w')
  /\ tg_id <$> members w' = tg_id <$> members w
  /\ (forall m, m ∈ members w -> tg_id m ∉ tg_id <$> rows -> m ∈ members w').
Proof.
  induction rows as [|r rows IH]; intros w w' Hrun Hcover.
  - injection Hrun as <-. split; [|split; [reflexivity | auto]].
    apply Forall_forall. intros m Hm. destruct (Hcover m Hm) as [H|H]; [exact H | inversion H].
  - cbn [backfill] in Hrun. unfold bind in Hrun.
    destruct (generateUniqueCode_conforms w) as (c & rn & Hgen & Hc). rewrite Hgen in Hrun.
    destruct (update_my_code c (tg_id r) (set_rng rn w)) as [[[]|e] w1] eqn:Hup;
      [|discriminate].
    apply update_my_code_ok in Hup.
    assert (Hmem : members w1
              = (fun m => if bool_decide (tg_id m = tg_id r) then with_code c m else m)
                  <$> members w) by (subst w1; reflexivity).
    destruct (IH w1 w' Hrun) as (Hfix & Hids & Hkeep).
    { intros m Hm. rewrite Hmem in Hm. apply list_elem_of_fmap in Hm as (m0 & -> & Hm0).
      case_bool_decide as Hr.
      - left. unfold needs_fix. cbn [my_code with_code]. rewrite Hc. reflexivity.
      - destruct (Hcover m0 Hm0) as [H|H]; [left; exact H|]. right.
        cbn [fmap list_fmap] in H. apply elem_of_cons in H as [H|H]; [contradiction | exact H]. }
    split; [exact Hfix|]. split.
    + rewrite Hids, Hmem, <- list_fmap_compose. apply list_fmap_ext.
      intros i m _. cbn. case_bool_decide; reflexivity.
    + intros m Hm Hout. cbn [fmap list_fmap] in Hout. apply not_elem_of_cons in Hout as [Hr Hout].
      apply Hkeep; [|exact Hout]. rewrite Hmem. apply list_elem_of_fmap. exists m.
      split; [|exact Hm]. rewrite bool_decide_eq_false_2 by exact Hr. reflexivity.
Qed.

Lemma tg_id_determines_row (l : list member) x y :
  NoDup (tg_id <$> l) -> x ∈ l -> y ∈ l -> tg_id x = tg_id y -> x = y.
Proof.
  induction l as [|a l IH]; intros Hnd Hx Hy Hf; [inversion Hx|].
  cbn [fmap list_fmap] in Hnd. apply NoDup_cons in Hnd as [Ha Hnd].
  apply elem_of_cons in Hx as [->|Hx]; apply elem_of_cons in Hy as [->|Hy].
  - reflexivity.
  - exfalso. apply Ha. rewrite Hf. apply list_elem_of_fmap. eauto.
  - exfalso. apply Ha. rewrite <- Hf. apply list_elem_of_fmap. eauto.
  - apply IH; assumption.
Qed.

(** X11: when the start-up repair of [initDb] completes, every member has
    a code that matches [^[A-Z][0-9]{6}$], the table has the same members in
    the same order, and (Telegram ids being distinct) every row whose code was
    already well formed is exactly as it was; on a table whose codes are all
    well formed it does nothing at all. *)
Theorem initDb_repairs_codes (w w' : World) :
  (initDb w = (Ok tt, w') ->
   (forall m, m ∈ members w' ->
      exists c, my_code m = Some c /\ CODE_REGEX_test c = true)
   /\ tg_id <$> members w' = tg_id <$> members w
   /\ (NoDup (tg_id <$> members w) ->
       forall m, m ∈ members w -> needs_fix m = false -> m ∈ members w'))
  /\ (Forall (fun m => needs_fix m = false) (members w) -> initDb w = (Ok tt, w)).
Proof.
  split.
  - intros Hrun. unfold initDb, bind, query in Hrun.
    destruct (backfill_spec _ w w' Hrun) as (Hfix & Hids & Hkeep).
    { intros m Hm. destruct (needs_fix m) eqn:Hn; [right | left; reflexivity].
      apply list_elem_of_fmap. exists m. split; [reflexivity|].
      apply list_elem_of_filter. split; assumption. }
    split; [|split; [exact Hids|]].
    + intros m Hm. apply needs_fix_false. rewrite Forall_forall in Hfix. exact (Hfix m Hm).
    + intros Hnd m Hm Hgood. apply Hkeep; [exact Hm|]. intros Hin.
      apply list_elem_of_fmap in Hin as (m' & Hid & Hm').
      apply list_elem_of_filter in Hm' as [Hbad Hm'].
      assert (m = m') as -> by (apply (tg_id_determines_row (members w)); assumption).
      congruence.
  - intros Hgood. unfold initDb, bind, query.
    assert (Hnone : filter (fun m => needs_fix m = true) (members w) = []).
    { induction Hgood as [|m l Hm _ IH]; [reflexivity|].
      rewrite filter_cons. destruct (decide (needs_fix m = true)); [congruence | exact IH]. }
    rewrite Hnone. reflexivity.
Qed.

Lemma initDb_repairs_codes_witness :
  tg_id <$> members (snd (initDb Examples.malformed_world))
  = tg_id <$> members Examples.malformed_world.
Proof.
  refine (proj1 (proj2 (proj1 (initDb_repairs_codes Examples.malformed_world
                                 (snd (initDb Examples.malformed_world))) _))).
  vm_compute. reflexivity.
Defined.

(** *** Registering *)



(** **** Sessions and answers *)

Lemma links_ok_same_keys w w' :
  s_tg_id <$> screening_sessions w' = s_tg_id <$> screening_sessions w ->
  s_id <$> screening_sessions w' = s_id <$> screening_sessions w ->
  a_id <$> screening_answers w' = a_id <$> screening_answers w ->
  (fun a => (session_id a, question_id a)) <$> screening_answers w'
  = (fun a => (session_id a, question_id a)) <$> screening_answers w ->
  q_id <$> screening_questions w' = q_id <$> screening_questions w ->
  tg_id <$> members w ⊆ tg_id <$> members w' ->
  links_ok w -> links_ok w'.
Proof.
  intros H1 H2 H3 H4 H5 H6 (Hs1 & Hs2 & Ha & Hown & Hfk).
  unfold links_ok. rewrite H1, H2, H3, H5.
  split; [exact Hs1|]. split; [exact Hs2|]. split; [exact Ha|]. split.
  - intros s Hs. apply H6.
    assert (Hin : s_tg_id s ∈ s_tg_id <$> screening_sessions w')
      by (apply list_elem_of_fmap; eauto).
    rewrite H1 in Hin. apply list_elem_of_fmap in Hin as (s0 & -> & Hs0).
    exact (Hown s0 Hs0).
  - intros a Ha'.
    assert (Hin : (session_id a, question_id a)
                  ∈ (fun a => (session_id a, question_id a)) <$> screening_answers w')
      by (apply list_elem_of_fmap; eauto).
    rewrite H4 in Hin. apply list_elem_of_fmap in Hin as (a0 & [= -> ->] & Ha0).
    exact (Hfk a0 Ha0).
Qed.

(** The computations that keep the keys of every table. *)
Lemma links_ok_untouched {A} (m : M World A) :
  (forall w, screening_sessions (snd (m w)) = screening_sessions w
             /\ screening_answers (snd (m w)) = screening_answers w
             /\ screening_questions (snd (m w)) = screening_questions w
             /\ tg_id <$> members (snd (m w)) = tg_id <$> members w) ->
  maintains links_ok m (fun _ => True).
Proof.
  intros H. apply maintains_step. intros w Hw. destruct (H w) as (H1 & H2 & H3 & H4).
  apply (links_ok_same_keys w); try rewrite H1; try rewrite H2; try rewrite H3;
    try reflexivity; [rewrite H4; reflexivity | exact Hw].
Qed.

Lemma links_ok_generateUniqueCode : maintains links_ok generateUniqueCode (fun _ => True).
Proof.
  apply links_ok_untouched. intros w.
  destruct (generateUniqueCode_conforms w) as (c & r & -> & _). repeat split.
Qed.

Lemma links_ok_update_my_code c tgId :
  maintains links_ok (update_my_code c tgId) (fun _ => True).
Proof.
  apply links_ok_untouched. intros w. unfold update_my_code.
  destruct (_ && _); [repeat split|]. cbn [snd]. repeat split.
  cbn [members set_members]. rewrite <- list_fmap_compose. apply list_fmap_ext.
  intros i m _. cbn. case_bool_decide; reflexivity.
Qed.

Lemma links_ok_update_status grade tgId :
  maintains links_ok (update_status grade tgId) (fun _ => True).
Proof.
  apply links_ok_untouched. intros w. repeat split.
  unfold update_status, modify. cbn [snd members set_members].
  rewrite <- list_fmap_compose. apply list_fmap_ext.
  intros i m _. cbn. case_bool_decide; reflexivity.
Qed.

Lemma links_ok_insert_member c code :
  maintains links_ok (insert_member c code) (fun _ => True).
Proof.
  apply maintains_step. intros w Hw. unfold insert_member.
  destruct (_ || _); [exact Hw|]. cbn [snd].
  apply (links_ok_same_keys w); try reflexivity; [|exact Hw].
  cbn [members set_members]. rewrite fmap_app. intros x Hx. apply elem_of_app. left. exact Hx.
Qed.

Lemma links_ok_finish_session sc grade sid :
  maintains links_ok (finish_session sc grade sid) (fun _ => True).
Proof.
  apply maintains_step. intros w Hw. unfold finish_session. cbn [snd].
  apply (links_ok_same_keys w); try reflexivity; [| |exact Hw];
    cbn [screening_sessions set_sessions]; rewrite <- list_fmap_compose;
    apply list_fmap_ext; intros i s _; cbn; case_bool_decide; reflexivity.
Qed.

Lemma links_ok_insert_session tgId :
  maintains links_ok (insert_session tgId) (fun _ => True).
Proof.
  apply maintains_step. intros w Hw. unfold insert_session.
  case_bool_decide as Hid; cbn [orb]; [exact Hw|].
  case_bool_decide as Htg; [exact Hw|].
  case_bool_decide as Hmem; [exact Hw|].
  destruct Hw as (Hs1 & Hs2 & Ha & Hown & Hfk).
  cbn [snd]. unfold links_ok.
  cbn [screening_sessions screening_answers screening_questions members
       set_sessions set_sessions_id_seq].
  rewrite !fmap_app. cbn [fmap list_fmap s_tg_id s_id].
  split; [|split; [|split; [exact Ha|split]]].
  - apply NoDup_app. split; [exact Hs1|]. split; [|apply NoDup_singleton].
    intros x Hx Hx'. apply list_elem_of_singleton in Hx'. subst x.
    apply list_elem_of_fmap in Hx as (s & Hs & Hin).
    assert (Hf : s ∈ select_session tgId w)
      by (apply list_elem_of_filter; split; [congruence | exact Hin]).
    rewrite Htg in Hf. inversion Hf.
  - apply NoDup_app. split; [exact Hs2|]. split; [|apply NoDup_singleton].
    intros x Hx Hx'. apply list_elem_of_singleton in Hx'. subst x.
    apply list_elem_of_fmap in Hx as (s & Hs & Hin).
    assert (Hf : s ∈ filter (fun s => s_id s = sessions_id_seq w) (screening_sessions w))
      by (apply list_elem_of_filter; split; [congruence | exact Hin]).
    rewrite Hid in Hf. inversion Hf.
  - intros s Hs. apply elem_of_app in Hs as [Hs|Hs]; [exact (Hown s Hs)|].
    apply list_elem_of_singleton in Hs. subst s. cbn [s_tg_id].
    destruct (select_member tgId w) as [|m ms] eqn:Hsel; [contradiction|].
    apply list_elem_of_fmap. exists m.
    assert (Hm : m ∈ select_member tgId w) by (rewrite Hsel; left).
    apply list_elem_of_filter in Hm as [Hm1 Hm2]. split; [congruence | exact Hm2].
  - intros a Ha'. destruct (Hfk a Ha') as [Hf1 Hf2]. split; [|exact Hf2].
    apply elem_of_app. left. exact Hf1.
Qed.

Lemma links_ok_new_answer w (a : answer) :
  a_id a = answers_id_seq w ->
  filter (fun a => a_id a = answers_id_seq w) (screening_answers w) = [] ->
  filter (fun s => s_id s = session_id a) (screening_sessions w) <> [] ->
  filter (fun q => q_id q = question_id a) (screening_questions w) <> [] ->
  links_ok w ->
  links_ok (set_answers (fun l => l ++ [a]) (set_answers_id_seq (answers_id_seq w + 1) w)).
Proof.
  intros Hida Hid Hs Hq (Hs1 & Hs2 & Ha & Hown & Hfk). unfold links_ok.
  cbn [screening_sessions screening_answers screening_questions members
       set_answers set_answers_id_seq].
  split; [exact Hs1|]. split; [exact Hs2|]. split; [|split; [exact Hown|]].
  - rewrite fmap_app. cbn [fmap list_fmap]. apply NoDup_app. split; [exact Ha|].
    split; [|apply NoDup_singleton].
    intros x Hx Hx'. apply list_elem_of_singleton in Hx'. subst x.
    apply list_elem_of_fmap in Hx as (a0 & Ha0 & Hin).
    assert (Hf : a0 ∈ filter (fun a => a_id a = answers_id_seq w) (screening_answers w))
      by (apply list_elem_of_filter; split; [congruence | exact Hin]).
    rewrite Hid in Hf. inversion Hf.
  - intros a0 Ha0. apply elem_of_app in Ha0 as [Ha0|Ha0]; [exact (Hfk a0 Ha0)|].
    apply list_elem_of_singleton in Ha0. subst a0. split.
    + destruct (filter (fun s => s_id s = session_id a) (screening_sessions w))
        as [|s ss] eqn:Hsel; [contradiction|].
      assert (Hin : s ∈ filter (fun s => s_id s = session_id a) (screening_sessions w))
        by (rewrite Hsel; left).
      apply list_elem_of_filter in Hin as [Hs_id Hin].
      apply list_elem_of_fmap. exists s. split; [congruence | exact Hin].
    + destruct (filter (fun q => q_id q = question_id a) (screening_questions w))
        as [|q qs] eqn:Hsel; [contradiction|].
      assert (Hin : q ∈ filter (fun q => q_id q = question_id a) (screening_questions w))
        by (rewrite Hsel; left).
      apply list_elem_of_filter in Hin as [Hq_id Hin].
      apply list_elem_of_fmap. exists q. split; [congruence | exact Hin].
Qed.

Lemma links_ok_seq_bump w :
  links_ok w -> links_ok (set_answers_id_seq (answers_id_seq w + 1) w).
Proof. intros Hw. exact Hw. Qed.

Lemma links_ok_insert_choice sid qid chosen :
  maintains links_ok (insert_choice sid qid chosen) (fun _ => True).
Proof.
  apply maintains_step. intros w Hw. unfold insert_choice.
  destruct (negb _); [exact Hw|].
  case_bool_decide as Hid; [exact Hw|].
  case_bool_decide as Hs; cbn [orb]; [exact Hw|].
  case_bool_decide as Hq; [exact Hw|].
  cbn [snd]. apply links_ok_new_answer; [reflexivity | exact Hid | exact Hs | exact Hq | exact Hw].
Qed.

Lemma links_ok_insert_text sid qid t :
  maintains links_ok (insert_text sid qid t) (fun _ => True).
Proof.
  apply maintains_step. intros w Hw. unfold insert_text.
  destruct (text_param t) as [stored|e]; [|exact Hw].
  case_bool_decide as Hid; [exact Hw|].
  case_bool_decide as Hs; cbn [orb]; [exact Hw|].
  case_bool_decide as Hq; [exact Hw|].
  cbn [snd]. apply links_ok_new_answer; [reflexivity | exact Hid | exact Hs | exact Hq | exact Hw].
Qed.

#[local] Hint Resolve links_ok_generateUniqueCode links_ok_update_my_code
  links_ok_update_status links_ok_insert_member links_ok_finish_session
  links_ok_insert_session links_ok_insert_choice links_ok_insert_text : maint.
#[local] Hint Extern 2 (maintains links_ok _ _) =>
  apply links_ok_untouched; intros ?; repeat split : maint.

Lemma links_ok_ensureCodeFormat tgId :
  maintains links_ok (ensureCodeFormat tgId) (fun _ => True).
Proof. unfold ensureCodeFormat. repeat maint_step. Qed.

Lemma links_ok_getOrCreateSession tgId :
  maintains links_ok (getOrCreateSession tgId) (fun _ => True).
Proof. unfold getOrCreateSession. repeat maint_step. Qed.

Lemma links_ok_askQuestion c sid q :
  maintains links_ok (askQuestion c sid q) (fun _ => True).
Proof. unfold askQuestion. repeat maint_step. Qed.

#[local] Hint Resolve links_ok_ensureCodeFormat links_ok_getOrCreateSession
  links_ok_askQuestion : maint.

Lemma links_ok_verifyCodeAndBegin c code :
  maintains links_ok (verifyCodeAndBegin c code) (fun _ => True).
Proof. unfold verifyCodeAndBegin, nextQuestion. repeat maint_step. Qed.

#[local] Hint Resolve links_ok_verifyCodeAndBegin : maint.

Lemma links_ok_on_message c msg :
  maintains links_ok (on_message c msg) (fun _ => True).
Proof.
  unfold on_message, handleRegister, handleMyCode, startScreeningWithCode, on_code,
    on_text, nextQuestion.
  repeat maint_step.
Qed.

#[local] Hint Resolve links_ok_on_message : maint.

Lemma links_ok_handle c u : maintains links_ok (handle c u) (fun _ => True).
Proof.
  destruct u as [cmd msg|msg|d]; cbn [handle].
  - unfold on_start, handleRegister, handleMyCode. repeat maint_step.
  - repeat maint_step.
  - unfold on_callback_query, nextQuestion. repeat maint_step.
Qed.

Lemma links_ok_run us : forall w, links_ok w -> links_ok (run us w).
Proof.
  induction us as [|[c u] us IH]; intros w Hw; [exact Hw|].
  cbn [run]. apply IH. exact (proj1 (links_ok_handle c u w Hw)).
Qed.

(** X13: the screening bot keeps sessions and answers consistent: if each
    member has at most one session, every session belongs to a member, ids
    are distinct, and every answer row belongs to a session of the table and
    to a question of the catalog, the same holds after any sequence of
    updates from any users (commands, among them [/start], button labels,
    codes, other texts and button presses), also when handlers fail on the
    way. *)
Theorem sessions_stay_consistent (us : list (sender * update)) (w : World) :
  links_ok w ->
  NoDup (s_tg_id <$> screening_sessions (run us w))
  /\ NoDup (s_id <$> screening_sessions (run us w))
  /\ NoDup (a_id <$> screening_answers (run us w))
  /\ (forall s, s ∈ screening_sessions (run us w) ->
        s_tg_id s ∈ tg_id <$> members (run us w))
  /\ (forall a, a ∈ screening_answers (run us w) ->
        session_id a ∈ s_id <$> screening_sessions (run us w)
        /\ question_id a ∈ q_id <$> screening_questions (run us w)).
Proof. intros Hw. exact (links_ok_run us w Hw). Qed.

Lemma sessions_stay_consistent_witness :
  NoDup (s_tg_id <$> screening_sessions
           (run [Examples.start_command Examples.member7; Examples.send_code;
                 Examples.last_option 1; Examples.start_command Examples.member7;
                 Examples.last_option 1; Examples.last_option 2]
              Examples.screening_world)).
Proof.
  refine (proj1 (sessions_stay_consistent
                   [Examples.start_command Examples.member7; Examples.send_code;
                    Examples.last_option 1; Examples.start_command Examples.member7;
                    Examples.last_option 1; Examples.last_option 2]
                   Examples.screening_world _)).
  unfold links_ok. cbn.
  split; [constructor|]. split; [constructor|]. split; [constructor|].
  split; intros x Hx; inversion Hx.
Defined.

(** *** One session per member *)

(** For a user with no member row and no session the insert is refused
    (the foreign key, if nothing else) and the sessions table is kept. *)
Lemma getOrCreateSession_stranger (tgId : Z) (w : World) :
  select_member tgId w = [] -> select_session tgId w = [] ->
  exists e w',
    getOrCreateSession tgId w = (Throw e, w')
    /\ screening_sessions w' = screening_sessions w.
Proof.
  intros Hmem Hsel. unfold getOrCreateSession, bind, query, insert_session.
  rewrite Hsel, Hmem.
  case_bool_decide as Hid; cbn [orb]; [eexists _, _; split; reflexivity|].
  case_bool_decide as Hnil; [eexists _, _; split; reflexivity|].
  rewrite bool_decide_eq_true_2 by reflexivity. eexists _, _. split; reflexivity.
Qed.

(** X14: [getOrCreateSession] creates a session only for a member who has
    none; once it has returned an id, calling it again returns the same id
    and changes nothing.  For a user who is neither a member nor has a
    session it fails and leaves the sessions table as it was. *)
Theorem getOrCreateSession_idempotent (tgId : Z) (w : World) :
  (forall sid w',
     getOrCreateSession tgId w = (Ok sid, w') ->
     getOrCreateSession tgId w' = (Ok sid, w')
     /\ (select_session tgId w <> [] -> w' = w)
     /\ (select_session tgId w = [] ->
         screening_sessions w' =
         screening_sessions w ++ [mkSession sid tgId (clock w) None 0 None]))
  /\ (select_member tgId w = [] -> select_session tgId w = [] ->
      exists e w',
        getOrCreateSession tgId w = (Throw e, w')
        /\ screening_sessions w' = screening_sessions w).
Proof.
  split.
  - intros sid w' Hrun. unfold getOrCreateSession, bind, query in *.
    destruct (select_session tgId w) as [|row rows] eqn:Hsel.
    + unfold insert_session in Hrun. rewrite Hsel in Hrun.
      case_bool_decide as Hid; cbn [orb] in Hrun; [discriminate|].
      case_bool_decide as Hnil; [discriminate|].
      case_bool_decide as Hmem; [discriminate|].
      injection Hrun as <- <-. split; [|split; [congruence | reflexivity]].
      unfold select_session in *.
      cbn [screening_sessions set_sessions set_sessions_id_seq].
      rewrite filter_app, Hsel, filter_cons, filter_nil. cbn [s_tg_id app].
      destruct (decide (tgId = tgId)); [reflexivity | contradiction].
    + injection Hrun as <- <-. rewrite Hsel.
      split; [reflexivity|]. split; [reflexivity | discriminate].
  - apply getOrCreateSession_stranger.
Qed.

Lemma getOrCreateSession_idempotent_witness :
  getOrCreateSession 7 (snd (getOrCreateSession 7 Examples.screening_world))
  = (Ok 1, snd (getOrCreateSession 7 Examples.screening_world)).
Proof.
  refine (proj1 (proj1 (getOrCreateSession_idempotent 7 Examples.screening_world) 1 _ _)).
  vm_compute. reflexivity.
Defined.

(** *** What the bot refuses or drops *)

(** X15: a submitted code starts the screening only for a member whose
    stored code it equals and only when the catalog is not empty: a user
    with no member row is asked to register, a code that differs from the
    stored one (or a member whose code is null) gets the mismatch reply, and
    with an empty catalog the member is told that there is no question; in
    each of these cases that reply is all that happens (no session, no
    answer, no marker). *)
Theorem verifyCodeAndBegin_refusals (c : sender) (codeText : jsstring) (w : World) :
  (select_member (from_id c) w = [] ->
   verifyCodeAndBegin c codeText w = (Ok tt, replied TRegisterFirst no_keyboard w))
  /\ (forall row rest,
        select_member (from_id c) w = row :: rest ->
        (my_code row <> Some codeText ->
         verifyCodeAndBegin c codeText w = (Ok tt, replied TCodeMismatch no_keyboard w))
        /\ (my_code row = Some codeText -> screening_questions w = [] ->
            verifyCodeAndBegin c codeText w
            = (Ok tt, replied TNoQuestions memberKeyboard w))).
Proof.
  unfold verifyCodeAndBegin, bind, query. split.
  - intros ->. reflexivity.
  - intros row rest ->. split.
    + intros Hne. rewrite (bool_decide_eq_true_2 _ Hne). reflexivity.
    + intros Heq Hq. rewrite bool_decide_eq_false_2 by (intros H; exact (H Heq)).
      rewrite Hq. reflexivity.
Qed.

Lemma verifyCodeAndBegin_refusals_witness :
  verifyCodeAndBegin Examples.member7 (js "Z999999") Examples.screening_world
  = (Ok tt, replied TCodeMismatch no_keyboard Examples.screening_world).
Proof.
  refine (proj1 (proj2 (verifyCodeAndBegin_refusals Examples.member7 (js "Z999999")
                          Examples.screening_world) _ _ eq_refl) _).
  discriminate.
Defined.

(** A text that matches the pattern is none of the three labels. *)
Lemma on_message_code c msg :
  CODE_REGEX_test msg = true -> on_message c msg = on_code c msg.
Proof.
  intros Hre. unfold on_message.
  repeat (case_bool_decide; [subst msg; discriminate Hre|]).
  rewrite Hre. reflexivity.
Qed.

(** A text that is no label and does not match the pattern goes to
    [on('text')]. *)
Lemma on_message_text c msg :
  msg ∉ [label_register; label_mycode; label_start_screening] ->
  CODE_REGEX_test msg = false -> on_message c msg = on_text c msg.
Proof.
  intros Hl Hre. unfold on_message.
  repeat (case_bool_decide;
          [exfalso; apply Hl; subst msg; repeat constructor|]).
  rewrite Hre. reflexivity.
Qed.

(** A text that starts with a slash is no label and does not match the pattern. *)
Lemma slash_text msg :
  head msg = Some 47 ->
  (msg ∉ [label_register; label_mycode; label_start_screening])
  /\ CODE_REGEX_test msg = false.
Proof.
  intros Hhead. destruct msg as [|x msg]; [discriminate|]. injection Hhead as ->. split.
  - intros Hin.
    repeat (apply elem_of_cons in Hin as [Hin|Hin]; [discriminate Hin|]).
    inversion Hin.
  - reflexivity.
Qed.

(** X16: two kinds of messages without a command are dropped without any
    reply or change: a message that matches [^[A-Z][0-9]{6}$] while a
    free-text answer of the sender is awaited (it is neither checked as a
    code nor stored as the answer, and the answer stays awaited), and a
    message that does not match it, is none of the three button labels and
    does not start with a slash, while no free-text answer of the sender is
    awaited. *)
Theorem dropped_messages (c : sender) (msg : jsstring) (w : World) :
  (CODE_REGEX_test msg = true -> is_Some (awaitingText w !! from_id c) ->
   handle c (UMessage msg) w = (Ok tt, w))
  /\ (CODE_REGEX_test msg = false ->
      msg ∉ [label_register; label_mycode; label_start_screening] ->
      head msg <> Some 47 ->
      awaitingText w !! from_id c = None ->
      handle c (UMessage msg) w = (Ok tt, w)).
Proof.
  cbn [handle]. split.
  - intros Hre [st Hst]. rewrite on_message_code by exact Hre.
    unfold on_code, bind, query. rewrite Hst. reflexivity.
  - intros Hre Hl _ Hnone. rewrite on_message_text by assumption.
    unfold on_text, bind, query. rewrite Hnone. reflexivity.
Qed.

Lemma dropped_messages_witness :
  handle Examples.member7 (UMessage (js "A000000")) Examples.awaiting_world
  = (Ok tt, Examples.awaiting_world)
  /\ handle Examples.member7 (UMessage (js "hello")) Examples.screening_world
     = (Ok tt, Examples.screening_world).
Proof.
  split.
  - refine (proj1 (dropped_messages Examples.member7 (js "A000000")
                     Examples.awaiting_world) eq_refl _).
    exists (mkAwaiting 1 3). vm_compute. reflexivity.
  - refine (proj2 (dropped_messages Examples.member7 (js "hello")
                     Examples.screening_world) eq_refl _ _ _).
    + intros Hin.
      repeat (apply elem_of_cons in Hin as [Hin|Hin]; [discriminate Hin|]).
      inversion Hin.
    + discriminate.
    + vm_compute. reflexivity.
Defined.

(** X9: the admin commands [/members] and [/findcode] are never answered:
    their handlers are registered after [on('text')], which takes every text
    message and passes none on.  A command other than [/start], [/register]
    and [/mycode], from an admin or not, is handled as [on('text')] handles
    its text: with no free-text answer of the sender awaited nothing happens
    at all, and with one awaited the text of the command is taken as that
    answer. *)
Theorem admin_commands_never_answered (c : sender) (cmd msg : jsstring) (w : World) :
  cmd ∉ [js "/start"; js "/register"; js "/mycode"] ->
  head msg = Some 47 ->
  handle c (UCommand cmd msg) w = on_text c msg w
  /\ (awaitingText w !! from_id c = None ->
      handle c (UCommand cmd msg) w = (Ok tt, w))
  /\ (forall st,
        awaitingText w !! from_id c = Some st ->
        0 ∉ take 2000 msg ->
        filter (fun a => a_id a = answers_id_seq w) (screening_answers w) = [] ->
        filter (fun s => s_id s = sessionId st) (screening_sessions w) <> [] ->
        filter (fun q => q_id q = questionId st) (screening_questions w) <> [] ->
        screening_answers (snd (handle c (UCommand cmd msg) w))
        = screening_answers w ++
          [mkAnswer (answers_id_seq w) (sessionId st) (questionId st)
             (Some (toWellFormed (take 2000 msg))) None None]).
Proof.
  intros Hcmd Hslash.
  assert (Hroute : handle c (UCommand cmd msg) w = on_text c msg w).
  { cbn [handle].
    repeat (case_bool_decide;
            [exfalso; apply Hcmd; subst cmd; repeat constructor|]).
    destruct (slash_text msg Hslash) as [Hl Hre].
    rewrite on_message_text by assumption. reflexivity. }
  split; [exact Hroute|]. split.
  - intros Hnone. rewrite Hroute. unfold on_text, bind, query. rewrite Hnone.
    reflexivity.
  - intros st Hst Hnul Hid Hs Hq. rewrite Hroute.
    unfold on_text. unfold bind at 1. unfold query at 1. rewrite Hst.
    unfold bind at 1. unfold modify at 1. unfold bind at 1.
    change 2000 with (Z.of_nat 2000). rewrite slice_prefix.
    rewrite insert_text_ok by assumption.
    rewrite ask_next_keeps_answers. reflexivity.
Qed.

Lemma admin_commands_never_answered_witness :
  handle Examples.admin1 (UCommand (js "/findcode") (js "/findcode A000000"))
    Examples.screening_world
  = (Ok tt, Examples.screening_world).
Proof.
  refine (proj1 (proj2 (admin_commands_never_answered Examples.admin1 (js "/findcode")
                          (js "/findcode A000000") Examples.screening_world _ _)) _).
  - intros Hin.
    repeat (apply elem_of_cons in Hin as [Hin|Hin]; [discriminate Hin|]).
    inversion Hin.
  - reflexivity.
  - vm_compute. reflexivity.
Defined.

(** *** Button presses *)

Lemma try_catch_total (body : M World unit) (handler : exn -> M World unit) w :
  (forall e w1, fst (handler e w1) = Ok tt) ->
  fst (try_catch body handler w) = Ok tt.
Proof.
  intros Hh. unfold try_catch. destruct (body w) as [[[]|e] w1]; [reflexivity | apply Hh].
Qed.

(** X17: the callback handler never throws, whatever the payload and the
    state of the tables: every failure inside it is caught.  A press by a
    user who is neither a member nor has a session stores nothing (no
    session, no answer) and is answered with the error text. *)
Theorem callback_never_throws (c : sender) (d : callback_data) (w : World) :
  fst (on_callback_query c d w) = Ok tt
  /\ (select_member (from_id c) w = [] -> select_session (from_id c) w = [] ->
      d <> CbOther ->
      screening_sessions (snd (on_callback_query c d w)) = screening_sessions w
      /\ screening_answers (snd (on_callback_query c d w)) = screening_answers w
      /\ sent (snd (on_callback_query c d w)) = sent w ++ [AnswerCbQuery (Some CbError)]).
Proof.
  split.
  - unfold on_callback_query. apply try_catch_total. reflexivity.
  - intros Hmem Hsel Hd.
    destruct (getOrCreateSession_stranger (from_id c) w Hmem Hsel)
      as (e & w1 & Hget & Hsess).
    assert (Hans : screening_answers w1 = screening_answers w /\ sent w1 = sent w).
    { unfold getOrCreateSession, bind, query, insert_session in Hget.
      rewrite Hsel, Hmem in Hget.
      case_bool_decide as Hid; cbn [orb] in Hget;
        [injection Hget as _ <-; split; reflexivity|].
      case_bool_decide as Hnil; [injection Hget as _ <-; split; reflexivity|].
      rewrite bool_decide_eq_true_2 in Hget by reflexivity.
      injection Hget as _ <-. split; reflexivity. }
    destruct Hans as [Hans Hsent].
    assert (Hw : on_callback_query c d w
                 = (Ok tt, set_sent (fun l => l ++ [AnswerCbQuery (Some CbError)]) w1)).
    { unfold on_callback_query, try_catch.
      destruct d as [qid chosen| |]; [| |contradiction];
        unfold bind at 1; rewrite Hget; reflexivity. }
    rewrite Hw. cbn [snd]. split; [exact Hsess|]. split; [exact Hans|].
    unfold set_sent. cbn [sent]. rewrite Hsent. reflexivity.
Qed.

Lemma callback_never_throws_witness :
  sent (snd (on_callback_query Examples.stranger (CbAns 1 4) Examples.screening_world))
  = sent Examples.screening_world ++ [AnswerCbQuery (Some CbError)].
Proof.
  refine (proj2 (proj2 (proj2 (callback_never_throws Examples.stranger (CbAns 1 4)
                                 Examples.screening_world) eq_refl eq_refl _))).
  discriminate.
Defined.

(** *** Buttons and points *)

Lemma spec_score_app rows rows' :
  spec_score (rows ++ rows') = spec_score rows + spec_score rows'.
Proof.
  induction rows as [|a rows IH];
    [cbn [app]; change (spec_score []) with 0; lia|].
  cbn [app]. rewrite !spec_score_cons, IH. lia.
Qed.

Lemma filter_nonempty {A} (P : A -> Prop) `{!forall x, Decision (P x)} (l : list A) x :
  x ∈ l -> P x -> filter P l <> [].
Proof.
  intros Hx HP Hnil. assert (Hin : x ∈ filter P l) by (apply list_elem_of_filter; auto).
  rewrite Hnil in Hin. inversion Hin.
Qed.

(** X18: the keyboard of a question has one button per option, in order,
    and the button of the option at index [i] carries that question's id and
    [i]; when the member who has a session presses it and PostgreSQL accepts
    the row, the session gets one more answer row, for that question with
    chosen index [i], and the session's score grows by [i + 1]. *)
Theorem button_press_adds_points (c : sender) (q : question) (i : nat) (opt : jsstring)
    (w : World) (srow : session) (srest : list session) :
  q ∈ screening_questions w ->
  default [] (options q) !! i = Some opt ->
  select_session (from_id c) w = srow :: srest ->
  int4 (q_id q) = true -> int4 (Z.of_nat i) = true ->
  filter (fun a => a_id a = answers_id_seq w) (screening_answers w) = [] ->
  length (buttons_of q) = length (default [] (options q))
  /\ buttons_of q !! i = Some (opt, CbAns (q_id q) (Z.of_nat i))
  /\ select_answers (s_id srow)
       (snd (on_callback_query c (CbAns (q_id q) (Z.of_nat i)) w))
     = select_answers (s_id srow) w ++
       [mkAnswer (answers_id_seq w) (s_id srow) (q_id q) None (Some (Z.of_nat i)) None]
  /\ spec_score (select_answers (s_id srow)
                   (snd (on_callback_query c (CbAns (q_id q) (Z.of_nat i)) w)))
     = spec_score (select_answers (s_id srow) w) + Z.of_nat i + 1.
Proof.
  intros Hq Hopt Hsess Hq4 Hi4 Hid.
  assert (Hsrow : srow ∈ screening_sessions w).
  { assert (H : srow ∈ select_session (from_id c) w) by (rewrite Hsess; left).
    apply list_elem_of_filter in H. tauto. }
  assert (Hstore := callback_always_stores c (q_id q) (Z.of_nat i) w srow srest Hsess Hq4 Hi4 Hid
            (filter_nonempty _ _ srow Hsrow eq_refl) (filter_nonempty _ _ q Hq eq_refl)).
  assert (Hsel : select_answers (s_id srow)
                   (snd (on_callback_query c (CbAns (q_id q) (Z.of_nat i)) w))
                 = select_answers (s_id srow) w ++
                   [mkAnswer (answers_id_seq w) (s_id srow) (q_id q) None
                      (Some (Z.of_nat i)) None]).
  { unfold select_answers. rewrite Hstore, filter_app, filter_cons, filter_nil.
    cbn [session_id]. destruct (decide (s_id srow = s_id srow)); [reflexivity | contradiction]. }
  split; [apply length_imap|]. split.
  - unfold buttons_of. rewrite list_lookup_imap, Hopt. reflexivity.
  - split; [exact Hsel|]. rewrite Hsel, spec_score_app, spec_score_cons.
    unfold points. cbn [chosen_index spec_score foldr]. lia.
Qed.

Lemma button_press_adds_points_witness :
  spec_score (select_answers 1
                (snd (on_callback_query Examples.member7 (CbAns 2 3)
                        Examples.after_first_answer)))
  = spec_score (select_answers 1 Examples.after_first_answer) + Z.of_nat 3 + 1.
Proof.
  refine (proj2 (proj2 (proj2 (button_press_adds_points Examples.member7
            Examples.question2 3 (js "d") Examples.after_first_answer
            (mkSession 1 7 1000 None 0 None) [] _ _ _ _ _ _)))).
  - vm_compute. right. left.
  - reflexivity.
  - vm_compute. reflexivity.
  - reflexivity.
  - reflexivity.
  - vm_compute. reflexivity.
Defined.

(** *** How many answers a grade needs *)

Lemma spec_score_bounds (k : Z) rows :
  Forall (fun a => forall i, chosen_index a = Some i -> 0 <= i < k) rows ->
  0 <= k ->
  0 <= spec_score rows <= k * Z.of_nat (length rows).
Proof.
  intros Hrows Hk. induction Hrows as [|a rows Ha _ IH];
    [change (spec_score []) with 0; cbn [length]; lia|].
  rewrite spec_score_cons. cbn [length]. unfold points.
  destruct (chosen_index a) as [i|]; [specialize (Ha i eq_refl)|]; lia.
Qed.

Lemma grade_of_inv sc :
  (fst (grade_of sc) = js "A" -> 40 <= sc)
  /\ (fst (grade_of sc) = js "B" -> 32 <= sc)
  /\ (fst (grade_of sc) = js "C" -> 25 <= sc).
Proof.
  destruct (grade_of_cases sc) as (HA & HB & HC & HD).
  destruct (Z_lt_le_dec sc 25) as [H25|H25].
  { rewrite (HD H25). repeat split; discriminate. }
  destruct (Z_lt_le_dec sc 32) as [H32|H32].
  { rewrite (HC (conj H25 H32)). repeat split; try discriminate. intros _. exact H25. }
  destruct (Z_lt_le_dec sc 40) as [H40|H40].
  { rewrite (HB (conj H32 H40)). repeat split; try discriminate; intros _; lia. }
  rewrite (HA H40). repeat split; intros _; lia.
Qed.

(** X19: with at most five options per question (chosen indices 0 to 4) a
    session of [n] answer rows scores between 0 and [5 n]; so the grade is D
    with fewer than 5 answers, grade C needs at least 5 answers, B at least
    7 and A at least 8. *)
Theorem grades_need_answers (rows : list answer) :
  Forall (fun a => forall i, chosen_index a = Some i -> 0 <= i < 5) rows ->
  0 <= spec_score rows <= 5 * Z.of_nat (length rows)
  /\ ((length rows < 5)%nat -> fst (grade_of (spec_score rows)) = js "D")
  /\ (fst (grade_of (spec_score rows)) = js "C" -> (5 <= length rows)%nat)
  /\ (fst (grade_of (spec_score rows)) = js "B" -> (7 <= length rows)%nat)
  /\ (fst (grade_of (spec_score rows)) = js "A" -> (8 <= length rows)%nat).
Proof.
  intros Hrows. pose proof (spec_score_bounds 5 rows Hrows ltac:(lia)) as Hb.
  destruct (grade_of_inv (spec_score rows)) as (HA & HB & HC).
  destruct (grade_of_cases (spec_score rows)) as (_ & _ & _ & HD).
  split; [exact Hb|]. split; [|split; [|split]].
  - intros Hlen. rewrite HD by lia. reflexivity.
  - intros Hg. specialize (HC Hg). lia.
  - intros Hg. specialize (HB Hg). lia.
  - intros Hg. specialize (HA Hg). lia.
Qed.

Lemma grades_need_answers_witness :
  0 <= spec_score (select_answers 1 Examples.all_answered_world)
    <= 5 * Z.of_nat (length (select_answers 1 Examples.all_answered_world))
  /\ fst (grade_of (spec_score (select_answers 1 Examples.all_answered_world))) = js "D".
Proof.
  destruct (grades_need_answers (select_answers 1 Examples.all_answered_world))
    as (Hb & HD & _).
  - apply Forall_forall. intros a Ha. vm_compute in Ha.
    repeat (apply elem_of_cons in Ha as [->|Ha];
            [intros i Hi; vm_compute in Hi; try discriminate;
             injection Hi as <-; lia|]).
    inversion Ha.
  - split; [exact Hb|]. apply HD. vm_compute. lia.
Defined.

(** *** Users cannot touch each other's row or marker *)

Lemma untouched_preorder x : PreOrder (untouched x).
Proof.
  split.
  - intros w. split; reflexivity.
  - intros w1 w2 w3 [H1 H2] [H3 H4]. split; congruence.
Qed.

Lemma untouched_same {A} x (m : M World A) :
  (forall w, members (snd (m w)) = members w
             /\ awaitingText (snd (m w)) = awaitingText w) ->
  preserves (untouched x) m.
Proof.
  intros H w. destruct (H w) as [Hm Ha]. unfold untouched, select_member.
  rewrite Hm, Ha. split; reflexivity.
Qed.

Lemma filter_update_other (l : list member) (g : member -> member) x tgId :
  tgId <> x -> (forall m, tg_id (g m) = tg_id m) ->
  filter (fun m => tg_id m = x)
    ((fun m => if bool_decide (tg_id m = tgId) then g m else m) <$> l)
  = filter (fun m => tg_id m = x) l.
Proof.
  intros Hne Hg. induction l as [|a l IH]; [reflexivity|].
  cbn [fmap list_fmap]. rewrite !filter_cons, IH.
  case_bool_decide as Ha; [|reflexivity].
  rewrite Hg. destruct (decide (tg_id a = x)); [congruence | reflexivity].
Qed.

Lemma untouched_update_my_code x code tgId :
  tgId <> x -> preserves (untouched x) (update_my_code code tgId).
Proof.
  intros Hne w. unfold update_my_code. destruct (_ && _); [split; reflexivity|].
  split; [|reflexivity]. unfold select_member. cbn [snd members set_members].
  apply filter_update_other; [exact Hne | reflexivity].
Qed.

Lemma untouched_update_status x grade tgId :
  tgId <> x -> preserves (untouched x) (update_status grade tgId).
Proof.
  intros Hne w. split; [|reflexivity]. unfold select_member, update_status, modify.
  cbn [snd members set_members]. apply filter_update_other; [exact Hne | reflexivity].
Qed.

Lemma untouched_insert_member x c code :
  from_id c <> x -> preserves (untouched x) (insert_member c code).
Proof.
  intros Hne w. unfold insert_member. destruct (_ || _); [split; reflexivity|].
  split; [|reflexivity]. unfold select_member. cbn [snd members set_members].
  rewrite filter_app, filter_cons, filter_nil. cbn [tg_id].
  destruct (decide (from_id c = x)); [contradiction | apply app_nil_r].
Qed.

Lemma untouched_set_marker x c v :
  from_id c <> x ->
  preserves (untouched x) (modify (set_awaitingText (insert (from_id c) v))).
Proof.
  intros Hne w. split; [reflexivity|]. unfold modify. cbn [snd awaitingText set_awaitingText].
  apply lookup_insert_ne. exact Hne.
Qed.

Lemma untouched_clear_marker x c :
  from_id c <> x ->
  preserves (untouched x) (modify (set_awaitingText (delete (from_id c)))).
Proof.
  intros Hne w. split; [reflexivity|]. unfold modify. cbn [snd awaitingText set_awaitingText].
  apply lookup_delete_ne. exact Hne.
Qed.

Lemma untouched_generateUniqueCode x : preserves (untouched x) generateUniqueCode.
Proof.
  apply untouched_same. intros w.
  destruct (generateUniqueCode_conforms w) as (c & r & -> & _). split; reflexivity.
Qed.

Lemma untouched_insert_session x tgId : preserves (untouched x) (insert_session tgId).
Proof.
  apply untouched_same. intros w. unfold insert_session.
  destruct (_ || _); [split; reflexivity|]. case_bool_decide; split; reflexivity.
Qed.

Lemma untouched_insert_choice x sid qid chosen :
  preserves (untouched x) (insert_choice sid qid chosen).
Proof.
  apply untouched_same. intros w. unfold insert_choice.
  destruct (negb _); [split; reflexivity|].
  case_bool_decide; [split; reflexivity|]. destruct (_ || _); split; reflexivity.
Qed.

Lemma untouched_insert_text x sid qid t :
  preserves (untouched x) (insert_text sid qid t).
Proof.
  apply untouched_same. intros w. unfold insert_text.
  destruct (text_param t) as [stored|e]; [|split; reflexivity].
  case_bool_decide; [split; reflexivity|]. destruct (_ || _); split; reflexivity.
Qed.

Create HintDb untouched.

#[local] Hint Resolve untouched_generateUniqueCode untouched_insert_session
  untouched_insert_choice untouched_insert_text : untouched.
#[local] Hint Extern 1 (preserves (untouched _) (update_my_code _ _)) =>
  apply untouched_update_my_code; assumption : untouched.
#[local] Hint Extern 1 (preserves (untouched _) (update_status _ _)) =>
  apply untouched_update_status; assumption : untouched.
#[local] Hint Extern 1 (preserves (untouched _) (insert_member _ _)) =>
  apply untouched_insert_member; assumption : untouched.
#[local] Hint Extern 1
  (preserves (untouched _) (modify (set_awaitingText (insert _ _)))) =>
  apply untouched_set_marker; assumption : untouched.
#[local] Hint Extern 1
  (preserves (untouched _) (modify (set_awaitingText (delete _)))) =>
  apply untouched_clear_marker; assumption : untouched.
#[local] Hint Extern 3 (preserves (untouched _) _) =>
  apply untouched_same; intros ?; split; reflexivity : untouched.

(** One step of a proof that a handler leaves user [x] alone. *)
Ltac untouched_step x :=
  first
    [ solve [auto with untouched]
    | progress cbv zeta
    | apply (preserves_bind (untouched x) (PreOrder0 := untouched_preorder x)); [|intros ?]
    | apply (preserves_try_catch (untouched x) (PreOrder0 := untouched_preorder x));
      [|intros ?]
    | apply (preserves_ret (untouched x) (PreOrder0 := untouched_preorder x))
    | apply (preserves_throw (untouched x) (PreOrder0 := untouched_preorder x))
    | apply (preserves_query (untouched x) (PreOrder0 := untouched_preorder x))
    | match goal with
      | |- preserves _ (match ?y with _ => _ end) => destruct y
      end ].

Section Untouched.
Variable x : Z.
Variable c : sender.
Hypothesis other : from_id c <> x.

Lemma untouched_ensureCodeFormat :
  preserves (untouched x) (ensureCodeFormat (from_id c)).
Proof. unfold ensureCodeFormat. repeat untouched_step x. Qed.

Lemma untouched_getOrCreateSession tgId :
  preserves (untouched x) (getOrCreateSession tgId).
Proof. unfold getOrCreateSession. repeat untouched_step x. Qed.

Lemma untouched_askQuestion sid q : preserves (untouched x) (askQuestion c sid q).
Proof. unfold askQuestion, finish_session. repeat untouched_step x. Qed.

Hint Resolve untouched_ensureCodeFormat untouched_getOrCreateSession
  untouched_askQuestion : untouched.

Lemma untouched_verifyCodeAndBegin code :
  preserves (untouched x) (verifyCodeAndBegin c code).
Proof. unfold verifyCodeAndBegin, nextQuestion. repeat untouched_step x. Qed.

Hint Resolve untouched_verifyCodeAndBegin : untouched.

Lemma untouched_on_message msg : preserves (untouched x) (on_message c msg).
Proof.
  unfold on_message, handleRegister, handleMyCode, startScreeningWithCode, on_code,
    on_text, nextQuestion.
  repeat untouched_step x.
Qed.

Hint Resolve untouched_on_message : untouched.

Lemma untouched_handle u : preserves (untouched x) (handle c u).
Proof.
  destruct u as [cmd msg|msg|d]; cbn [handle].
  - unfold on_start, handleRegister, handleMyCode. repeat untouched_step x.
  - repeat untouched_step x.
  - unfold on_callback_query, nextQuestion. repeat untouched_step x.
Qed.
End Untouched.

(** X20: whatever other users send (commands, among them [/start], which
    can rewrite the sender's code, button labels, codes, other texts and
    button presses), a user's member row (code, status, names) and the
    marker of the free-text answer awaited from that user stay as they are:
    they change only through updates of that user. *)
Theorem users_are_isolated (x : Z) (us : list (sender * update)) : forall w,
  Forall (fun cu => from_id (fst cu) <> x) us ->
  select_member x (run us w) = select_member x w
  /\ awaitingText (run us w) !! x = awaitingText w !! x.
Proof.
  induction us as [|[c u] us IH]; intros w Hus; [split; reflexivity|].
  apply Forall_cons in Hus as [Hc Hus]. cbn [fst] in Hc. cbn [run].
  destruct (IH (snd (handle c u w)) Hus) as [H1 H2].
  destruct (untouched_handle x c Hc u w) as [H3 H4].
  split; congruence.
Qed.

Lemma users_are_isolated_witness :
  select_member 9
    (run [Examples.start_command Examples.member7; (Examples.member7, UMyCode);
          (Examples.stranger, URegister)]
       Examples.malformed_world)
  = select_member 9 Examples.malformed_world.
Proof.
  refine (proj1 (users_are_isolated 9
                   [Examples.start_command Examples.member7; (Examples.member7, UMyCode);
                    (Examples.stranger, URegister)]
                   Examples.malformed_world _)).
  repeat constructor; discriminate.
Defined.

(** *** The awaited free-text answer *)

Lemma insert_text_keeps sid qid t w :
  awaitingText (snd (insert_text sid qid t w)) = awaitingText w
  /\ screening_questions (snd (insert_text sid qid t w)) = screening_questions w.
Proof.
  unfold insert_text. destruct (text_param t) as [stored|e]; [|split; reflexivity].
  case_bool_decide; [split; reflexivity|].
  destruct (_ || _); split; reflexivity.
Qed.

(** X22: a text message consumes the awaited marker of its sender: after
    the handler the sender is either awaited for nothing, or awaited for a
    free-text question of the catalog that has no answer in that session
    (the next question).  In particular the marker never keeps pointing to
    the question just answered, and when the insert is refused the marker is
    gone all the same. *)
Theorem on_text_consumes_marker (c : sender) (msg : jsstring) (w : World) st :
  awaitingText w !! from_id c = Some st ->
  awaitingText (snd (on_text c msg w)) !! from_id c = None
  \/ exists q,
       q ∈ screening_questions (snd (on_text c msg w))
       /\ q_type q = text
       /\ ~ answered_in (snd (on_text c msg w)) (sessionId st) (q_id q)
       /\ awaitingText (snd (on_text c msg w)) !! from_id c
          = Some (mkAwaiting (sessionId st) (q_id q)).
Proof.
  intros Hst. remember (snd (on_text c msg w)) as w' eqn:Hw'.
  unfold on_text in Hw'. unfold bind at 1 in Hw'. unfold query at 1 in Hw'.
  rewrite Hst in Hw'. unfold bind at 1 in Hw'. unfold modify at 1 in Hw'.
  set (w1 := set_awaitingText (delete (from_id c)) w) in Hw'.
  assert (Hw1 : awaitingText w1 !! from_id c = None) by apply lookup_delete_eq.
  unfold bind at 1 in Hw'.
  destruct (insert_text_keeps (sessionId st) (questionId st) (slice msg 0 (Some 2000)) w1)
    as [Hkeep Hq].
  destruct (insert_text (sessionId st) (questionId st) (slice msg 0 (Some 2000)) w1)
    as [[[]|e] w2]; cbn [snd] in *.
  2:{ left. subst w'. rewrite Hkeep. exact Hw1. }
  unfold bind in Hw'.
  destruct (nextQuestion_selects (sessionId st) w2) as (r & Hnext & _ & Hsel).
  rewrite Hnext in Hw'.
  destruct r as [q|].
  - destruct Hsel as (Hin & Hfresh & _). unfold askQuestion in Hw'.
    destruct (q_type q) eqn:Hkind.
    + left. subst w'. cbn [snd]. unfold reply, modify.
      cbn [snd awaitingText replied set_sent]. rewrite Hkeep. exact Hw1.
    + right. exists q. subst w'. unfold bind, modify, reply. cbn [snd].
      split; [exact Hin|]. split; [exact Hkind|]. split; [exact Hfresh|].
      cbn [awaitingText replied set_sent set_awaitingText]. apply lookup_insert_eq.
  - left. unfold askQuestion, bind, query in Hw'.
    destruct (score_query (sessionId st) w2) as [sc|e]; cbn [snd] in Hw';
      [|subst w'; rewrite Hkeep; exact Hw1].
    destruct (grade_of sc) as [grade i]. subst w'.
    change (awaitingText w2 !! from_id c = None). rewrite Hkeep. exact Hw1.
Qed.

Lemma on_text_consumes_marker_witness :
  awaitingText (snd (on_text Examples.member7 (js "hello") Examples.awaiting_world)) !! 7
  = None.
Proof.
  destruct (on_text_consumes_marker Examples.member7 (js "hello") Examples.awaiting_world
              (mkAwaiting 1 3) ltac:(vm_compute; reflexivity)) as [H|(q & _ & _ & _ & H)].
  - exact H.
  - vm_compute in H. discriminate H.
Defined.

(** *** Answers are only ever added *)

(** X23: the bot never deletes or rewrites an answer row: after any
    sequence of updates from any users (commands, among them [/start],
    button labels, codes, other texts and button presses), the answers table
    starts with the rows it had before, in the same order. *)
Theorem answers_append_only (us : list (sender * update)) (w : World) :
  screening_answers w `prefix_of` screening_answers (run us w)
  /\ (forall a, a ∈ screening_answers w -> a ∈ screening_answers (run us w)).
Proof.
  pose proof (run_answers_grow us w) as Hgrow. unfold answers_grow in Hgrow.
  split; [exact Hgrow|]. intros a Ha. destruct Hgrow as [l ->].
  apply elem_of_app. left. exact Ha.
Qed.

End ScreeningFacts.


(** ** Invitation codes *)

Module InviteFacts.
Import InviteBot.

(** The handler, as the world it leaves. *)
Lemma register_eq c cd w :
  truthy cd = true ->
  register c (Some cd) w =
  (Ok tt,
   match select_member (from_id c) w with
   | _ :: _ => refused TAlreadyMember w
   | [] =>
       match select_code cd w with
       | [] => refused TInvalidCode w
       | row :: _ =>
           if negb (active row) then refused TInactiveCode w
           else if expired row (clock w) then refused TExpiredCode w
           else if used_count row >=? allowed_uses row then refused TCodeFull w
           else redeemed c cd w
       end
   end).
Proof.
  intros Hcd. unfold register, or_null. rewrite Hcd.
  unfold try_catch, bind, BEGIN, ROLLBACK, COMMIT, reply, modify, query.
  cbn [txn set_txn db set_db sent set_sent clock rng ADMIN_SET].
  change (select_member (from_id c) (set_txn (Some (db w)) w))
    with (select_member (from_id c) w).
  destruct (select_member (from_id c) w) as [|m ms] eqn:Hme; [|reflexivity].
  change (select_code cd (set_txn (Some (db w)) w)) with (select_code cd w).
  destruct (select_code cd w) as [|row rows] eqn:Hq; [reflexivity|].
  destruct (active row); cbn [negb]; [|reflexivity].
  change (clock (set_txn (Some (db w)) w)) with (clock w).
  destruct (expired row (clock w)); [reflexivity|].
  destruct (used_count row >=? allowed_uses row); [reflexivity|].
  unfold insert_member, increment_used, modify.
  change (select_member (from_id c) (set_txn (Some (db w)) w))
    with (select_member (from_id c) w).
  change (select_code cd (set_txn (Some (db w)) w)) with (select_code cd w).
  rewrite Hme, Hq.
  rewrite bool_decide_eq_false_2 by auto.
  rewrite bool_decide_eq_false_2 by discriminate.
  reflexivity.
Qed.

(** *** The tables stay consistent *)

Lemma fmap_inj_on {A B} (f : A -> B) (l : list A) x y :
  NoDup (f <$> l) -> x ∈ l -> y ∈ l -> f x = f y -> x = y.
Proof.
  induction l as [|a l IH]; intros Hnd Hx Hy Hf; [inversion Hx|].
  cbn [fmap list_fmap] in Hnd. apply NoDup_cons in Hnd as [Ha Hnd].
  apply elem_of_cons in Hx as [->|Hx]; apply elem_of_cons in Hy as [->|Hy].
  - reflexivity.
  - exfalso. apply Ha. rewrite Hf. apply list_elem_of_fmap. eauto.
  - exfalso. apply Ha. rewrite <- Hf. apply list_elem_of_fmap. eauto.
  - apply IH; assumption.
Qed.

Lemma select_code_head cd w row rows :
  select_code cd w = row :: rows ->
  row ∈ membership_codes (db w) /\ code row = cd.
Proof.
  intros H. assert (Hin : row ∈ select_code cd w) by (rewrite H; left).
  apply list_elem_of_filter in Hin. tauto.
Qed.

Lemma select_code_none cd w :
  select_code cd w = [] -> cd ∉ code <$> membership_codes (db w).
Proof.
  intros H Hin. apply list_elem_of_fmap in Hin as (r & -> & Hr).
  assert (Hf : r ∈ select_code (code r) w) by (apply list_elem_of_filter; auto).
  rewrite H in Hf. inversion Hf.
Qed.

Lemma members_using_snoc cd ms m codes :
  members_using cd (mkDb codes (ms ++ [m]))
  = (members_using cd (mkDb codes ms)
     + (if bool_decide (code_used m = Some cd) then 1 else 0))%nat.
Proof.
  unfold members_using. cbn [members]. rewrite filter_app, length_app.
  rewrite filter_cons, filter_nil.
  case_bool_decide; destruct (decide (code_used m = Some cd)); try tauto; reflexivity.
Qed.

(** Rewriting the codes table without touching code, count or capacity. *)
Lemma consistent_codes_fmap g d :
  (forall r, code (g r) = code r /\ used_count (g r) = used_count r
             /\ allowed_uses (g r) = allowed_uses r) ->
  consistent d -> consistent (mkDb (g <$> membership_codes d) (members d)).
Proof.
  intros Hg (Hnd & Hfk & Hcount).
  assert (Hcodes : code <$> (g <$> membership_codes d) = code <$> membership_codes d).
  { rewrite <- list_fmap_compose. apply list_fmap_ext. intros i r _. apply Hg. }
  unfold consistent. cbn [membership_codes members]. rewrite Hcodes.
  split; [exact Hnd|]. split; [exact Hfk|].
  intros r' Hr'. apply list_elem_of_fmap in Hr' as (r & -> & Hr).
  destruct (Hg r) as (Hc & Hu & Ha). rewrite Hc, Hu, Ha.
  exact (Hcount r Hr).
Qed.

Lemma consistent_redeemed c cd w row rows :
  select_code cd w = row :: rows ->
  (used_count row >=? allowed_uses row) = false ->
  consistent (db w) -> consistent (db (redeemed c cd w)).
Proof.
  intros Hq Hroom (Hnd & Hfk & Hcount).
  destruct (select_code_head _ _ _ _ Hq) as [Hrow Hcode].
  set (g := fun r => if bool_decide (code r = cd) then bump r else r).
  assert (Hg : forall r, code (g r) = code r).
  { intros r. unfold g. case_bool_decide; reflexivity. }
  assert (Hcodes : code <$> (g <$> membership_codes (db w))
                   = code <$> membership_codes (db w)).
  { rewrite <- list_fmap_compose. apply list_fmap_ext. intros i r _. apply Hg. }
  unfold consistent, redeemed. cbn [db membership_codes members].
  fold g. rewrite Hcodes. split; [exact Hnd|]. split.
  - intros m cd' Hm Hused. apply elem_of_app in Hm as [Hm|Hm].
    + exact (Hfk m cd' Hm Hused).
    + apply list_elem_of_singleton in Hm. subst m. cbn [code_used new_member] in Hused.
      injection Hused as <-. apply list_elem_of_fmap. exists row. auto.
  - intros r' Hr'. apply list_elem_of_fmap in Hr' as (r & -> & Hr).
    rewrite Hg, members_using_snoc. cbn [code_used new_member].
    destruct (Hcount r Hr) as [Hu Hle].
    change (members_using (code r) (mkDb (g <$> membership_codes (db w)) (members (db w))))
      with (members_using (code r) (db w)).
    unfold g. case_bool_decide as Hc.
    + assert (r = row) as -> by (apply (fmap_inj_on code (membership_codes (db w)));
                                 [assumption..|congruence]).
      rewrite bool_decide_eq_true_2 by congruence.
      cbn [used_count allowed_uses bump].
      rewrite Z.geb_leb in Hroom. apply Z.leb_gt in Hroom. lia.
    + rewrite bool_decide_eq_false_2 by congruence. lia.
Qed.

Lemma consistent_register c cd w :
  consistent (db w) -> consistent (db (snd (register c cd w))).
Proof.
  intros Hw. destruct cd as [cd|]; [|exact Hw].
  destruct (truthy cd) eqn:Hcd.
  2:{ unfold register, or_null. rewrite Hcd. exact Hw. }
  rewrite (register_eq c cd w Hcd). cbn [snd].
  destruct (select_member (from_id c) w); [|exact Hw].
  destruct (select_code cd w) as [|row rows] eqn:Hq; [exact Hw|].
  destruct (negb (active row)); [exact Hw|].
  destruct (expired row (clock w)); [exact Hw|].
  destruct (used_count row >=? allowed_uses row) eqn:Hroom; [exact Hw|].
  exact (consistent_redeemed c cd w row rows Hq Hroom Hw).
Qed.

Lemma consistent_new_code d cd uses e n by_ now :
  cd ∉ code <$> membership_codes d -> 0 <= uses ->
  consistent d ->
  consistent (mkDb (membership_codes d ++ [mkCode cd uses 0 e n by_ now true]) (members d)).
Proof.
  intros Hfresh Huses (Hnd & Hfk & Hcount).
  unfold consistent. cbn [membership_codes members]. rewrite fmap_app.
  cbn [fmap list_fmap code]. split; [|split].
  - apply NoDup_app. split; [exact Hnd|]. split; [|apply NoDup_singleton].
    intros x Hx Hx'. apply list_elem_of_singleton in Hx'. subst x. exact (Hfresh Hx).
  - intros m cd' Hm Hused. apply elem_of_app. left. exact (Hfk m cd' Hm Hused).
  - intros r Hr. apply elem_of_app in Hr as [Hr|Hr].
    + exact (Hcount r Hr).
    + apply list_elem_of_singleton in Hr. subst r. cbn [used_count allowed_uses code].
      split; [|exact Huses].
      unfold members_using. cbn [members].
      destruct (filter (fun m => code_used m = Some cd) (members d)) as [|m ms] eqn:Hf;
        [reflexivity|].
      exfalso. assert (Hm : m ∈ filter (fun m => code_used m = Some cd) (members d))
        by (rewrite Hf; left).
      apply list_elem_of_filter in Hm as [Hused Hm]. exact (Hfresh (Hfk m cd Hm Hused)).
Qed.

(** A date that PostgreSQL stores is the time it was built from, and lies
    both in the range of [Date] and in that of [TIMESTAMPTZ]. *)
Lemma date_param_new_Date x t :
  date_param (new_Date x) = Ok t <->
  t = x /\ -210866803200000 <= x <= 8640000000000000.
Proof.
  unfold new_Date, date_param, timestamptz.
  destruct (Z.leb_spec (Z.abs x) 8640000000000000) as [Habs|Habs].
  - destruct (Z.leb_spec (-210866803200000) x) as [Hlo|Hlo]; cbn [andb].
    + destruct (Z.ltb_spec x 9224318016000000) as [Hhi|Hhi]; [|lia].
      split; [intros [= <-]; lia | intros [-> _]; reflexivity].
    + split; [discriminate | lia].
  - split; [discriminate | lia].
Qed.

Lemma text_param_spec s t :
  text_param s = Ok t <-> t = toWellFormed s /\ 0 ∉ s.
Proof.
  unfold text_param. case_bool_decide as Hnul.
  - split; [discriminate | intros [_ H]; contradiction].
  - split; [intros [= <-]; auto | intros [-> _]; reflexivity].
Qed.

(** [insert_code] either throws and writes nothing, or appends the row. *)
Lemma insert_code_cases cd uses e n by_ w :
  (exists ex, insert_code cd uses e n by_ w = (Throw ex, w))
  \/ (exists expires_at note,
        nullable date_param e = Ok expires_at
        /\ nullable text_param n = Ok note
        /\ int4 uses = true
        /\ select_code cd w = []
        /\ insert_code cd uses e n by_ w
           = (Ok tt,
              set_db (mkDb (membership_codes (db w) ++
                              [mkCode cd uses 0 expires_at note (Some by_) (clock w) true])
                        (members (db w))) w)).
Proof.
  unfold insert_code.
  destruct (int4 uses); cbn [negb]; [|left; eexists; reflexivity].
  destruct (nullable date_param e) as [expires_at|ex]; [|left; eexists; reflexivity].
  destruct (nullable text_param n) as [note|ex]; [|left; eexists; reflexivity].
  case_bool_decide as Hsel; [left; eexists; reflexivity|].
  right. exists expires_at, note. repeat split; first [reflexivity | exact Hsel].
Qed.

(** The expiry that [gencode] passes to the insert, when it is stored. *)
Lemma expiry_stored mins now expires_at :
  nullable date_param (if mins =? 0 then None else Some (new_Date (now + mins * 60 * 1000)))
  = Ok expires_at ->
  expires_at = (if mins =? 0 then None else Some (now + mins * 60 * 1000))
  /\ (forall e, expires_at = Some e -> -210866803200000 <= e <= 8640000000000000)
  /\ (match (if mins =? 0 then None else Some (new_Date (now + mins * 60 * 1000))) with
      | Some d => d = Date (now + mins * 60 * 1000)
      | None => True
      end).
Proof.
  destruct (mins =? 0); cbn [nullable].
  - intros [= <-]. split; [reflexivity|]. split; [discriminate | exact Logic.I].
  - destruct (date_param (new_Date (now + mins * 60 * 1000))) as [t|ex] eqn:Hd;
      [|discriminate].
    intros [= <-]. apply date_param_new_Date in Hd as [-> Hrange].
    split; [reflexivity|]. split; [intros e [= <-]; exact Hrange|].
    unfold new_Date. rewrite (proj2 (Z.leb_le _ _)) by lia. reflexivity.
Qed.

Lemma note_stored (n : option jsstring) note :
  nullable text_param n = Ok note ->
  note = (toWellFormed <$> n) /\ 0 ∉ default [] n.
Proof.
  destruct n as [t|]; cbn [nullable fmap option_fmap option_map default].
  - destruct (text_param t) as [t'|ex] eqn:Ht; [|discriminate].
    intros [= <-]. apply text_param_spec in Ht as [-> Hnul]. split; [reflexivity | exact Hnul].
  - intros [= <-]. split; [reflexivity|]. intros H. inversion H.
Qed.

(** [gencode] either leaves the tables as they are (the sender is no admin,
    or PostgreSQL refuses the row), or it appends the row [minted] and tells
    the admin. *)
Lemma gencode_cases c u m n w :
  ADMIN_SET (snd (gencode c u m n w)) = ADMIN_SET w
  /\ (db (snd (gencode c u m n w)) = db w
         /\ (toString (from_id c) ∈ ADMIN_SET w -> exists ex, fst (gencode c u m n w) = Throw ex)
      \/ (toString (from_id c) ∈ ADMIN_SET w
          /\ int4 (allowed_uses (minted c u m n w)) = true
          /\ (forall e, expires_at (minted c u m n w) = Some e ->
                        -210866803200000 <= e <= 8640000000000000)
          /\ (0 ∉ default [] (or_null n))
          /\ select_code (code (minted c u m n w)) w = []
          /\ gencode c u m n w
             = (Ok tt,
                mkWorld
                  (mkDb (membership_codes (db w) ++ [minted c u m n w]) (members (db w)))
                  (txn w) (ADMIN_SET w) (snd (genCode_loop 10 [] (rng w))) (clock w)
                  (sent w ++ [TCodeCreated (code (minted c u m n w))
                                (allowed_uses (minted c u m n w))
                                (expires_at (minted c u m n w)) (or_null n)])))).
Proof.
  unfold gencode, bind, isAdmin, query, genCode, minted.
  cbn [code allowed_uses expires_at].
  case_bool_decide as Hadmin; cbn [negb];
    [|split; [reflexivity | left; split; [reflexivity | contradiction]]].
  destruct (genCode_loop 10 [] (rng w)) as [cd r]. cbn [fst snd clock set_rng].
  destruct (insert_code_cases cd (Z.max 1 (int_or u 1))
              (if Z.max 0 (int_or m 0) =? 0 then None
               else Some (new_Date (clock w + Z.max 0 (int_or m 0) * 60 * 1000)))
              (or_null n) (from_id c) (set_rng r w))
    as [[ex Hins]|(expires_at & note & Hdate & Hnote & Huses & Hfresh & Hins)];
    rewrite Hins.
  - split; [reflexivity|]. left. split; [reflexivity|]. intros _. exists ex. reflexivity.
  - apply expiry_stored in Hdate as (-> & Hrange & Hshown).
    apply note_stored in Hnote as [-> Hnul].
    split.
    + destruct (Z.max 0 (int_or m 0) =? 0); [reflexivity|]. rewrite Hshown. reflexivity.
    + right. split; [exact Hadmin|]. split; [exact Huses|]. split; [exact Hrange|].
      split; [exact Hnul|]. split; [exact Hfresh|].
      destruct (Z.max 0 (int_or m 0) =? 0); [reflexivity|]. rewrite Hshown. reflexivity.
Qed.

Lemma consistent_gencode c u m n w :
  consistent (db w) -> consistent (db (snd (gencode c u m n w))).
Proof.
  intros Hw.
  destruct (gencode_cases c u m n w) as [_ [[-> _]|(_ & _ & _ & _ & Hfresh & ->)]];
    [exact Hw|].
  cbn [snd db]. unfold minted at 1.
  apply consistent_new_code; [|lia|exact Hw].
  apply (select_code_none _ w). exact Hfresh.
Qed.

Lemma consistent_revoke c cd w :
  consistent (db w) -> consistent (db (snd (revoke c cd w))).
Proof.
  intros Hw. unfold revoke, bind, isAdmin, query.
  destruct (negb _); [exact Hw|].
  destruct (or_null cd) as [cd'|]; [|exact Hw].
  unfold reply, modify. cbn [snd db set_sent set_db].
  apply (consistent_codes_fmap _ (db w)); [|exact Hw].
  intros r. case_bool_decide; repeat split; reflexivity.
Qed.

Lemma reachable_consistent w : reachable w -> consistent (db w).
Proof.
  induction 1 as [admins r now|w now c u _ IH].
  - unfold consistent. cbn [db membership_codes members fmap list_fmap].
    split; [constructor|].
    split; [intros m cd Hm; inversion Hm | intros row Hrow; inversion Hrow].
  - unfold deliver. assert (Hw : consistent (db (set_clock now w))) by exact IH.
    destruct u as [cd|ua ma na|cd]; cbn [handle].
    + apply consistent_register. exact Hw.
    + apply consistent_gencode. exact Hw.
    + apply consistent_revoke. exact Hw.
Qed.



(** *** Codes that [genCode] draws *)

Lemma abc_nth i : 0 <= i < 32 -> nth (Z.to_nat i) abc 0 ∈ abc.
Proof.
  intros Hi. apply list_elem_of_In, nth_In.
  change (length abc) with 32%nat. lia.
Qed.

Lemma genCode_loop_spec len : forall out r,
  Forall (fun ch => ch ∈ abc) out ->
  length (fst (genCode_loop len out r)) = (length out + len)%nat
  /\ Forall (fun ch => ch ∈ abc) (fst (genCode_loop len out r)).
Proof.
  induction len as [|len IH]; intros out r Hout.
  - cbn [genCode_loop fst]. split; [lia | exact Hout].
  - cbn [genCode_loop].
    pose proof (CodeGenFacts.randomInt_range 32 r ltac:(lia)) as Hi.
    destruct (randomInt 32 r) as [i r1]. cbn [fst] in Hi.
    destruct (IH (out ++ [nth (Z.to_nat i) abc 0]) r1) as [Hlen Hall].
    { apply Forall_app. split; [exact Hout|]. apply Forall_singleton, abc_nth, Hi. }
    split; [|exact Hall]. rewrite Hlen, length_app. cbn [length]. lia.
Qed.

(** X1: a code drawn by [genCode(len)] has exactly [len] characters, each
    from the 32-letter alphabet; in particular it contains none of the
    look-alike characters I, O, 0 and 1, whatever the random source. *)
Theorem genCode_alphabet (len : nat) (w : World) :
  exists cd w',
    genCode len w = (Ok cd, w')
    /\ db w' = db w
    /\ length cd = len
    /\ Forall (fun ch => ch ∈ abc) cd
    /\ Forall (fun ch => ch ∉ js "IO01") cd.
Proof.
  unfold genCode.
  destruct (genCode_loop_spec len [] (rng w) (Forall_nil_2 _)) as [Hlen Hall].
  destruct (genCode_loop len [] (rng w)) as [cd r]. cbn [fst] in *.
  exists cd, (set_rng r w). split; [reflexivity|]. split; [reflexivity|].
  split; [exact Hlen|]. split; [exact Hall|].
  eapply Forall_impl; [exact Hall|]. intros ch Hch Hbad.
  assert (Hno : Forall (fun ch => ch ∉ js "IO01") abc).
  { apply (bool_decide_eq_true_1 (Forall (fun ch => ch ∉ js "IO01") abc)).
    vm_compute. reflexivity. }
  rewrite Forall_forall in Hno. exact (Hno ch Hch Hbad).
Qed.


(** *** Minting, then redeeming *)





(** X3: when [/register] answers that the registration succeeded,
    [/whoami] of that sender then reports the code redeemed and the time of
    the redemption; for a sender with no member row [/whoami] reports that
    the sender is not a member. *)
Theorem whoami_after_redemption (c : sender) (cd : option jsstring) (w w' : World) :
  select_member (from_id c) w = [] ->
  register c cd w = (Ok tt, w') ->
  sent w' = sent w ++ [TRegistered] ->
  whoami c w = None
  /\ exists code, cd = Some code /\ whoami c w' = Some (Some code, clock w).
Proof.
  intros Hme Hreg Hsent. split; [unfold whoami; rewrite Hme; reflexivity|].
  assert (Hne : forall t, t <> TRegistered -> sent w ++ [t] <> sent w ++ [TRegistered]).
  { intros t Ht Heq. apply app_inv_head in Heq. congruence. }
  destruct cd as [code|].
  2:{ cbn in Hreg. injection Hreg as <-. exfalso. revert Hsent. apply Hne. discriminate. }
  destruct (truthy code) eqn:Hcd.
  2:{ unfold register, or_null in Hreg. rewrite Hcd in Hreg. injection Hreg as <-.
      exfalso. revert Hsent. apply Hne. discriminate. }
  exists code. split; [reflexivity|].
  rewrite (register_eq c code w Hcd), Hme in Hreg.
  assert (Hw' : w' = redeemed c code w).
  { destruct (select_code code w) as [|row rows];
      [injection Hreg as <-; exfalso; revert Hsent; apply Hne; discriminate|].
    destruct (negb (active row));
      [injection Hreg as <-; exfalso; revert Hsent; apply Hne; discriminate|].
    destruct (expired row (clock w));
      [injection Hreg as <-; exfalso; revert Hsent; apply Hne; discriminate|].
    destruct (used_count row >=? allowed_uses row);
      [injection Hreg as <-; exfalso; revert Hsent; apply Hne; discriminate|].
    injection Hreg as <-. reflexivity. }
  subst w'. unfold whoami, select_member, redeemed in *. cbn [db members].
  rewrite filter_app, Hme, filter_cons, filter_nil. cbn [new_member tg_id].
  destruct (decide (from_id c = from_id c)); [reflexivity | contradiction].
Qed.

Lemma whoami_after_redemption_witness :
  whoami Examples.member7 Examples.invite_minted = None
  /\ exists code,
       Some Examples.code_A = Some code
       /\ whoami Examples.member7
            (snd (register Examples.member7 (Some Examples.code_A) Examples.invite_minted))
          = Some (Some code, 20).
Proof.
  apply (whoami_after_redemption Examples.member7 (Some Examples.code_A)
           Examples.invite_minted); reflexivity.
Defined.

(** *** What one update can do to the tables *)

Lemma register_cases c cd w :
  (exists t, t <> TRegistered
             /\ db (snd (register c cd w)) = db w
             /\ ADMIN_SET (snd (register c cd w)) = ADMIN_SET w)
  \/ (exists k0 row rows,
        cd = Some k0
        /\ select_member (from_id c) w = []
        /\ select_code k0 w = row :: rows
        /\ active row = true
        /\ used_count row < allowed_uses row
        /\ snd (register c cd w) = redeemed c k0 w).
Proof.
  destruct cd as [k0|]; [|left; exists TRegisterFormat; repeat split; discriminate].
  destruct (truthy k0) eqn:Hcd.
  2:{ left. exists TRegisterFormat. unfold register, or_null. rewrite Hcd.
      repeat split. discriminate. }
  rewrite (register_eq c k0 w Hcd). cbn [snd].
  destruct (select_member (from_id c) w) eqn:Hme;
    [|left; exists TAlreadyMember; repeat split; discriminate].
  destruct (select_code k0 w) as [|row rows] eqn:Hq;
    [left; exists TInvalidCode; repeat split; discriminate|].
  destruct (active row) eqn:Hact; cbn [negb];
    [|left; exists TInactiveCode; repeat split; discriminate].
  destruct (expired row (clock w));
    [left; exists TExpiredCode; repeat split; discriminate|].
  destruct (used_count row >=? allowed_uses row) eqn:Hroom;
    [left; exists TCodeFull; repeat split; discriminate|].
  right. exists k0, row, rows. rewrite Z.geb_leb in Hroom. apply Z.leb_gt in Hroom.
  repeat split; assumption.
Qed.

Lemma gencode_db_cases c u m n w :
  ADMIN_SET (snd (gencode c u m n w)) = ADMIN_SET w
  /\ (db (snd (gencode c u m n w)) = db w
      \/ (toString (from_id c) ∈ ADMIN_SET w
          /\ select_code (code (minted c u m n w)) w = []
          /\ db (snd (gencode c u m n w))
             = mkDb (membership_codes (db w) ++ [minted c u m n w]) (members (db w)))).
Proof.
  destruct (gencode_cases c u m n w)
    as [Hadm [[Hdb _]|(Hadmin & _ & _ & _ & Hfresh & Heq)]].
  - split; [exact Hadm | left; exact Hdb].
  - split; [exact Hadm|]. right. split; [exact Hadmin|]. split; [exact Hfresh|].
    rewrite Heq. reflexivity.
Qed.

Lemma revoke_cases c cd w :
  ADMIN_SET (snd (revoke c cd w)) = ADMIN_SET w
  /\ (db (snd (revoke c cd w)) = db w
      \/ (toString (from_id c) ∈ ADMIN_SET w
          /\ exists k0,
               cd = Some k0
               /\ db (snd (revoke c cd w))
                  = mkDb ((fun r => if bool_decide (code r = k0) then deactivate r else r)
                            <$> membership_codes (db w))
                      (members (db w)))).
Proof.
  unfold revoke, bind, isAdmin, query.
  destruct (decide (toString (from_id c) ∈ ADMIN_SET w)) as [Hadmin|Hadmin].
  2:{ rewrite (bool_decide_eq_false_2 _ Hadmin). split; [reflexivity | left; reflexivity]. }
  rewrite (bool_decide_eq_true_2 _ Hadmin). cbn [negb].
  destruct cd as [k0|]; [|split; [reflexivity | left; reflexivity]].
  cbn [or_null]. destruct (truthy k0); [|split; [reflexivity | left; reflexivity]].
  split; [reflexivity|]. right. split; [exact Hadmin|]. exists k0. split; reflexivity.
Qed.

Lemma deliver_ADMIN_SET now c u w : ADMIN_SET (deliver now c u w) = ADMIN_SET w.
Proof.
  unfold deliver. destruct u as [cd|ua ma na|cd]; cbn [handle].
  - destruct (register_cases c cd (set_clock now w)) as [(t & _ & _ & H)|(k0 & row & rows & _ & _ & _ & _ & _ & H)];
      rewrite H; reflexivity.
  - apply (gencode_db_cases c ua ma na (set_clock now w)).
  - apply (revoke_cases c cd (set_clock now w)).
Qed.

(** *** A user joins at most once *)

Lemma deliver_joined_once now c u w :
  NoDup (tg_id <$> members (db w)) ->
  NoDup (tg_id <$> members (db (deliver now c u w))).
Proof.
  intros Hnd. unfold deliver. destruct u as [cd|ua ma na|cd]; cbn [handle].
  - destruct (register_cases c cd (set_clock now w))
      as [(t & _ & H & _)|(k0 & row & rows & _ & Hme & _ & _ & _ & H)];
      rewrite H; [exact Hnd|].
    cbn [redeemed db members set_clock]. rewrite fmap_app. cbn [fmap list_fmap new_member tg_id].
    apply NoDup_app. split; [exact Hnd|]. split; [|apply NoDup_singleton].
    intros x Hx Hx'. apply list_elem_of_singleton in Hx'. subst x.
    apply list_elem_of_fmap in Hx as (mm & Hid & Hmm).
    assert (Hin : mm ∈ select_member (from_id c) (set_clock now w)).
    { apply list_elem_of_filter. split; [congruence | exact Hmm]. }
    rewrite Hme in Hin. inversion Hin.
  - destruct (gencode_db_cases c ua ma na (set_clock now w)) as [_ [H|(_ & _ & H)]];
      rewrite H; exact Hnd.
  - destruct (revoke_cases c cd (set_clock now w)) as [_ [H|(_ & k0 & _ & H)]];
      rewrite H; exact Hnd.
Qed.

(** X4: in every world the invitation-code bot reaches from its empty
    tables, no two member rows have the same Telegram id (a user joins at
    most once, whatever codes they present), and every member row names a
    code that is in the codes table. *)
Theorem members_join_once (w : World) :
  reachable w ->
  NoDup (tg_id <$> members (db w))
  /\ (forall m, m ∈ members (db w) ->
        exists cd, code_used m = Some cd /\ cd ∈ code <$> membership_codes (db w)).
Proof.
  induction 1 as [admins r now|w now c u Hw [IHnd IHfk]].
  - split; [constructor|]. intros m Hm. inversion Hm.
  - split; [apply deliver_joined_once; exact IHnd|].
    intros mm Hmm. unfold deliver in *. destruct u as [cd|ua ma na|cd]; cbn [handle] in *.
    + destruct (register_cases c cd (set_clock now w))
        as [(t & _ & H & _)|(k0 & row & rows & _ & _ & Hq & _ & _ & H)];
        rewrite H in Hmm |- *; [exact (IHfk mm Hmm)|].
      cbn [redeemed db members membership_codes set_clock] in *.
      assert (Hcodes : forall x, x ∈ code <$> membership_codes (db w) ->
                x ∈ code <$> ((fun r => if bool_decide (code r = k0) then bump r else r)
                               <$> membership_codes (db w))).
      { intros x Hx. rewrite <- list_fmap_compose.
        erewrite list_fmap_ext; [exact Hx|]. intros i r0 _. cbn.
        case_bool_decide; reflexivity. }
      apply elem_of_app in Hmm as [Hmm|Hmm].
      * destruct (IHfk mm Hmm) as (cd' & Hu & Hin). exists cd'. split; [exact Hu|].
        apply Hcodes, Hin.
      * apply list_elem_of_singleton in Hmm. subst mm. exists k0. split; [reflexivity|].
        apply Hcodes. destruct (select_code_head _ _ _ _ Hq) as [Hrow Hcode].
        apply list_elem_of_fmap. exists row. split; [symmetry; exact Hcode | exact Hrow].
    + destruct (gencode_db_cases c ua ma na (set_clock now w)) as [_ [H|(_ & _ & H)]];
        rewrite H in Hmm |- *; [exact (IHfk mm Hmm)|].
      cbn [members membership_codes] in *.
      destruct (IHfk mm Hmm) as (cd' & Hu & Hin). exists cd'. split; [exact Hu|].
      rewrite fmap_app. apply elem_of_app. left. exact Hin.
    + destruct (revoke_cases c cd (set_clock now w)) as [_ [H|(_ & k0 & _ & H)]];
        rewrite H in Hmm |- *; [exact (IHfk mm Hmm)|].
      cbn [members membership_codes] in *.
      destruct (IHfk mm Hmm) as (cd' & Hu & Hin). exists cd'. split; [exact Hu|].
      rewrite <- list_fmap_compose.
      erewrite list_fmap_ext; [exact Hin|]. intros i r0 _. cbn.
      case_bool_decide; reflexivity.
Qed.

Lemma members_join_once_witness :
  NoDup (tg_id <$> members (db Examples.invite_two_redeemers)).
Proof.
  refine (proj1 (members_join_once Examples.invite_two_redeemers _)).
  unfold Examples.invite_two_redeemers. repeat apply reachable_step. apply reachable_init.
Defined.

(** *** Revoking *)

(** Code [k] is in the table and every row of it is inactive. *)
Lemma revoked_kept now c u w k :
  (exists r, r ∈ membership_codes (db w) /\ code r = k) ->
  (forall r, r ∈ membership_codes (db w) -> code r = k -> active r = false) ->
  (exists r, r ∈ membership_codes (db (deliver now c u w)) /\ code r = k)
  /\ (forall r, r ∈ membership_codes (db (deliver now c u w)) ->
                code r = k -> active r = false)
  /\ members_using k (db (deliver now c u w)) = members_using k (db w).
Proof.
  intros (r0 & Hr0 & Hk0) Hoff. unfold deliver.
  destruct u as [cd|ua ma na|cd]; cbn [handle].
  - destruct (register_cases c cd (set_clock now w))
      as [(t & _ & H & _)|(k0 & row & rows & _ & _ & Hq & Hact & _ & H)]; rewrite H.
    + split; [eauto|]. split; [exact Hoff | reflexivity].
    + destruct (select_code_head _ _ _ _ Hq) as [Hrow Hk].
      assert (Hne : k0 <> k).
      { intros ->. rewrite (Hoff row Hrow Hk) in Hact. discriminate. }
      cbn [redeemed db membership_codes set_clock]. split; [|split].
      * exists r0. split; [|exact Hk0]. apply list_elem_of_fmap. exists r0.
        split; [|exact Hr0]. rewrite bool_decide_eq_false_2 by congruence. reflexivity.
      * intros r Hr Hrk. apply list_elem_of_fmap in Hr as (r1 & -> & Hr1).
        case_bool_decide as Hc; [cbn [code bump] in Hrk; congruence|].
        exact (Hoff r1 Hr1 Hrk).
      * rewrite members_using_snoc. cbn [code_used new_member].
        rewrite bool_decide_eq_false_2 by congruence.
        unfold members_using. cbn [members]. lia.
  - destruct (gencode_db_cases c ua ma na (set_clock now w)) as [_ [H|(_ & Hfresh & H)]];
      rewrite H.
    + split; [eauto|]. split; [exact Hoff | reflexivity].
    + cbn [membership_codes]. split; [|split].
      * exists r0. split; [apply elem_of_app; left; exact Hr0 | exact Hk0].
      * intros r Hr Hrk. apply elem_of_app in Hr as [Hr|Hr]; [exact (Hoff r Hr Hrk)|].
        apply list_elem_of_singleton in Hr. subst r. exfalso.
        apply (select_code_none _ _ Hfresh). rewrite Hrk.
        apply list_elem_of_fmap. exists r0. split; [symmetry; exact Hk0 | exact Hr0].
      * reflexivity.
  - destruct (revoke_cases c cd (set_clock now w)) as [_ [H|(_ & k0 & _ & H)]]; rewrite H.
    + split; [eauto|]. split; [exact Hoff | reflexivity].
    + cbn [membership_codes]. split; [|split].
      * exists (if bool_decide (code r0 = k0) then deactivate r0 else r0).
        split; [apply list_elem_of_fmap; eauto|]. case_bool_decide; exact Hk0.
      * intros r Hr Hrk. apply list_elem_of_fmap in Hr as (r1 & -> & Hr1).
        case_bool_decide; [reflexivity|]. exact (Hoff r1 Hr1 Hrk).
      * reflexivity.
Qed.

Lemma revoked_forever us : forall w k,
  (exists r, r ∈ membership_codes (db w) /\ code r = k) ->
  (forall r, r ∈ membership_codes (db w) -> code r = k -> active r = false) ->
  members_using k (db (run us w)) = members_using k (db w)
  /\ members (db w) `prefix_of` members (db (run us w)).
Proof.
  induction us as [|[[now c] u] us IH]; intros w k Hex Hoff.
  - split; reflexivity.
  - cbn [run]. destruct (revoked_kept now c u w k Hex Hoff) as (Hex' & Hoff' & Hsame).
    destruct (IH (deliver now c u w) k Hex' Hoff') as [IH1 IH2].
    split; [rewrite IH1; exact Hsame|].
    etransitivity; [|exact IH2].
    unfold deliver. destruct u as [cd|ua ma na|cd]; cbn [handle].
    + destruct (register_cases c cd (set_clock now w))
        as [(t & _ & H & _)|(k0 & row & rows & _ & _ & _ & _ & _ & H)]; rewrite H;
        [reflexivity|]. cbn [redeemed db members set_clock]. apply prefix_app_r. reflexivity.
    + destruct (gencode_db_cases c ua ma na (set_clock now w)) as [_ [H|(_ & _ & H)]];
        rewrite H; reflexivity.
    + destruct (revoke_cases c cd (set_clock now w)) as [_ [H|(_ & k0 & _ & H)]];
        rewrite H; reflexivity.
Qed.

(** X5: when an admin revokes a code that is in the table, the member rows
    are left as they are, and whatever updates the bot handles afterwards
    (registrations with this or other codes, new codes, further revocations),
    nobody joins with the revoked code again: the number of its members stays
    what it was, and the members who used it remain. *)
Theorem revoke_blocks_redemption (now : Z) (c : sender) (k : jsstring) (w : World)
    (us : list (Z * sender * update)) :
  toString (from_id c) ∈ ADMIN_SET w ->
  truthy k = true ->
  select_code k w <> [] ->
  let w1 := deliver now c (URevoke (Some k)) w in
  members (db w1) = members (db w)
  /\ members_using k (db (run us w1)) = members_using k (db w)
  /\ members (db w) `prefix_of` members (db (run us w1)).
Proof.
  intros Hadmin Hk Hsel w1.
  assert (Hdb : db w1 = mkDb ((fun r => if bool_decide (code r = k) then deactivate r else r)
                                <$> membership_codes (db w)) (members (db w))).
  { unfold w1, deliver. cbn [handle]. unfold revoke, bind, isAdmin, query.
    cbn [ADMIN_SET set_clock]. rewrite (bool_decide_eq_true_2 _ Hadmin). cbn [negb or_null].
    rewrite Hk. reflexivity. }
  assert (Hmem : members (db w1) = members (db w)) by (rewrite Hdb; reflexivity).
  split; [exact Hmem|].
  destruct (select_code k w) as [|row rows] eqn:Hq; [contradiction|].
  destruct (select_code_head _ _ _ _ Hq) as [Hrow Hcode].
  destruct (revoked_forever us w1 k) as [H1 H2].
  - exists (deactivate row). rewrite Hdb. cbn [membership_codes]. split; [|exact Hcode].
    apply list_elem_of_fmap. exists row. split; [|exact Hrow].
    rewrite bool_decide_eq_true_2 by exact Hcode. reflexivity.
  - intros r Hr Hrk. rewrite Hdb in Hr. cbn [membership_codes] in Hr.
    apply list_elem_of_fmap in Hr as (r1 & -> & Hr1).
    case_bool_decide as Hc; [reflexivity|]. contradiction.
  - split.
    + rewrite H1. unfold members_using. rewrite Hmem. reflexivity.
    + rewrite <- Hmem. exact H2.
Qed.

Lemma revoke_blocks_redemption_witness :
  members_using Examples.code_A
    (db (run [(40, Examples.stranger, URegister (Some Examples.code_A))]
           (deliver 30 Examples.admin1 (URevoke (Some Examples.code_A))
              Examples.invite_minted)))
  = members_using Examples.code_A (db Examples.invite_minted).
Proof.
  refine (proj1 (proj2 (revoke_blocks_redemption 30 Examples.admin1 Examples.code_A
                          Examples.invite_minted
                          [(40, Examples.stranger, URegister (Some Examples.code_A))]
                          _ _ _))).
  - vm_compute. reflexivity.
  - reflexivity.
  - vm_compute. discriminate.
Defined.

(** *** Updates of senders who are no admins *)

Lemma policy_kept_by_non_admin now c u w :
  toString (from_id c) ∉ ADMIN_SET w ->
  code_policy <$> membership_codes (db (deliver now c u w))
  = code_policy <$> membership_codes (db w).
Proof.
  intros Hno. unfold deliver. destruct u as [cd|ua ma na|cd]; cbn [handle].
  - destruct (register_cases c cd (set_clock now w))
      as [(t & _ & H & _)|(k0 & row & rows & _ & _ & _ & _ & _ & H)]; rewrite H;
      [reflexivity|].
    cbn [redeemed db membership_codes set_clock]. rewrite <- list_fmap_compose.
    apply list_fmap_ext. intros i r _. cbn. case_bool_decide; reflexivity.
  - destruct (gencode_db_cases c ua ma na (set_clock now w)) as [_ [H|(Hadmin & _)]];
      [rewrite H; reflexivity | contradiction].
  - destruct (revoke_cases c cd (set_clock now w)) as [_ [H|(Hadmin & _)]];
      [rewrite H; reflexivity | contradiction].
Qed.

(** X6: updates sent by users who are not in the admin list never mint,
    revoke or alter a code: after any sequence of such updates the codes
    table has the same codes, in the same order, with the same capacity,
    expiry and active flag (only [used_count] can have changed). *)
Theorem non_admins_cannot_change_codes (us : list (Z * sender * update)) : forall w,
  Forall (fun nu => toString (from_id (snd (fst nu))) ∉ ADMIN_SET w) us ->
  code_policy <$> membership_codes (db (run us w))
  = code_policy <$> membership_codes (db w).
Proof.
  induction us as [|[[now c] u] us IH]; intros w Hus; [reflexivity|].
  apply Forall_cons in Hus as [Hc Hus]. cbn [snd fst] in Hc. cbn [run].
  rewrite IH.
  - apply policy_kept_by_non_admin. exact Hc.
  - eapply Forall_impl; [exact Hus|]. intros nu Hnu.
    rewrite deliver_ADMIN_SET. exact Hnu.
Qed.

Lemma non_admins_cannot_change_codes_witness :
  code_policy <$> membership_codes
    (db (run [(20, Examples.member7, UGencode (Some 5) None None);
              (21, Examples.member7, URevoke (Some Examples.code_A));
              (22, Examples.member7, URegister (Some Examples.code_A))]
           Examples.invite_minted))
  = code_policy <$> membership_codes (db Examples.invite_minted).
Proof.
  apply (non_admins_cannot_change_codes
           [(20, Examples.member7, UGencode (Some 5) None None);
            (21, Examples.member7, URevoke (Some Examples.code_A));
            (22, Examples.member7, URegister (Some Examples.code_A))]
           Examples.invite_minted).
  repeat constructor; vm_compute; discriminate.
Defined.

(** *** The listing of active codes *)

Lemma newer_total : Total newer.
Proof. intros a b. unfold newer. lia. Qed.

Lemma newer_trans : Transitive newer.
Proof. intros a b d. unfold newer. lia. Qed.

(** X7: [/codes] stays silent for a sender who is no admin.  For an admin,
    in every world the bot reaches from its empty tables, it lists at most 20
    lines, newest code first, each for an active code of the table (so never
    a revoked one); the line shows the code, its expiry and note, and as the
    remaining number of uses the capacity minus the number of members who
    joined with the code, which is never negative.  Every active code is
    listed when there are at most 20, and otherwise the ones left out are no
    newer than the ones listed. *)
Theorem codes_listing (c : sender) (w : World) :
  reachable w ->
  let shown r :=
    (code r, allowed_uses r - Z.of_nat (members_using (code r) (db w)),
     expires_at r, note r) in
  let is_active r := r ∈ membership_codes (db w) /\ active r = true in
  (toString (from_id c) ∉ ADMIN_SET w -> codes c w = None)
  /\ (toString (from_id c) ∈ ADMIN_SET w ->
      exists rows,
        codes c w = Some (shown <$> rows)
        /\ (length rows <= 20)%nat
        /\ StronglySorted (fun a b => created_at b <= created_at a) rows
        /\ (forall r, r ∈ rows ->
              is_active r
              /\ 0 <= allowed_uses r - Z.of_nat (members_using (code r) (db w)))
        /\ (forall r, is_active r -> r ∉ rows ->
              (20 <= length rows)%nat
              /\ forall r', r' ∈ rows -> created_at r <= created_at r')).
Proof.
  intros Hw shown is_active. unfold codes. split; intros Hadmin.
  - rewrite (bool_decide_eq_false_2 _ Hadmin). reflexivity.
  - rewrite (bool_decide_eq_true_2 _ Hadmin). cbn [negb].
    set (sorted := merge_sort newer
                     (filter (fun r => active r = true) (membership_codes (db w)))).
    assert (Hsorted : StronglySorted newer sorted)
      by apply (@StronglySorted_merge_sort _ newer _ newer_trans newer_total).
    assert (Helem : forall r, r ∈ sorted <-> is_active r).
    { intros r. unfold sorted, is_active. rewrite merge_sort_Permutation.
      rewrite list_elem_of_filter. tauto. }
    rewrite <- (take_drop 20 sorted) in Hsorted.
    exists (take 20 sorted). split; [|split; [|split; [|split]]].
    + f_equal. apply list_fmap_ext. intros i r Hr.
      apply list_elem_of_lookup_2, subseteq_take, Helem in Hr. destruct Hr as [Hr _].
      destruct (reachable_consistent w Hw) as (_ & _ & Hcount).
      destruct (Hcount r Hr) as [Hu _].
      unfold code_line, shown. rewrite Hu. reflexivity.
    + rewrite length_take. lia.
    + exact (StronglySorted_app_1_l _ _ _ Hsorted).
    + intros r Hr. apply subseteq_take, Helem in Hr. split; [exact Hr|].
      destruct Hr as [Hr _].
      destruct (reachable_consistent w Hw) as (_ & _ & Hcount).
      destruct (Hcount r Hr) as [Hu Hle]. lia.
    + intros r Hr Hout. apply Helem in Hr.
      rewrite <- (take_drop 20 sorted) in Hr. apply elem_of_app in Hr as [Hr|Hr];
        [contradiction|].
      split.
      * rewrite length_take. destruct (Nat.le_gt_cases 20 (length sorted)) as [Hl|Hl]; [lia|].
        rewrite drop_ge in Hr by lia. inversion Hr.
      * intros r' Hr'. exact (StronglySorted_app_1_elem_of _ _ _ _ _ Hsorted Hr' Hr).
Qed.

Lemma codes_listing_witness :
  exists rows,
    codes Examples.admin1 Examples.invite_two_redeemers
    = Some ((fun r => (code r, allowed_uses r - 1, expires_at r, note r)) <$> rows)
    /\ code <$> rows = [Examples.code_A].
Proof.
  destruct (proj2 (codes_listing Examples.admin1 Examples.invite_two_redeemers
                     ltac:(unfold Examples.invite_two_redeemers;
                           repeat apply reachable_step; apply reachable_init))
              ltac:(vm_compute; reflexivity))
    as (rows & Hlines & _ & _ & Hrows & Hall).
  exists rows.
  assert (Hcodes : forall r, r ∈ rows -> code r = Examples.code_A).
  { intros r Hr. destruct (Hrows r Hr) as [[Hin _] _]. vm_compute in Hin.
    apply list_elem_of_singleton in Hin. subst r. reflexivity. }
  split.
  - rewrite Hlines. f_equal. apply list_fmap_ext. intros i r Hr.
    apply list_elem_of_lookup_2 in Hr. rewrite (Hcodes r Hr). reflexivity.
  - vm_compute in Hlines. destruct rows as [|r [|r' rows]]; try discriminate Hlines.
    cbn [fmap list_fmap]. rewrite (Hcodes r); [reflexivity | left].
Defined.

(** *** Every redemption attempt is answered once *)

(** X21: [/register] never throws, whatever its argument and the state of
    the tables (every failure inside the transaction is caught): it sends
    exactly one message; unless that message is the one for success, both
    tables are exactly as they were; and a started transaction is always
    closed by a rollback or the commit. *)
Theorem register_answers_once (c : sender) (cd : option jsstring) (w : World) :
  exists t w',
    register c cd w = (Ok tt, w')
    /\ sent w' = sent w ++ [t]
    /\ (t <> TRegistered -> db w' = db w)
    /\ (t <> TRegisterFormat -> txn w' = None)
    /\ (t = TRegisterFormat -> or_null cd = None /\ txn w' = txn w).
Proof.
  destruct (or_null cd) as [k|] eqn:Hcd.
  - assert (Hk : cd = Some k /\ truthy k = true).
    { destruct cd as [k'|]; [|discriminate]. cbn [or_null] in Hcd.
      destruct (truthy k') eqn:Hk'; [|discriminate]. injection Hcd as <-. auto. }
    destruct Hk as [-> Hk]. rewrite (register_eq c k w Hk).
    assert (Hrefused : forall t, t <> TRegistered -> t <> TRegisterFormat ->
              exists t0 w', (Ok tt, refused t w) = (Ok tt, w')
                /\ sent w' = sent w ++ [t0]
                /\ (t0 <> TRegistered -> db w' = db w)
                /\ (t0 <> TRegisterFormat -> txn w' = None)
                /\ (t0 = TRegisterFormat -> Some k = None /\ txn w' = txn w)).
    { intros t Ht1 Ht2. exists t, (refused t w).
      repeat split; try reflexivity. contradiction. contradiction. }
    destruct (select_member (from_id c) w); [|apply Hrefused; discriminate].
    destruct (select_code k w) as [|row rows]; [apply Hrefused; discriminate|].
    destruct (negb (active row)); [apply Hrefused; discriminate|].
    destruct (expired row (clock w)); [apply Hrefused; discriminate|].
    destruct (used_count row >=? allowed_uses row); [apply Hrefused; discriminate|].
    exists TRegistered, (redeemed c k w).
    repeat split; try reflexivity; try contradiction; discriminate.
  - exists TRegisterFormat, (set_sent (sent w ++ [TRegisterFormat]) w).
    unfold register. rewrite Hcd.
    repeat split; try reflexivity; try contradiction.
Qed.

End InviteFacts.
